(** * Shape and index semantics of the hierarchical attention models

    A shallow embedding of the tensor plumbing of
    [timm/models/hieradet_sam2.py] and [timm/models/davit.py]:
    window partitioning, query pooling, channel attention, patch
    embedding, block and stage construction, and the feature-pyramid
    traversal.

    Tensors are contiguous row-major arrays: a shape and a flat list of
    scalars.  Sizes and counts are naturals, Python integers that can go
    below zero (block indices minus one, dimension arguments) are in [Z].
    Scalars are abstract: the floating-point operations the code uses are
    the fields of the class [Scalar]; no law is assumed about them. *)

From Stdlib Require Import String.
From Stdlib Require Import List Arith ZArith Lia Bool QArith Qround.
From Stdlib Require Import Reals Lra.
Import ListNotations.

Set Implicit Arguments.
Close Scope Q_scope.
Open Scope nat_scope.

(** ** Exceptions and the result monad *)

Inductive exn : Type :=
| ZeroDivisionError
| RuntimeError
| AssertionError
| AttributeError
| TypeError
| IndexError
| ValueError
| OverflowError.

Inductive result (T : Type) : Type :=
| Ok (v : T)
| Raise (e : exn).

Arguments Ok {T} v.
Arguments Raise {T} e.

Definition bind {T U : Type} (c : result T) (k : T -> result U) : result U :=
  match c with
  | Ok v => k v
  | Raise e => Raise e
  end.

Declare Scope result_scope.
Delimit Scope result_scope with result.
Notation "x <- c ;; k" := (bind c (fun x => k))
  (at level 61, c at next level, right associativity) : result_scope.
Notation "' p <- c ;; k" := (bind c (fun x => match x with p => k end))
  (at level 61, p pattern, c at next level, right associativity) : result_scope.
Open Scope result_scope.

Definition is_ok {T : Type} (c : result T) : bool :=
  match c with Ok _ => true | Raise _ => false end.

(** Python's [a // b] and [a % b] on non-negative integers. *)
Definition py_floordiv (a b : nat) : result nat :=
  if b =? 0 then Raise ZeroDivisionError else Ok (a / b).

Definition py_mod (a b : nat) : result nat :=
  if b =? 0 then Raise ZeroDivisionError else Ok (a mod b).

(** The same on integers of either sign: the quotient is rounded down. *)
Definition int_floordiv (a b : Z) : result Z :=
  if (b =? 0)%Z then Raise ZeroDivisionError else Ok (a / b)%Z.

Definition py_assert (b : bool) : result unit :=
  if b then Ok tt else Raise AssertionError.

(** ** Scalars *)

Class Scalar (A : Type) : Type := {
  zero : A;
  add : A -> A -> A;
  mul : A -> A -> A;
  fmax : A -> A -> A;
  fexp : A -> A;
  fdiv : A -> A -> A;
  (** [rsqrt n] is [n ** -0.5] *)
  rsqrt : nat -> A
}.

(** ** Tensors *)

Record tensor (A : Type) : Type := mkTensor {
  shape : list nat;
  data : list A
}.

Arguments mkTensor {A} shape data.
Arguments shape {A} t.
Arguments data {A} t.

Definition numel (sh : list nat) : nat := fold_right Nat.mul 1 sh.

(** A Python integer used as the size of a tensor to create, or as an
    extent handed to [reshape] beside a [-1]: a negative one is refused. *)
Definition size_of_int (z : Z) : result nat :=
  if (z <? 0)%Z then Raise RuntimeError else Ok (Z.to_nat z).

Definition wf {A : Type} (t : tensor A) : Prop :=
  length (data t) = numel (shape t).

(** Row-major offset of a multi-index, and its inverse. *)
Fixpoint ravel (sh idx : list nat) : nat :=
  match sh, idx with
  | _ :: sh', i :: idx' => i * numel sh' + ravel sh' idx'
  | _, _ => 0
  end.

Fixpoint unravel (sh : list nat) (k : nat) : list nat :=
  match sh with
  | [] => []
  | _ :: sh' => k / numel sh' :: unravel sh' (k mod numel sh')
  end.

Definition in_bounds (idx sh : list nat) : Prop := Forall2 lt idx sh.

Fixpoint in_boundsb (idx sh : list nat) : bool :=
  match idx, sh with
  | [], [] => true
  | i :: idx', n :: sh' => (i <? n) && in_boundsb idx' sh'
  | _, _ => false
  end.

Inductive dimarg : Type :=
| D (n : nat)
| Infer.

Definition known_dims (args : list dimarg) : list nat :=
  flat_map (fun a => match a with D n => [n] | Infer => [] end) args.

Definition count_infer (args : list dimarg) : nat :=
  length (filter (fun a => match a with Infer => true | D _ => false end) args).

Definition fill_dims (args : list dimarg) (m : nat) : list nat :=
  map (fun a => match a with D n => n | Infer => m end) args.

Section TensorOps.

Context {A : Type} {SA : Scalar A}.

Definition get (t : tensor A) (idx : list nat) : A :=
  nth (ravel (shape t) idx) (data t) zero.

(** The tensor of shape [sh] whose entry at [idx] is [f idx]. *)
Definition init (sh : list nat) (f : list nat -> A) : tensor A :=
  mkTensor sh (map (fun k => f (unravel sh k)) (seq 0 (numel sh))).

(** [t.view(sizes)] and [t.reshape(sizes)] on a contiguous tensor: the
    data is kept, the shape replaced; one argument may be [-1]. *)
Definition view (t : tensor A) (args : list dimarg) : result (tensor A) :=
  let n := numel (shape t) in
  let known := numel (known_dims args) in
  match count_infer args with
  | 0 => if known =? n then Ok (mkTensor (known_dims args) (data t))
         else Raise RuntimeError
  | 1 => if known =? 0 then Raise RuntimeError
         else if n mod known =? 0
              then Ok (mkTensor (fill_dims args (n / known)) (data t))
              else Raise RuntimeError
  | _ => Raise RuntimeError
  end.

(** [t.contiguous()] *)
Definition contiguous (t : tensor A) : tensor A := t.

Fixpoint index_of (j : nat) (l : list nat) : nat :=
  match l with
  | [] => 0
  | x :: l' => if x =? j then 0 else S (index_of j l')
  end.

Definition is_permutation (dims : list nat) (r : nat) : bool :=
  (length dims =? r) && forallb (fun j => existsb (Nat.eqb j) dims) (seq 0 r).

(** [t.permute(dims)]: axis [i] of the result is axis [dims[i]] of [t]. *)
Definition permute (t : tensor A) (dims : list nat) : result (tensor A) :=
  let r := length (shape t) in
  if is_permutation dims r then
    Ok (init (map (fun d => nth d (shape t) 0) dims)
             (fun idx => get t (map (fun j => nth (index_of j dims) idx 0) (seq 0 r))))
  else Raise RuntimeError.

(** Python's normalisation of a possibly negative axis. *)
Definition norm_dim (r : nat) (d : Z) : result nat :=
  let d' := if (d <? 0)%Z then (d + Z.of_nat r)%Z else d in
  if ((0 <=? d') && (d' <? Z.of_nat r))%Z then Ok (Z.to_nat d') else Raise IndexError.

Definition swap_dims (r i j : nat) : list nat :=
  map (fun k => if k =? i then j else if k =? j then i else k) (seq 0 r).

(** [t.transpose(d0, d1)] *)
Definition transpose (t : tensor A) (d0 d1 : Z) : result (tensor A) :=
  let r := length (shape t) in
  i <- norm_dim r d0 ;;
  j <- norm_dim r d1 ;;
  permute t (swap_dims r i j).

(** [F.pad(t, pads)] with constant zero fill: [pads] lists
    (before, after) pairs starting from the last axis. *)
Fixpoint pad_pairs (pads : list nat) : list (nat * nat) :=
  match pads with
  | l :: r :: rest => (l, r) :: pad_pairs rest
  | _ => []
  end.

Definition pad_spec (r : nat) (pads : list nat) : list (nat * nat) :=
  let ps := pad_pairs pads in
  repeat (0, 0) (r - length ps) ++ rev ps.

Fixpoint shift_index (idx sh : list nat) (ps : list (nat * nat)) : option (list nat) :=
  match idx, sh, ps with
  | [], [], [] => Some []
  | i :: idx', n :: sh', (l, _) :: ps' =>
      if (l <=? i) && (i - l <? n) then
        match shift_index idx' sh' ps' with
        | Some rest => Some (i - l :: rest)
        | None => None
        end
      else None
  | _, _, _ => None
  end.

Definition F_pad (t : tensor A) (pads : list nat) : result (tensor A) :=
  let r := length (shape t) in
  if (Nat.even (length pads)) && (length pads / 2 <=? r) then
    let ps := pad_spec r pads in
    Ok (init (map (fun '(n, (l, r)) => l + n + r) (combine (shape t) ps))
             (fun idx => match shift_index idx (shape t) ps with
                         | Some src => get t src
                         | None => zero
                         end))
  else Raise RuntimeError.

(** Basic slicing [t[:n0, :n1, ...]]: [None] stands for a full [:]. *)
Fixpoint slice_shape (sh : list nat) (stops : list (option nat)) : list nat :=
  match sh, stops with
  | n :: sh', Some s :: stops' => Nat.min s n :: slice_shape sh' stops'
  | n :: sh', None :: stops' => n :: slice_shape sh' stops'
  | _, _ => sh
  end.

Definition slice_to (t : tensor A) (stops : list (option nat)) : result (tensor A) :=
  if length stops <=? length (shape t) then
    Ok (init (slice_shape (shape t) stops) (fun idx => get t idx))
  else Raise IndexError.

(** Zero fill outside the first [H] rows and [W] columns of a
    [(B, H, W, C)] map. *)
Definition zero_padded (f : list nat -> A) (H W : nat) (idx : list nat) : A :=
  let h := nth 1 idx 0 in
  let w := nth 2 idx 0 in
  if (h <? H) && (w <? W) then f idx else zero.

(** The same for a [(B, C, H, W)] map. *)
Definition zero_padded_nchw (f : list nat -> A) (H W : nat) (idx : list nat) : A :=
  let h := nth 2 idx 0 in
  let w := nth 3 idx 0 in
  if (h <? H) && (w <? W) then f idx else zero.


(** [tensor_is t sh f]: [t] is a well-formed tensor of shape [sh] whose
    entry at every index [idx] within bounds is [f idx]. *)
Definition tensor_is (t : tensor A) (sh : list nat) (f : list nat -> A) : Prop :=
  shape t = sh /\ wf t /\ forall idx, in_bounds idx sh -> get t idx = f idx.

End TensorOps.


(** ** Layers of [torch.nn] and [torch.nn.functional] *)

Section Layers.

Context {A : Type} {SA : Scalar A}.

Definition sum_list (l : list A) : A := fold_right add zero l.

Definition sum_over (n : nat) (f : nat -> A) : A := sum_list (map f (seq 0 n)).

Definition maximum (l : list A) : A :=
  match l with
  | [] => zero
  | a :: l' => fold_left fmax l' a
  end.

(** The leading part of an index and its last component. *)
Definition lead (idx : list nat) : list nat := removelast idx.
Definition last_of (idx : list nat) : nat := last idx 0.

(** The vector along the last axis of [t] at the leading index [l]. *)
Definition row (t : tensor A) (l : list nat) : list A :=
  map (fun k => get t (l ++ [k])) (seq 0 (last (shape t) 0)).

(** Broadcasting of two shapes, aligned on the right. *)
Fixpoint broadcast_rev (s1 s2 : list nat) : result (list nat) :=
  match s1, s2 with
  | [], s | s, [] => Ok s
  | a :: s1', b :: s2' =>
      rest <- broadcast_rev s1' s2' ;;
      if a =? b then Ok (a :: rest)
      else if a =? 1 then Ok (b :: rest)
      else if b =? 1 then Ok (a :: rest)
      else Raise RuntimeError
  end.

Definition broadcast_shapes (s1 s2 : list nat) : result (list nat) :=
  r <- broadcast_rev (rev s1) (rev s2) ;; Ok (rev r).

(** The index into an operand of shape [sh] for the result index [idx]:
    leading axes the operand lacks are dropped, axes of extent one are
    read at zero. *)
Definition broadcast_index (sh idx : list nat) : list nat :=
  map (fun '(n, i) => if n =? 1 then 0 else i)
      (combine sh (skipn (length idx - length sh) idx)).

(** [a + b] on tensors *)
Definition tensor_add (a b : tensor A) : result (tensor A) :=
  sh <- broadcast_shapes (shape a) (shape b) ;;
  Ok (init sh (fun idx => add (get a (broadcast_index (shape a) idx))
                              (get b (broadcast_index (shape b) idx)))).

(** [t * s] for a Python float [s] *)
Definition tensor_scale (t : tensor A) (s : A) : tensor A :=
  mkTensor (shape t) (map (fun v => mul v s) (data t)).

Definition remove_at {T : Type} (n : nat) (l : list T) : list T :=
  firstn n l ++ skipn (S n) l.

Definition insert_at {T : Type} (n : nat) (x : T) (l : list T) : list T :=
  firstn n l ++ x :: skipn n l.

(** [t.select(d, i)], the [i]-th slice along axis [d] *)
Definition select (t : tensor A) (d i : nat) : result (tensor A) :=
  if (d <? length (shape t)) && (i <? nth d (shape t) 0) then
    Ok (init (remove_at d (shape t)) (fun idx => get t (insert_at d i idx)))
  else Raise IndexError.

(** [torch.unbind(t, d)] *)
Definition unbind (t : tensor A) (d : nat) : result (list (tensor A)) :=
  if d <? length (shape t) then
    Ok (map (fun i => init (remove_at d (shape t)) (fun idx => get t (insert_at d i idx)))
            (seq 0 (nth d (shape t) 0)))
  else Raise IndexError.

(** [a @ b] with equal batch axes *)
Definition matmul (a b : tensor A) : result (tensor A) :=
  match rev (shape a), rev (shape b) with
  | k :: m :: la, n :: k' :: lb =>
      if (k =? k') && (if list_eq_dec Nat.eq_dec la lb then true else false) then
        Ok (init (rev la ++ [m; n])
              (fun idx =>
                 let l := firstn (length la) idx in
                 let i := nth (length la) idx 0 in
                 let j := nth (S (length la)) idx 0 in
                 sum_over k (fun c => mul (get a (l ++ [i; c])) (get b (l ++ [c; j])))))
      else Raise RuntimeError
  | _, _ => Raise RuntimeError
  end.

Definition softmax_list (l : list A) : list A :=
  let es := map fexp l in
  let z := sum_list es in
  map (fun e => fdiv e z) es.

(** [t.softmax(dim=-1)] *)
Definition softmax_last (t : tensor A) : result (tensor A) :=
  match shape t with
  | [] => Raise IndexError
  | _ => Ok (init (shape t)
               (fun idx => nth (last_of idx) (softmax_list (row t (lead idx))) zero))
  end.

(** [F.scaled_dot_product_attention(q, k, v)] on
    [(B, heads, L, E)], [(B, heads, S, E)] and [(B, heads, S, Ev)]. *)
Definition scaled_dot_product_attention (q k v : tensor A) : result (tensor A) :=
  match shape q, shape k, shape v with
  | [B; h; L; E], [B'; h'; Sk; E'], [B''; h''; Sv; Ev] =>
      if (B =? B') && (B =? B'') && (h =? h') && (h =? h'') &&
         (E =? E') && (Sk =? Sv) then
        Ok (init [B; h; L; Ev]
              (fun idx =>
                 let b := nth 0 idx 0 in
                 let n := nth 1 idx 0 in
                 let l := nth 2 idx 0 in
                 let e := nth 3 idx 0 in
                 let scores := map (fun s =>
                   mul (sum_over E (fun c => mul (get q [b; n; l; c]) (get k [b; n; s; c])))
                       (rsqrt E)) (seq 0 Sk) in
                 let p := softmax_list scores in
                 sum_over Sk (fun s => mul (nth s p zero) (get v [b; n; s; e]))))
      else Raise RuntimeError
  | _, _, _ => Raise RuntimeError
  end.

End Layers.

(** [nn.Linear(in_features, out_features)]: the weight of shape
    [(out_features, in_features)] and the bias are given as functions of
    their index. *)
Module Linear.
Section Linear.
Context {A : Type} {SA : Scalar A}.

Record t : Type := {
  in_features : nat;
  out_features : nat;
  weight : nat -> nat -> A;
  bias : nat -> A
}.

Definition forward (l : t) (x : tensor A) : result (tensor A) :=
  match rev (shape x) with
  | c :: ld =>
      if c =? in_features l then
        Ok (init (rev ld ++ [out_features l])
              (fun idx =>
                 let o := last_of idx in
                 add (sum_over c (fun k => mul (get x (lead idx ++ [k])) (weight l o k)))
                     (bias l o)))
      else Raise RuntimeError
  | [] => Raise RuntimeError
  end.

End Linear.
End Linear.

(** [nn.MaxPool2d(kernel_size, stride, ceil_mode=False)], no padding. *)
Module MaxPool2d.
Section MaxPool2d.
Context {A : Type} {SA : Scalar A}.

Record t : Type := {
  kernel_size : nat * nat;
  stride : nat * nat
}.

(** Output extent of a pooling window along one axis; an extent below one
    is an error. *)
Definition pool_out (n k s : nat) : result nat :=
  if (k =? 0) || (s =? 0) then Raise RuntimeError
  else if n <? k then Raise RuntimeError
  else Ok ((n - k) / s + 1).

Definition forward (p : t) (x : tensor A) : result (tensor A) :=
  let '(kh, kw) := kernel_size p in
  let '(sh, sw) := stride p in
  match shape x with
  | [B; C; H; W] =>
      Ho <- pool_out H kh sh ;;
      Wo <- pool_out W kw sw ;;
      Ok (init [B; C; Ho; Wo]
            (fun idx =>
               let b := nth 0 idx 0 in
               let c := nth 1 idx 0 in
               let i := nth 2 idx 0 in
               let j := nth 3 idx 0 in
               maximum (flat_map (fun di => map (fun dj =>
                          get x [b; c; i * sh + di; j * sw + dj]) (seq 0 kw))
                        (seq 0 kh))))
  | _ => Raise RuntimeError
  end.

End MaxPool2d.
End MaxPool2d.

(** [nn.Conv2d(in_channels, out_channels, kernel_size, stride, padding,
    groups)]: the weight of shape
    [(out_channels, in_channels / groups, kh, kw)] and the bias are given
    as functions of their index. *)
Module Conv2d.
Section Conv2d.
Context {A : Type} {SA : Scalar A}.

Record t : Type := {
  in_channels : nat;
  out_channels : nat;
  kernel_size : nat * nat;
  stride : nat * nat;
  padding : nat * nat;
  groups : nat;
  weight : nat -> nat -> nat -> nat -> A;
  bias : nat -> A
}.

(** Output extent along one axis: [floor((n + 2p - k) / s) + 1]. *)
Definition conv_out (n k s p : nat) : result nat :=
  if (k =? 0) || (s =? 0) then Raise RuntimeError
  else if n + 2 * p <? k then Raise RuntimeError
  else Ok ((n + 2 * p - k) / s + 1).

Definition forward (l : t) (x : tensor A) : result (tensor A) :=
  let '(kh, kw) := kernel_size l in
  let '(sh, sw) := stride l in
  let '(ph, pw) := padding l in
  match shape x with
  | [B; C; H; W] =>
      if (C =? in_channels l) && (0 <? groups l) &&
         (in_channels l mod groups l =? 0) && (out_channels l mod groups l =? 0) then
        Ho <- conv_out H kh sh ph ;;
        Wo <- conv_out W kw sw pw ;;
        let gin := in_channels l / groups l in
        let gout := out_channels l / groups l in
        Ok (init [B; out_channels l; Ho; Wo]
              (fun idx =>
                 let b := nth 0 idx 0 in
                 let o := nth 1 idx 0 in
                 let i := nth 2 idx 0 in
                 let j := nth 3 idx 0 in
                 add (sum_over gin (fun c =>
                        sum_over kh (fun di =>
                          sum_over kw (fun dj =>
                            let r := i * sh + di in
                            let q := j * sw + dj in
                            if (ph <=? r) && (r - ph <? H) && (pw <=? q) && (q - pw <? W)
                            then mul (get x [b; o / gout * gin + c; r - ph; q - pw])
                                     (weight l o c di dj)
                            else zero))))
                     (bias l o)))
      else Raise RuntimeError
  | _ => Raise RuntimeError
  end.

End Conv2d.
End Conv2d.

(** A layer that maps the channel vector of every token on its own
    (a normalisation layer, an MLP): channel [c] of the result is
    [token_fn v c] for the channel vector [v] of the token.  The numerical
    function is left open; the layer checks the channel count. *)
Module TokenLayer.
Section TokenLayer.
Context {A : Type} {SA : Scalar A}.

Record t : Type := {
  features : nat;
  features_out : nat;
  token_fn : list A -> nat -> A
}.

Definition forward (l : t) (x : tensor A) : result (tensor A) :=
  match rev (shape x) with
  | c :: ld =>
      if c =? features l then
        Ok (init (rev ld ++ [features_out l])
              (fun idx => token_fn l (row x (lead idx)) (last_of idx)))
      else Raise RuntimeError
  | [] => Raise RuntimeError
  end.

End TokenLayer.
End TokenLayer.

(** Stochastic depth: every sample of the batch is scaled on its own
    (kept and rescaled, or zeroed, in training; unchanged in evaluation
    and for [nn.Identity]). *)
Module DropPath.
Section DropPath.
Context {A : Type} {SA : Scalar A}.

Record t : Type := {
  sample_fn : nat -> A -> A
}.

Definition forward (l : t) (x : tensor A) : tensor A :=
  init (shape x) (fun idx => sample_fn l (nth 0 idx 0) (get x idx)).

End DropPath.
End DropPath.


(** An integer stand-in for the scalars, used to run the index plumbing
    on concrete tensors. *)
#[export] Instance Z_scalar : Scalar Z := {|
  zero := 0%Z;
  add := Z.add;
  mul := Z.mul;
  fmax := Z.max;
  fexp := fun x => x;
  fdiv := Z.div;
  rsqrt := fun _ => 1%Z
|}.

(** The real numbers as scalars, with the exponential and the division
    of the softmax. *)
#[export] Instance R_scalar : Scalar R := {|
  zero := 0%R;
  add := Rplus;
  mul := Rmult;
  fmax := Rmax;
  fexp := exp;
  fdiv := Rdiv;
  rsqrt := fun n => (/ sqrt (INR n))%R
|}.

(** ** Python floats *)

(** A float is an IEEE 754 binary64 value: a rational with a significand
    of 53 bits, an infinity, or a NaN.  The sign of a zero is not kept:
    no operation below reads it. *)
Inductive pyfloat : Type :=
| Fin (q : Q)
| Inf (negative : bool)
| Nan.

(** The integer nearest to [n / d], ties to the even one, for [n >= 0]
    and [d > 0]. *)
Definition round_half_even (n d : Z) : Z :=
  let q := (n / d)%Z in
  match (2 * (n mod d) ?= d)%Z with
  | Lt => q
  | Gt => (q + 1)%Z
  | Eq => if Z.even q then q else (q + 1)%Z
  end.

(** [floor(log2(n / d))] for positive [n] and [d]. *)
Definition log2_ratio (n d : Z) : Z :=
  let l := (Z.log2 n - Z.log2 d)%Z in
  if (0 <=? l)%Z
  then (if (d * 2 ^ l <=? n)%Z then l else l - 1)%Z
  else (if (d <=? n * 2 ^ (- l))%Z then l else l - 1)%Z.

(** Rounding of the positive rational [n / d] to binary64: the
    significand is the nearest integer to [n / d / 2 ^ e], where [e] is
    the exponent of the last of the 53 bits, no less than -1074 (below,
    the value is subnormal); a result of [2 ^ 1024] or more is an
    overflow. *)
Definition round_pos (n d : Z) : option Q :=
  let e := Z.max (log2_ratio n d - 52) (-1074) in
  if (0 <=? e)%Z then
    let v := (round_half_even n (d * 2 ^ e) * 2 ^ e)%Z in
    if (2 ^ 1024 <=? v)%Z then None else Some (inject_Z v)
  else
    Some (Qred (Qmake (round_half_even (n * 2 ^ (- e)) d) (Z.to_pos (2 ^ (- e))))).

(** The float nearest to a rational: the value of a literal, the result
    of an operation on floats. *)
Definition float_round (q : Q) : pyfloat :=
  let r := Qred q in
  match Qnum r with
  | Z0 => Fin 0
  | Zpos n =>
      match round_pos (Zpos n) (Zpos (Qden r)) with
      | Some v => Fin v
      | None => Inf false
      end
  | Zneg n =>
      match round_pos (Zpos n) (Zpos (Qden r)) with
      | Some v => Fin (Qopp v)
      | None => Inf true
      end
  end.

Definition Qnegative (q : Q) : bool := negb (Qle_bool 0 q).

(** [x * y] on floats *)
Definition float_mul (x y : pyfloat) : pyfloat :=
  match x, y with
  | Fin a, Fin b => float_round (Qmult a b)
  | Inf s, Fin b | Fin b, Inf s =>
      if Qeq_bool b 0 then Nan else Inf (xorb s (Qnegative b))
  | Inf s, Inf s' => Inf (xorb s s')
  | Nan, _ | _, Nan => Nan
  end.

(** [x / y] on floats *)
Definition float_truediv (x y : pyfloat) : result pyfloat :=
  match x, y with
  | _, Fin b =>
      if Qeq_bool b 0 then Raise ZeroDivisionError
      else Ok match x with
              | Fin a => float_round (Qdiv a b)
              | Inf s => Inf (xorb s (Qnegative b))
              | Nan => Nan
              end
  | Fin _, Inf _ => Ok (Fin 0)
  | Inf _, Inf _ => Ok Nan
  | Nan, _ | _, Nan => Ok Nan
  end.

(** The conversion of an integer operand to a float. *)
Definition float_of_int (z : Z) : result pyfloat :=
  match float_round (inject_Z z) with
  | Inf _ => Raise OverflowError
  | x => Ok x
  end.

(** [a / b] on integers: the quotient, correctly rounded. *)
Definition int_truediv (a b : Z) : result pyfloat :=
  if (b =? 0)%Z then Raise ZeroDivisionError
  else match float_round (Qdiv (inject_Z a) (inject_Z b)) with
       | Inf _ => Raise OverflowError
       | x => Ok x
       end.

(** [int(x)]: truncation toward zero. *)
Definition py_int (x : pyfloat) : result Z :=
  match x with
  | Fin q => Ok (if Qle_bool 0 q then Qfloor q else Qceiling q)
  | Inf _ => Raise OverflowError
  | Nan => Raise ValueError
  end.

(** [int(n * f)] for an integer [n] and a float [f] given by the value
    of its literal. *)
Definition int_mul (n : Z) (f : Q) : result Z :=
  x <- float_of_int n ;;
  py_int (float_mul x (float_round f)).

(** ** Python lists and numbers *)

(** [x in l] for integers *)
Definition py_in (x : Z) (l : list Z) : bool := existsb (Z.eqb x) l.

(** [l[i]] with Python's negative indices *)
Definition py_index {T : Type} (l : list T) (i : Z) : result T :=
  let j := if (i <? 0)%Z then (i + Z.of_nat (length l))%Z else i in
  if (j <? 0)%Z then Raise IndexError
  else match nth_error l (Z.to_nat j) with
       | Some v => Ok v
       | None => Raise IndexError
       end.

(** [l[:n]] *)
Definition py_slice_to {T : Type} (l : list T) (n : Z) : list T :=
  let j := if (n <? 0)%Z then (n + Z.of_nat (length l))%Z else n in
  firstn (Z.to_nat j) l.

(** [l[:-1]] *)
Definition py_init {T : Type} (l : list T) : list T := py_slice_to l (-1).

(** [max(l)] *)
Definition py_max (l : list Z) : result Z :=
  match l with
  | [] => Raise ValueError
  | a :: l' => Ok (fold_left Z.max l' a)
  end.

Definition sum_nat (l : list nat) : nat := fold_right Nat.add 0 l.

(** [torch.linspace(0, stop, steps)], as exact rationals. *)
Definition linspace0 (stop : Q) (steps : nat) : list Q :=
  map (fun i => if steps =? 1 then 0%Q
                else Qdiv (Qmult stop (inject_Z (Z.of_nat i)))
                          (inject_Z (Z.of_nat (steps - 1))))
      (seq 0 steps).

(** ** timm.models._features *)

Module _features.

(** The [indices] argument: an integer [n] (the last [n] features) or a
    sequence of indices; [None] is every feature. *)
Inductive indices_t : Type :=
| LastN (n : Z)
| Select (l : list Z).

(** Modelled from the spec: [feature_take_indices] of [timm.models._features]
    is not part of the sources.  A selection is an explicit index list,
    the last N, or all; negative indices count from the end; an index out
    of range is refused; the result is the list of indices taken and the
    largest of them. *)
Definition feature_take_indices (num_features : nat) (indices : option indices_t)
  : result (list Z * Z) :=
  let n := Z.of_nat num_features in
  let indices := match indices with
                 | None => LastN n
                 | Some i => i
                 end in
  take_indices <-
    match indices with
    | LastN k =>
        _ <- py_assert ((0 <? k)%Z && (k <=? n)%Z) ;;
        Ok (map (fun i => (n - k + Z.of_nat i)%Z) (seq 0 (Z.to_nat k)))
    | Select l =>
        (fix go (l : list Z) : result (list Z) :=
           match l with
           | [] => Ok []
           | i :: l' =>
               let idx := if (i <? 0)%Z then (n + i)%Z else i in
               _ <- py_assert ((0 <=? idx)%Z && (idx <? n)%Z) ;;
               rest <- go l' ;;
               Ok (idx :: rest)
           end) l
    end ;;
  m <- py_max take_indices ;;
  Ok (take_indices, m).

End _features.

(** ** hieradet_sam2.py *)

Module hieradet_sam2.

Section Functions.

Context {A : Type} {SA : Scalar A}.

(** [do_pool(x, pool, norm=None)] *)
Definition do_pool (x : tensor A) (pool : option MaxPool2d.t)
  (norm : option (TokenLayer.t (A := A))) : result (tensor A) :=
  match pool with
  | None => Ok x
  | Some p =>
      x <- permute x [0; 3; 1; 2] ;;
      x <- MaxPool2d.forward p x ;;
      x <- permute x [0; 2; 3; 1] ;;
      match norm with
      | Some n => TokenLayer.forward n x
      | None => Ok x
      end
  end.

(** [window_partition(x, window_size)] *)
Definition window_partition (x : tensor A) (window_size : nat)
  : result (tensor A * (nat * nat)) :=
  match shape x with
  | [B; H; W; C] =>
      hm <- py_mod H window_size ;;
      pad_h <- py_mod (window_size - hm) window_size ;;
      wm <- py_mod W window_size ;;
      pad_w <- py_mod (window_size - wm) window_size ;;
      x <- F_pad x [0; 0; 0; pad_w; 0; pad_h] ;;
      let Hp := H + pad_h in
      let Wp := W + pad_w in
      nh <- py_floordiv Hp window_size ;;
      nw <- py_floordiv Wp window_size ;;
      x <- view x [D B; D nh; D window_size; D nw; D window_size; D C] ;;
      x <- permute x [0; 1; 3; 2; 4; 5] ;;
      windows <- view (contiguous x) [Infer; D window_size; D window_size; D C] ;;
      Ok (windows, (Hp, Wp))
  | _ => Raise ValueError
  end.

(** [window_unpartition(windows, window_size, pad_hw, hw)] *)
Definition window_unpartition (windows : tensor A) (window_size : nat)
  (pad_hw hw : nat * nat) : result (tensor A) :=
  let '(Hp, Wp) := pad_hw in
  let '(H, W) := hw in
  match shape windows with
  | n0 :: _ =>
      a <- py_floordiv (Hp * Wp) window_size ;;
      a <- py_floordiv a window_size ;;
      B <- py_floordiv n0 a ;;
      nh <- py_floordiv Hp window_size ;;
      nw <- py_floordiv Wp window_size ;;
      x <- view windows [D B; D nh; D nw; D window_size; D window_size; Infer] ;;
      x <- permute x [0; 1; 3; 2; 4; 5] ;;
      x <- view (contiguous x) [D B; D Hp; D Wp; Infer] ;;
      x <- slice_to x [None; Some H; Some W; None] ;;
      Ok (contiguous x)
  | [] => Raise IndexError
  end.

End Functions.

Module MultiScaleAttention.
Section MultiScaleAttention.
Context {A : Type} {SA : Scalar A}.

(** [num_heads] is kept as the integer it was given: the constructor
    does not read its sign. *)
Record t : Type := {
  dim : nat;
  dim_out : nat;
  num_heads : Z;
  q_pool : option MaxPool2d.t;
  qkv : Linear.t (A := A);
  proj : Linear.t (A := A)
}.

(** The learned tensors of the two projections. *)
Record params : Type := {
  qkv_weight : nat -> nat -> A;
  qkv_bias : nat -> A;
  proj_weight : nat -> nat -> A;
  proj_bias : nat -> A
}.

(** [dim_out] and [num_heads] are integers the caller computes with
    [int(..)]: they can be negative.  A negative power of a negative
    [head_dim] is a complex number, not an error; the layers of a
    negative size are refused. *)
Definition __init__ (dim : nat) (dim_out num_heads : Z) (q_pool : option MaxPool2d.t)
  (w : params) : result t :=
  head_dim <- int_floordiv dim_out num_heads ;;
  (* head_dim ** -0.5 *)
  _ <- (if (head_dim =? 0)%Z then Raise ZeroDivisionError else Ok tt) ;;
  (* nn.Linear(dim, dim_out * 3) *)
  dim_out <- size_of_int dim_out ;;
  Ok {| dim := dim;
        dim_out := dim_out;
        num_heads := num_heads;
        q_pool := q_pool;
        qkv := {| Linear.in_features := dim; Linear.out_features := dim_out * 3;
                  Linear.weight := qkv_weight w; Linear.bias := qkv_bias w |};
        proj := {| Linear.in_features := dim_out; Linear.out_features := dim_out;
                   Linear.weight := proj_weight w; Linear.bias := proj_bias w |} |}.

(** The first half of [forward]: the query, key and value tensors of
    shape [(B, tokens, heads, C)] handed to the attention, with the
    spatial size of the queries. *)
Definition project_qkv (m : t) (x : tensor A)
  : result (tensor A * tensor A * tensor A * (nat * nat * nat)) :=
  match shape x with
  | [B; H; W; _] =>
      y <- Linear.forward (qkv m) x ;;
      nh <- size_of_int (num_heads m) ;;
      y <- view y [D B; D (H * W); D 3; D nh; Infer] ;;
      l <- unbind y 2 ;;
      match l with
      | [q; k; v] =>
          match q_pool m with
          | Some p =>
              q <- view q [D B; D H; D W; Infer] ;;
              q <- do_pool q (Some p) None ;;
              match shape q with
              | _ :: H' :: W' :: _ =>
                  q <- view q [D B; D (H' * W'); D nh; Infer] ;;
                  Ok (q, k, v, (B, H', W'))
              | _ => Raise ValueError
              end
          | None => Ok (q, k, v, (B, H, W))
          end
      | _ => Raise ValueError
      end
  | _ => Raise ValueError
  end.

Definition forward (m : t) (x : tensor A) : result (tensor A) :=
  '(q, k, v, (B, H, W)) <- project_qkv m x ;;
  q <- transpose q 1 2 ;;
  k <- transpose k 1 2 ;;
  v <- transpose v 1 2 ;;
  x <- scaled_dot_product_attention q k v ;;
  x <- transpose x 1 2 ;;
  x <- view x [D B; D H; D W; Infer] ;;
  Linear.forward (proj m) x.

End MultiScaleAttention.
End MultiScaleAttention.

Module MultiScaleBlock.
Section MultiScaleBlock.
Context {A : Type} {SA : Scalar A}.

Record t : Type := {
  window_size : nat;
  dim : nat;
  dim_out : nat;
  norm1 : TokenLayer.t (A := A);
  pool : option MaxPool2d.t;
  q_stride : option (nat * nat);
  attn : MultiScaleAttention.t (A := A);
  drop_path : DropPath.t (A := A);
  norm2 : TokenLayer.t (A := A);
  mlp : TokenLayer.t (A := A);
  (** the attribute [proj] exists only when [dim != dim_out] *)
  proj : option (Linear.t (A := A))
}.

(** What the constructor does not compute: the normalisation and MLP the
    layer factories return, the random keep mask, the learned tensors. *)
Record params : Type := {
  norm1_fn : list A -> nat -> A;
  norm2_fn : list A -> nat -> A;
  mlp_fn : list A -> nat -> A;
  drop_fn : nat -> A -> A;
  attn_params : MultiScaleAttention.params (A := A);
  proj_weight : nat -> nat -> A;
  proj_bias : nat -> A
}.

Definition __init__ (dim : nat) (dim_out num_heads : Z) (drop_path : Q)
  (q_stride : option (nat * nat)) (window_size : nat) (w : params) : result t :=
  let pool := match q_stride with
              | Some s => Some {| MaxPool2d.kernel_size := s; MaxPool2d.stride := s |}
              | None => None
              end in
  attn <- MultiScaleAttention.__init__ dim dim_out num_heads pool (attn_params w) ;;
  (* norm_layer(dim_out), Mlp(dim_out, ..) *)
  dim_out <- size_of_int dim_out ;;
  Ok {| window_size := window_size;
        dim := dim;
        dim_out := dim_out;
        norm1 := {| TokenLayer.features := dim; TokenLayer.features_out := dim;
                    TokenLayer.token_fn := norm1_fn w |};
        pool := pool;
        q_stride := q_stride;
        attn := attn;
        drop_path := if Qlt_le_dec 0 drop_path
                     then {| DropPath.sample_fn := drop_fn w |}
                     else {| DropPath.sample_fn := fun _ v => v |};
        norm2 := {| TokenLayer.features := dim_out; TokenLayer.features_out := dim_out;
                    TokenLayer.token_fn := norm2_fn w |};
        mlp := {| TokenLayer.features := dim_out; TokenLayer.features_out := dim_out;
                  TokenLayer.token_fn := mlp_fn w |};
        proj := if dim =? dim_out then None
                else Some {| Linear.in_features := dim; Linear.out_features := dim_out;
                             Linear.weight := proj_weight w;
                             Linear.bias := proj_bias w |} |}.

(** [t.shape[1:3]] *)
Definition shape_1_3 (x : tensor A) : list nat := firstn 2 (skipn 1 (shape x)).

Definition unpack2 (l : list nat) : result (nat * nat) :=
  match l with
  | [a; b] => Ok (a, b)
  | _ => Raise ValueError
  end.

Definition getitem (l : list nat) (i : nat) : result nat :=
  match nth_error l i with
  | Some v => Ok v
  | None => Raise IndexError
  end.

(** [# Skip connection]: the new value of [shortcut], from its old
    value (the block input) and the normalised [x]. *)
Definition skip_connection (blk : t) (shortcut x : tensor A) : result (tensor A) :=
  if dim blk =? dim_out blk then Ok shortcut
  else match proj blk with
       | Some p => y <- Linear.forward p x ;; do_pool y (pool blk) None
       | None => Raise AttributeError
       end.

(** From [# Window partition] to [# Reverse window partition]: the
    attention branch on the normalised [x]. *)
Definition windowed_attention (blk : t) (shortcut x : tensor A) : result (tensor A) :=
  let window_size := window_size blk in
  let feat_size := shape_1_3 x in
  let pad_hw := (0, 0) in
  '(x, pad_hw) <- (if 0 <? window_size then window_partition x window_size
                   else Ok (x, pad_hw)) ;;
  x <- MultiScaleAttention.forward (attn blk) x ;;
  '(window_size, feat_size, pad_hw) <-
    match q_stride blk with
    | Some (s0, _) =>
        window_size <- py_floordiv (MultiScaleBlock.window_size blk) s0 ;;
        let feat_size := shape_1_3 shortcut in
        f0 <- getitem feat_size 0 ;;
        m0 <- py_mod f0 window_size ;;
        pad_h <- py_mod (window_size - m0) window_size ;;
        f1 <- getitem feat_size 1 ;;
        m1 <- py_mod f1 window_size ;;
        pad_w <- py_mod (window_size - m1) window_size ;;
        Ok (window_size, feat_size, (f0 + pad_h, f1 + pad_w))
    | None => Ok (window_size, feat_size, pad_hw)
    end ;;
  if 0 <? MultiScaleBlock.window_size blk then
    hw <- unpack2 feat_size ;;
    window_unpartition x window_size pad_hw hw
  else Ok x.

Definition forward (blk : t) (x : tensor A) : result (tensor A) :=
  let shortcut := x in
  x <- TokenLayer.forward (norm1 blk) x ;;
  shortcut <- skip_connection blk shortcut x ;;
  x <- windowed_attention blk shortcut x ;;
  x <- tensor_add shortcut (DropPath.forward (drop_path blk) x) ;;
  y <- TokenLayer.forward (norm2 blk) x ;;
  y <- TokenLayer.forward (mlp blk) y ;;
  tensor_add x (DropPath.forward (drop_path blk) y).

End MultiScaleBlock.
End MultiScaleBlock.

Module HieraPatchEmbed.
Section HieraPatchEmbed.
Context {A : Type} {SA : Scalar A}.

Record t : Type := {
  proj : Conv2d.t (A := A)
}.

Definition forward (m : t) (x : tensor A) : result (tensor A) :=
  x <- Conv2d.forward (proj m) x ;;
  (* B C H W -> B H W C *)
  permute x [0; 2; 3; 1].

End HieraPatchEmbed.
End HieraPatchEmbed.

Module HieraDet.
Section HieraDet.
Context {A : Type} {SA : Scalar A}.

(** The constructor arguments that shape the model.  The floats
    [dim_mul], [head_mul] and [drop_path_rate] are given by the value of
    their literal. *)
Record args : Type := {
  in_chans : nat;
  embed_dim : nat;
  num_heads : nat;
  patch_kernel : nat * nat;
  patch_stride : nat * nat;
  patch_padding : nat * nat;
  patch_size : option (nat * nat);
  q_pool : Z;
  q_stride : nat * nat;
  stages : list nat;
  dim_mul : Q;
  head_mul : Q;
  global_pos_size : nat * nat;
  window_spec : list nat;
  global_att_blocks : option (list Z);
  drop_path_rate : Q
}.

(** An entry of [feature_info]; [module] is the block index [k] of
    ['blocks.k']. *)
Record FeatureInfo : Type := {
  num_chs : nat;
  reduction : nat;
  module : Z
}.

Inductive patch_embed_t : Type :=
| PatchEmbed (f : tensor A -> result (tensor A))
| HieraPatchEmbed (m : HieraPatchEmbed.t (A := A)).

Record t : Type := {
  self_window_spec : list nat;
  self_q_stride : nat * nat;
  stage_ends : list Z;
  q_pool_blocks : list Z;
  patch_embed : patch_embed_t;
  self_global_att_blocks : option (list Z);
  self_global_pos_size : nat * nat;
  pos_embed : tensor A;
  pos_embed_window : tensor A;
  blocks : list (MultiScaleBlock.t (A := A));
  feature_info : list FeatureInfo;
  channel_list : list nat;
  num_features : nat;
  head : tensor A -> bool -> result (tensor A)
}.

(** What the constructor does not compute: the learned tensors, and the
    layers of [timm.layers] that are not part of the sources (the
    ViT-style [PatchEmbed], the classifier head). *)
Record params : Type := {
  block_params : nat -> MultiScaleBlock.params (A := A);
  patch_weight : nat -> nat -> nat -> nat -> A;
  patch_bias : nat -> A;
  timm_patch_embed : tensor A -> result (tensor A);
  pos_embed_fn : list nat -> A;
  pos_embed_window_fn : list nat -> A;
  head_fn : tensor A -> bool -> result (tensor A)
}.

(** The variables the block loop of the constructor updates. *)
Record loop_state : Type := {
  st_embed_dim : nat;
  st_num_heads : Z;
  st_cur_stage : nat;
  st_blocks : list (MultiScaleBlock.t (A := A));
  st_feature_info : list FeatureInfo
}.

(** One iteration of [for i in range(depth)]. *)
Definition loop_body (a : args) (w : params) (stage_ends q_pool_blocks : list Z)
  (dpr : list Q) (st : loop_state) (i : nat) : result loop_state :=
  let embed_dim := st_embed_dim st in
  let num_heads := st_num_heads st in
  let cur_stage := st_cur_stage st in
  let dim_out := Z.of_nat embed_dim in
  (* lags by a block *)
  window_size <- py_index (window_spec a) (Z.of_nat cur_stage) ;;
  let window_size :=
    match global_att_blocks a with
    | Some g => if py_in (Z.of_nat i) g then 0 else window_size
    | None => window_size
    end in
  '(dim_out, num_heads, cur_stage) <-
    (if py_in (Z.of_nat i - 1) stage_ends then
       dim_out <- int_mul (Z.of_nat embed_dim) (dim_mul a) ;;
       num_heads <- int_mul num_heads (head_mul a) ;;
       Ok (dim_out, num_heads, cur_stage + 1)
     else Ok (dim_out, num_heads, cur_stage)) ;;
  dp <- py_index dpr (Z.of_nat i) ;;
  block <- MultiScaleBlock.__init__ embed_dim dim_out num_heads dp
             (if py_in (Z.of_nat i) q_pool_blocks then Some (q_stride a) else None)
             window_size (block_params w i) ;;
  (* the block is built: [dim_out] is a size *)
  let dim_out := MultiScaleBlock.dim_out block in
  let embed_dim := dim_out in
  feature_info <-
    (if py_in (Z.of_nat i) stage_ends then
       e <- py_index stage_ends (Z.of_nat cur_stage) ;;
       Ok (st_feature_info st ++
           [{| num_chs := dim_out; reduction := 2 ^ (cur_stage + 2); module := e |}])
     else Ok (st_feature_info st)) ;;
  Ok {| st_embed_dim := embed_dim;
        st_num_heads := num_heads;
        st_cur_stage := cur_stage;
        st_blocks := st_blocks st ++ [block];
        st_feature_info := feature_info |}.

Fixpoint loop (a : args) (w : params) (stage_ends q_pool_blocks : list Z)
  (dpr : list Q) (range : list nat) (st : loop_state) : result loop_state :=
  match range with
  | [] => Ok st
  | i :: range' =>
      st <- loop_body a w stage_ends q_pool_blocks dpr st i ;;
      loop a w stage_ends q_pool_blocks dpr range' st
  end.

Fixpoint mapM {T U : Type} (f : T -> result U) (l : list T) : result (list U) :=
  match l with
  | [] => Ok []
  | x :: l' => y <- f x ;; ys <- mapM f l' ;; Ok (y :: ys)
  end.

Definition compute_stage_ends (stages : list nat) : list Z :=
  map (fun i => (Z.of_nat (sum_nat (firstn i stages)) - 1)%Z) (seq 1 (length stages)).

Definition __init__ (a : args) (w : params) : result t :=
  _ <- py_assert (length (stages a) =? length (window_spec a)) ;;
  let depth := sum_nat (stages a) in
  let stage_ends := compute_stage_ends (stages a) in
  _ <- py_assert ((0 <=? q_pool a)%Z &&
                  (q_pool a <=? Z.of_nat (length (py_init stage_ends)))%Z) ;;
  let q_pool_blocks :=
    py_slice_to (map (fun x => (x + 1)%Z) (py_init stage_ends)) (q_pool a) in
  let patch_embed :=
    match patch_size a with
    | Some _ => PatchEmbed (timm_patch_embed w)
    | None =>
        HieraPatchEmbed
          {| HieraPatchEmbed.proj :=
               {| Conv2d.in_channels := in_chans a;
                  Conv2d.out_channels := embed_dim a;
                  Conv2d.kernel_size := patch_kernel a;
                  Conv2d.stride := patch_stride a;
                  Conv2d.padding := patch_padding a;
                  Conv2d.groups := 1;
                  Conv2d.weight := patch_weight w;
                  Conv2d.bias := patch_bias w |} |}
    end in
  let pos_embed :=
    init [1; embed_dim a; fst (global_pos_size a); snd (global_pos_size a)]
         (pos_embed_fn w) in
  ws0 <- py_index (window_spec a) 0 ;;
  let pos_embed_window := init [1; embed_dim a; ws0; ws0] (pos_embed_window_fn w) in
  let dpr := linspace0 (drop_path_rate a) depth in
  st <- loop a w stage_ends q_pool_blocks dpr (seq 0 depth)
          {| st_embed_dim := embed_dim a;
             st_num_heads := Z.of_nat (num_heads a);
             st_cur_stage := 0;
             st_blocks := [];
             st_feature_info := [] |} ;;
  channel_list <- mapM (fun i => b <- py_index (st_blocks st) i ;;
                                 Ok (MultiScaleBlock.dim_out b))
                       (rev stage_ends) ;;
  Ok {| self_window_spec := window_spec a;
        self_q_stride := q_stride a;
        stage_ends := stage_ends;
        q_pool_blocks := q_pool_blocks;
        patch_embed := patch_embed;
        self_global_att_blocks := global_att_blocks a;
        self_global_pos_size := global_pos_size a;
        pos_embed := pos_embed;
        pos_embed_window := pos_embed_window;
        blocks := st_blocks st;
        feature_info := st_feature_info st;
        channel_list := channel_list;
        num_features := st_embed_dim st;
        head := head_fn w |}.

(** [F.interpolate(t, size=(h, w), mode='bicubic')] on [(N, C, H, W)]:
    the resampled values are given by [bicubic], left open. *)
Variable bicubic : tensor A -> nat * nat -> list nat -> A.

Definition F_interpolate (t : tensor A) (size : nat * nat) : result (tensor A) :=
  match shape t with
  | [N; C; Hi; Wi] =>
      if (0 <? Hi) && (0 <? Wi) && (0 <? fst size) && (0 <? snd size) then
        Ok (init [N; C; fst size; snd size] (bicubic t size))
      else Raise RuntimeError
  | _ => Raise RuntimeError
  end.

(** [t.tile((th, tw))] on [(N, C, H, W)] *)
Definition tile (t : tensor A) (reps : nat * nat) : result (tensor A) :=
  match shape t with
  | [N; C; Hi; Wi] =>
      Ok (init [N; C; Hi * fst reps; Wi * snd reps]
            (fun idx => get t [nth 0 idx 0; nth 1 idx 0;
                               nth 2 idx 0 mod Hi; nth 3 idx 0 mod Wi]))
  | _ => Raise RuntimeError
  end.

Definition _pos_embed (self : t) (x : tensor A) : result (tensor A) :=
  '(h, w) <- MultiScaleBlock.unpack2 (MultiScaleBlock.shape_1_3 x) ;;
  let window_embed := pos_embed_window self in
  pos_embed <- F_interpolate (pos_embed self) (h, w) ;;
  p2 <- py_index (shape pos_embed) (-2) ;;
  w2 <- py_index (shape window_embed) (-2) ;;
  tile_h <- py_floordiv p2 w2 ;;
  p1 <- py_index (shape pos_embed) (-1) ;;
  w1 <- py_index (shape window_embed) (-1) ;;
  tile_w <- py_floordiv p1 w1 ;;
  tiled <- tile window_embed (tile_h, tile_w) ;;
  pos_embed <- tensor_add pos_embed tiled ;;
  pos_embed <- permute pos_embed [0; 2; 3; 1] ;;
  tensor_add x pos_embed.

Definition patch_embed_forward (pe : patch_embed_t) (x : tensor A) : result (tensor A) :=
  match pe with
  | PatchEmbed f => f x
  | HieraPatchEmbed m => HieraPatchEmbed.forward m x
  end.

(** [for i, blk in enumerate(blocks)] of [forward_intermediates]; the
    list of the indices of the blocks called is kept along. *)
Fixpoint run_blocks (blocks : list (nat * MultiScaleBlock.t (A := A)))
  (take_indices : list Z) (nchw : bool)
  (x : tensor A) (intermediates : list (tensor A)) (calls : list nat)
  : result (tensor A * list (tensor A) * list nat) :=
  match blocks with
  | [] => Ok (x, intermediates, calls)
  | (i, blk) :: rest =>
      x <- MultiScaleBlock.forward blk x ;;
      intermediates <-
        (if py_in (Z.of_nat i) take_indices then
           x_out <- (if nchw then permute x [0; 3; 1; 2] else Ok x) ;;
           Ok (intermediates ++ [x_out])
         else Ok intermediates) ;;
      run_blocks rest take_indices nchw x intermediates (calls ++ [i])
  end.

Definition enumerate {T : Type} (l : list T) : list (nat * T) :=
  combine (seq 0 (length l)) l.

(** [if coarse: .. else: ..] of [forward_intermediates] and of
    [prune_intermediate_layers]: the indices of the blocks whose output
    is taken, and the largest index requested. *)
Definition take_indices (self : t) (indices : option _features.indices_t) (coarse : bool)
  : result (list Z * Z) :=
  if coarse then
    '(take_indices, max_index) <-
       _features.feature_take_indices (length (stage_ends self)) indices ;;
    take_indices <- mapM (py_index (stage_ends self)) take_indices ;;
    max_index <- py_index (stage_ends self) max_index ;;
    Ok (take_indices, max_index)
  else _features.feature_take_indices (length (blocks self)) indices.

(** [forward_intermediates]; [stop_early] is [True] unless the caller
    passes it, [scripting] is [torch.jit.is_scripting()].  The result
    carries the final [x] (dropped by the caller when
    [intermediates_only]), the intermediates, and the blocks called. *)
Definition forward_intermediates (self : t) (x : tensor A)
  (indices : option _features.indices_t) (norm stop_early : bool)
  (output_fmt : string) (intermediates_only coarse : bool) (scripting : bool)
  : result (tensor A * list (tensor A) * list nat) :=
  _ <- py_assert (negb norm) ;;
  _ <- py_assert (String.eqb output_fmt "NCHW" || String.eqb output_fmt "NHWC") ;;
  '(take_indices, max_index) <- take_indices self indices coarse ;;
  x <- patch_embed_forward (patch_embed self) x ;;
  x <- _pos_embed self x ;;
  let blocks :=
    if scripting || negb stop_early then blocks self
    else py_slice_to (blocks self) (max_index + 1) in
  run_blocks (enumerate blocks) take_indices (String.eqb output_fmt "NCHW") x [] [].

Definition forward_features (self : t) (x : tensor A) : result (tensor A) :=
  x <- patch_embed_forward (patch_embed self) x ;;
  x <- _pos_embed self x ;;
  fold_left (fun acc blk => x <- acc ;; MultiScaleBlock.forward blk x)
            (blocks self) (Ok x).

Definition forward_head (self : t) (x : tensor A) (pre_logits : bool)
  : result (tensor A) :=
  head self x pre_logits.

Definition forward (self : t) (x : tensor A) : result (tensor A) :=
  x <- forward_features self x ;;
  forward_head self x false.

End HieraDet.

(** The registered variants. *)
Definition default_args : args := {|
  in_chans := 3;
  embed_dim := 96;
  num_heads := 1;
  patch_kernel := (7, 7);
  patch_stride := (4, 4);
  patch_padding := (3, 3);
  patch_size := None;
  q_pool := 3;
  q_stride := (2, 2);
  stages := [2; 3; 16; 3];
  dim_mul := 2;
  head_mul := 2;
  global_pos_size := (7, 7);
  window_spec := [8; 4; 14; 7];
  global_att_blocks := Some [12; 16; 20]%Z;
  drop_path_rate := 0
|}.

Definition with_model_args (a : args) (embed_dim num_heads : nat) (stages : list nat)
  (global_att_blocks : list Z) (window_spec : list nat) (global_pos_size : nat * nat)
  : args := {|
  in_chans := in_chans a;
  embed_dim := embed_dim;
  num_heads := num_heads;
  patch_kernel := patch_kernel a;
  patch_stride := patch_stride a;
  patch_padding := patch_padding a;
  patch_size := patch_size a;
  q_pool := q_pool a;
  q_stride := q_stride a;
  stages := stages;
  dim_mul := dim_mul a;
  head_mul := head_mul a;
  global_pos_size := global_pos_size;
  window_spec := window_spec;
  global_att_blocks := Some global_att_blocks;
  drop_path_rate := drop_path_rate a
|}.

Definition sam2_hiera_tiny : args :=
  with_model_args default_args 96 1 [1; 2; 7; 2] [5; 7; 9]%Z [8; 4; 14; 7] (7, 7).

Definition sam2_hiera_small : args :=
  with_model_args default_args 96 1 [1; 2; 11; 2] [7; 10; 13]%Z [8; 4; 14; 7] (7, 7).

Definition sam2_hiera_base_plus : args :=
  with_model_args default_args 112 2 [2; 3; 16; 3] [12; 16; 20]%Z [8; 4; 14; 7] (14, 14).

Definition sam2_hiera_large : args :=
  with_model_args default_args 144 2 [2; 6; 36; 4] [23; 33; 43]%Z [8; 4; 16; 8] (7, 7).

End HieraDet.

End hieradet_sam2.

(** ** davit.py *)

Module davit.

Section Functions.
Context {A : Type} {SA : Scalar A}.

(** [t.flatten(2)] *)
Definition flatten2 (t : tensor A) : result (tensor A) :=
  if 2 <? length (shape t) then
    Ok (mkTensor (firstn 2 (shape t) ++ [numel (skipn 2 (shape t))]) (data t))
  else Raise IndexError.

(** An elementwise function, as an activation applies it. *)
Definition tensor_map (f : A -> A) (t : tensor A) : tensor A :=
  mkTensor (shape t) (map f (data t)).

(** [window_partition(x, window_size)] *)
Definition window_partition (x : tensor A) (window_size : nat) : result (tensor A) :=
  match shape x with
  | [B; H; W; C] =>
      nh <- py_floordiv H window_size ;;
      nw <- py_floordiv W window_size ;;
      x <- view x [D B; D nh; D window_size; D nw; D window_size; D C] ;;
      x <- permute x [0; 1; 3; 2; 4; 5] ;;
      view (contiguous x) [Infer; D window_size; D window_size; D C]
  | _ => Raise ValueError
  end.

(** [window_reverse(windows, window_size, H, W)]: the batch size is
    computed with float divisions. *)
Definition window_reverse (windows : tensor A) (window_size H W : nat)
  : result (tensor A) :=
  match shape windows with
  | n0 :: _ =>
      (* B = int(windows.shape[0] / (H * W / window_size / window_size)) *)
      a <- int_truediv (Z.of_nat (H * W)) (Z.of_nat window_size) ;;
      ws <- float_of_int (Z.of_nat window_size) ;;
      a <- float_truediv a ws ;;
      n <- float_of_int (Z.of_nat n0) ;;
      b <- float_truediv n a ;;
      B <- py_int b ;;
      B <- size_of_int B ;;
      nh <- py_floordiv H window_size ;;
      nw <- py_floordiv W window_size ;;
      x <- view windows [D B; D nh; D nw; D window_size; D window_size; Infer] ;;
      x <- permute x [0; 1; 3; 2; 4; 5] ;;
      view (contiguous x) [D B; D H; D W; Infer]
  | [] => Raise IndexError
  end.

End Functions.

Module ConvPosEnc.
Section ConvPosEnc.
Context {A : Type} {SA : Scalar A}.

Inductive norm_t : Type :=
| Identity
| BatchNorm2d (f : tensor A -> tensor A)
| LayerNorm (l : TokenLayer.t (A := A)).

Record t : Type := {
  proj : Conv2d.t (A := A);
  normtype : string;
  norm : norm_t;
  activation : A -> A
}.

(** The learned depthwise kernel, and what the layer classes compute:
    the batch normalisation (shape preserving), the layer normalisation,
    the GELU. *)
Record params : Type := {
  proj_weight : nat -> nat -> nat -> nat -> A;
  proj_bias : nat -> A;
  batch_norm_fn : list nat -> A -> A;
  layer_norm_fn : list A -> nat -> A;
  gelu : A -> A
}.

Definition __init__ (dim k : nat) (act : bool) (normtype : string) (w : params) : t :=
  {| proj := {| Conv2d.in_channels := dim;
                Conv2d.out_channels := dim;
                Conv2d.kernel_size := (k, k);
                Conv2d.stride := (1, 1);
                Conv2d.padding := (k / 2, k / 2);
                Conv2d.groups := dim;
                Conv2d.weight := proj_weight w;
                Conv2d.bias := proj_bias w |};
     normtype := normtype;
     norm := if String.eqb normtype "batch"
             then BatchNorm2d (fun x => init (shape x)
                                 (fun idx => batch_norm_fn w idx (get x idx)))
             else if String.eqb normtype "layer"
             then LayerNorm {| TokenLayer.features := dim;
                               TokenLayer.features_out := dim;
                               TokenLayer.token_fn := layer_norm_fn w |}
             else Identity;
     activation := if act then gelu w else fun v => v |}.

Definition apply_norm_2d (n : norm_t) (x : tensor A) : result (tensor A) :=
  match n with
  | Identity => Ok x
  | BatchNorm2d f => Ok (f x)
  | LayerNorm l => TokenLayer.forward l x
  end.

Definition forward (self : t) (x : tensor A) (size : nat * nat) : result (tensor A) :=
  match shape x with
  | [B; N; C] =>
      let '(H, W) := size in
      feat <- transpose x 1 2 ;;
      feat <- view feat [D B; D C; D H; D W] ;;
      feat <- Conv2d.forward (proj self) feat ;;
      feat <-
        (if String.eqb (normtype self) "batch" then
           feat <- apply_norm_2d (norm self) feat ;;
           feat <- flatten2 feat ;;
           transpose feat 1 2
         else if String.eqb (normtype self) "layer" then
           feat <- flatten2 feat ;;
           feat <- transpose feat 1 2 ;;
           apply_norm_2d (norm self) feat
         else
           feat <- flatten2 feat ;;
           transpose feat 1 2) ;;
      tensor_add x (tensor_map (activation self) feat)
  | _ => Raise ValueError
  end.

End ConvPosEnc.
End ConvPosEnc.

Module PatchEmbed.
Section PatchEmbed.
Context {A : Type} {SA : Scalar A}.

(** [proj] and [norm] are set only for a patch size of 4 or 2. *)
Record t : Type := {
  patch_size : nat * nat;
  proj : option (Conv2d.t (A := A));
  norm : option (TokenLayer.t (A := A))
}.

Record params : Type := {
  proj_weight : nat -> nat -> nat -> nat -> A;
  proj_bias : nat -> A;
  norm_fn : list A -> nat -> A
}.

(** [__init__(patch_size, in_chans, embed_dim, overlapped)], with
    [patch_size] already a pair ([to_2tuple]). *)
Definition __init__ (patch_size : nat * nat) (in_chans embed_dim : nat)
  (overlapped : bool) (w : params) : t :=
  let self := {| patch_size := patch_size; proj := None; norm := None |} in
  let self :=
    if fst patch_size =? 4 then
      {| patch_size := patch_size;
         proj := Some {| Conv2d.in_channels := in_chans;
                         Conv2d.out_channels := embed_dim;
                         Conv2d.kernel_size := (7, 7);
                         Conv2d.stride := patch_size;
                         Conv2d.padding := (3, 3);
                         Conv2d.groups := 1;
                         Conv2d.weight := proj_weight w;
                         Conv2d.bias := proj_bias w |};
         norm := Some {| TokenLayer.features := embed_dim;
                         TokenLayer.features_out := embed_dim;
                         TokenLayer.token_fn := norm_fn w |} |}
    else self in
  if fst patch_size =? 2 then
    let kernel := if overlapped then 3 else 2 in
    let pad := if overlapped then 1 else 0 in
    {| patch_size := patch_size;
       proj := Some {| Conv2d.in_channels := in_chans;
                       Conv2d.out_channels := embed_dim;
                       Conv2d.kernel_size := (kernel, kernel);
                       Conv2d.stride := patch_size;
                       Conv2d.padding := (pad, pad);
                       Conv2d.groups := 1;
                       Conv2d.weight := proj_weight w;
                       Conv2d.bias := proj_bias w |};
       norm := Some {| TokenLayer.features := in_chans;
                       TokenLayer.features_out := in_chans;
                       TokenLayer.token_fn := norm_fn w |} |}
  else self.

(** [self.attr] for an attribute the constructor may not have set *)
Definition getattr {T : Type} (o : option T) : result T :=
  match o with
  | Some v => Ok v
  | None => Raise AttributeError
  end.

Definition forward (self : t) (x : tensor A) (size : nat * nat)
  : result (tensor A * (nat * nat)) :=
  let '(H, W) := size in
  let dim := length (shape x) in
  x <- (if dim =? 3 then
          match shape x with
          | [B; HW; C] =>
              norm <- getattr (norm self) ;;
              x <- TokenLayer.forward norm x ;;
              x <- view x [D B; D H; D W; D C] ;;
              x <- permute x [0; 3; 1; 2] ;;
              Ok (contiguous x)
          | _ => Raise ValueError
          end
        else Ok x) ;;
  match shape x with
  | [B; C; H; W] =>
      wm <- py_mod W (snd (patch_size self)) ;;
      x <- (if negb (wm =? 0) then F_pad x [0; snd (patch_size self) - wm] else Ok x) ;;
      hm <- py_mod H (fst (patch_size self)) ;;
      x <- (if negb (hm =? 0) then F_pad x [0; 0; 0; fst (patch_size self) - hm]
            else Ok x) ;;
      proj <- getattr (proj self) ;;
      x <- Conv2d.forward proj x ;;
      match shape x with
      | [_; _; H2; W2] =>
          let newsize := (H2, W2) in
          x <- flatten2 x ;;
          x <- transpose x 1 2 ;;
          x <- (if dim =? 4 then
                  norm <- getattr (norm self) ;;
                  TokenLayer.forward norm x
                else Ok x) ;;
          Ok (x, newsize)
      | _ => Raise IndexError
      end
  | _ => Raise ValueError
  end.

End PatchEmbed.
End PatchEmbed.

Module ChannelAttention.
Section ChannelAttention.
Context {A : Type} {SA : Scalar A}.

Record t : Type := {
  num_heads : nat;
  scale : A;
  qkv : Linear.t (A := A);
  proj : Linear.t (A := A)
}.

Record params : Type := {
  qkv_weight : nat -> nat -> A;
  qkv_bias : nat -> A;
  proj_weight : nat -> nat -> A;
  proj_bias : nat -> A
}.

Definition __init__ (dim num_heads : nat) (qkv_bias_on : bool) (w : params) : result t :=
  head_dim <- py_floordiv dim num_heads ;;
  (* head_dim ** -0.5 *)
  _ <- (if head_dim =? 0 then Raise ZeroDivisionError else Ok tt) ;;
  Ok {| num_heads := num_heads;
        scale := rsqrt head_dim;
        qkv := {| Linear.in_features := dim; Linear.out_features := dim * 3;
                  Linear.weight := qkv_weight w;
                  Linear.bias := if qkv_bias_on then qkv_bias w else fun _ => zero |};
        proj := {| Linear.in_features := dim; Linear.out_features := dim;
                   Linear.weight := proj_weight w; Linear.bias := proj_bias w |} |}.

(** [forward] up to the concatenation of the heads, before the output
    projection. *)
Definition attend (self : t) (x : tensor A) : result (tensor A) :=
  match shape x with
  | [B; N; C] =>
      qkv <- Linear.forward (qkv self) x ;;
      hd <- py_floordiv C (num_heads self) ;;
      qkv <- view qkv [D B; D N; D 3; D (num_heads self); D hd] ;;
      qkv <- permute qkv [2; 0; 3; 1; 4] ;;
      q <- select qkv 0 0 ;;
      k <- select qkv 0 1 ;;
      v <- select qkv 0 2 ;;
      let k := tensor_scale k (scale self) in
      kt <- transpose k (-1) (-2) ;;
      attention <- matmul kt v ;;
      attention <- softmax_last attention ;;
      qt <- transpose q (-1) (-2) ;;
      x <- matmul attention qt ;;
      x <- transpose x (-1) (-2) ;;
      x <- transpose x 1 2 ;;
      view x [D B; D N; D C]
  | _ => Raise ValueError
  end.

Definition forward (self : t) (x : tensor A) : result (tensor A) :=
  x <- attend self x ;;
  Linear.forward (proj self) x.

End ChannelAttention.
End ChannelAttention.

Module WindowAttention.
Section WindowAttention.
Context {A : Type} {SA : Scalar A}.

Record t : Type := {
  dim : nat;
  window_size : nat * nat;
  num_heads : nat;
  scale : A;
  qkv : Linear.t (A := A);
  proj : Linear.t (A := A)
}.

Definition __init__ (dim : nat) (window_size : nat * nat) (num_heads : nat)
  (qkv_bias_on : bool) (w : ChannelAttention.params (A := A)) : result t :=
  head_dim <- py_floordiv dim num_heads ;;
  _ <- (if head_dim =? 0 then Raise ZeroDivisionError else Ok tt) ;;
  Ok {| dim := dim;
        window_size := window_size;
        num_heads := num_heads;
        scale := rsqrt head_dim;
        qkv := {| Linear.in_features := dim; Linear.out_features := dim * 3;
                  Linear.weight := ChannelAttention.qkv_weight w;
                  Linear.bias := if qkv_bias_on then ChannelAttention.qkv_bias w
                                 else fun _ => zero |};
        proj := {| Linear.in_features := dim; Linear.out_features := dim;
                   Linear.weight := ChannelAttention.proj_weight w;
                   Linear.bias := ChannelAttention.proj_bias w |} |}.

Definition forward (self : t) (x : tensor A) : result (tensor A) :=
  match shape x with
  | [B_; N; C] =>
      qkv <- Linear.forward (qkv self) x ;;
      hd <- py_floordiv C (num_heads self) ;;
      qkv <- view qkv [D B_; D N; D 3; D (num_heads self); D hd] ;;
      qkv <- permute qkv [2; 0; 3; 1; 4] ;;
      q <- select qkv 0 0 ;;
      k <- select qkv 0 1 ;;
      v <- select qkv 0 2 ;;
      let q := tensor_scale q (scale self) in
      kt <- transpose k (-2) (-1) ;;
      attn <- matmul q kt ;;
      attn <- softmax_last attn ;;
      x <- matmul attn v ;;
      x <- transpose x 1 2 ;;
      x <- view x [D B_; D N; D C] ;;
      Linear.forward (proj self) x
  | _ => Raise ValueError
  end.

End WindowAttention.
End WindowAttention.

(** What the constructor of a block does not compute. *)
Module BlockParams.
Section BlockParams.
Context {A : Type}.

Record t : Type := {
  cpe0 : ConvPosEnc.params (A := A);
  cpe1 : ConvPosEnc.params (A := A);
  norm1_fn : list A -> nat -> A;
  norm2_fn : list A -> nat -> A;
  mlp_fn : list A -> nat -> A;
  drop_fn : nat -> A -> A;
  attn : ChannelAttention.params (A := A)
}.

End BlockParams.
End BlockParams.

Module ChannelBlock.
Section ChannelBlock.
Context {A : Type} {SA : Scalar A}.

Record t : Type := {
  cpe : list (ConvPosEnc.t (A := A));
  ffn : bool;
  norm1 : TokenLayer.t (A := A);
  attn : ChannelAttention.t (A := A);
  drop_path : DropPath.t (A := A);
  norm2 : option (TokenLayer.t (A := A));
  mlp : option (TokenLayer.t (A := A))
}.

Definition __init__ (dim num_heads : nat) (qkv_bias : bool) (drop_path : Q)
  (ffn cpe_act : bool) (w : BlockParams.t (A := A)) : result t :=
  attn <- ChannelAttention.__init__ dim num_heads qkv_bias (BlockParams.attn w) ;;
  Ok {| cpe := [ConvPosEnc.__init__ dim 3 cpe_act "none" (BlockParams.cpe0 w);
                ConvPosEnc.__init__ dim 3 cpe_act "none" (BlockParams.cpe1 w)];
        ffn := ffn;
        norm1 := {| TokenLayer.features := dim; TokenLayer.features_out := dim;
                    TokenLayer.token_fn := BlockParams.norm1_fn w |};
        attn := attn;
        drop_path := if Qlt_le_dec 0 drop_path
                     then {| DropPath.sample_fn := BlockParams.drop_fn w |}
                     else {| DropPath.sample_fn := fun _ v => v |};
        norm2 := if ffn
                 then Some {| TokenLayer.features := dim; TokenLayer.features_out := dim;
                              TokenLayer.token_fn := BlockParams.norm2_fn w |}
                 else None;
        mlp := if ffn
               then Some {| TokenLayer.features := dim; TokenLayer.features_out := dim;
                            TokenLayer.token_fn := BlockParams.mlp_fn w |}
               else None |}.

Definition cpe_at (self : t) (i : nat) : result ConvPosEnc.t :=
  match nth_error (cpe self) i with
  | Some c => Ok c
  | None => Raise IndexError
  end.

Definition forward (self : t) (x : tensor A) (size : nat * nat)
  : result (tensor A * (nat * nat)) :=
  c0 <- cpe_at self 0 ;;
  x <- ConvPosEnc.forward c0 x size ;;
  cur <- TokenLayer.forward (norm1 self) x ;;
  cur <- ChannelAttention.forward (attn self) cur ;;
  x <- tensor_add x (DropPath.forward (drop_path self) cur) ;;
  c1 <- cpe_at self 1 ;;
  x <- ConvPosEnc.forward c1 x size ;;
  x <- (if ffn self then
          norm2 <- PatchEmbed.getattr (norm2 self) ;;
          mlp <- PatchEmbed.getattr (mlp self) ;;
          y <- TokenLayer.forward norm2 x ;;
          y <- TokenLayer.forward mlp y ;;
          tensor_add x (DropPath.forward (drop_path self) y)
        else Ok x) ;;
  Ok (x, size).

End ChannelBlock.
End ChannelBlock.

Module SpatialBlock.
Section SpatialBlock.
Context {A : Type} {SA : Scalar A}.

Record t : Type := {
  dim : nat;
  ffn : bool;
  num_heads : nat;
  window_size : nat;
  cpe : list (ConvPosEnc.t (A := A));
  norm1 : TokenLayer.t (A := A);
  attn : WindowAttention.t (A := A);
  drop_path : DropPath.t (A := A);
  norm2 : option (TokenLayer.t (A := A));
  mlp : option (TokenLayer.t (A := A))
}.

Definition __init__ (dim num_heads window_size : nat) (qkv_bias : bool) (drop_path : Q)
  (ffn cpe_act : bool) (w : BlockParams.t (A := A)) : result t :=
  attn <- WindowAttention.__init__ dim (window_size, window_size) num_heads qkv_bias
            (BlockParams.attn w) ;;
  Ok {| dim := dim;
        ffn := ffn;
        num_heads := num_heads;
        window_size := window_size;
        cpe := [ConvPosEnc.__init__ dim 3 cpe_act "none" (BlockParams.cpe0 w);
                ConvPosEnc.__init__ dim 3 cpe_act "none" (BlockParams.cpe1 w)];
        norm1 := {| TokenLayer.features := dim; TokenLayer.features_out := dim;
                    TokenLayer.token_fn := BlockParams.norm1_fn w |};
        attn := attn;
        drop_path := if Qlt_le_dec 0 drop_path
                     then {| DropPath.sample_fn := BlockParams.drop_fn w |}
                     else {| DropPath.sample_fn := fun _ v => v |};
        norm2 := if ffn
                 then Some {| TokenLayer.features := dim; TokenLayer.features_out := dim;
                              TokenLayer.token_fn := BlockParams.norm2_fn w |}
                 else None;
        mlp := if ffn
               then Some {| TokenLayer.features := dim; TokenLayer.features_out := dim;
                            TokenLayer.token_fn := BlockParams.mlp_fn w |}
               else None |}.

Definition cpe_at (self : t) (i : nat) : result ConvPosEnc.t :=
  match nth_error (cpe self) i with
  | Some c => Ok c
  | None => Raise IndexError
  end.

(** The windowing around the attention: from [x.view(B, H, W, C)] to the
    crop, with the attention [attn] on the windows. *)
Definition windowed (window_size : nat) (attn : tensor A -> result (tensor A))
  (x : tensor A) (B H W C : nat) : result (tensor A) :=
  x <- view x [D B; D H; D W; D C] ;;
  let pad_l := 0 in
  let pad_t := 0 in
  wm <- py_mod W window_size ;;
  pad_r <- py_mod (window_size - wm) window_size ;;
  hm <- py_mod H window_size ;;
  pad_b <- py_mod (window_size - hm) window_size ;;
  x <- F_pad x [0; 0; pad_l; pad_r; pad_t; pad_b] ;;
  match shape x with
  | [_; Hp; Wp; _] =>
      x_windows <- window_partition x window_size ;;
      x_windows <- view x_windows [Infer; D (window_size * window_size); D C] ;;
      (* W-MSA/SW-MSA *)
      attn_windows <- attn x_windows ;;
      (* merge windows *)
      attn_windows <- view attn_windows [Infer; D window_size; D window_size; D C] ;;
      x <- window_reverse attn_windows window_size Hp Wp ;;
      x <- slice_to x [None; Some H; Some W; None] ;;
      view (contiguous x) [D B; D (H * W); D C]
  | _ => Raise ValueError
  end.

Definition forward (self : t) (x : tensor A) (size : nat * nat)
  : result (tensor A * (nat * nat)) :=
  let '(H, W) := size in
  match shape x with
  | [B; L; C] =>
      c0 <- cpe_at self 0 ;;
      shortcut <- ConvPosEnc.forward c0 x size ;;
      x <- TokenLayer.forward (norm1 self) shortcut ;;
      x <- windowed (window_size self) (WindowAttention.forward (attn self)) x B H W C ;;
      x <- tensor_add shortcut (DropPath.forward (drop_path self) x) ;;
      c1 <- cpe_at self 1 ;;
      x <- ConvPosEnc.forward c1 x size ;;
      x <- (if ffn self then
              norm2 <- PatchEmbed.getattr (norm2 self) ;;
              mlp <- PatchEmbed.getattr (mlp self) ;;
              y <- TokenLayer.forward norm2 x ;;
              y <- TokenLayer.forward mlp y ;;
              tensor_add x (DropPath.forward (drop_path self) y)
            else Ok x) ;;
      Ok (x, size)
  | _ => Raise ValueError
  end.

End SpatialBlock.
End SpatialBlock.

Module DaViT.
Section DaViT.
Context {A : Type} {SA : Scalar A}.

(** The constructor arguments that shape the model. *)
Record args : Type := {
  in_chans : nat;
  depths : list nat;
  patch_size : nat * nat;
  embed_dims : list nat;
  num_heads : list nat;
  window_size : nat;
  qkv_bias : bool;
  drop_path_rate : Q;
  attention_types : list string;
  ffn : bool;
  overlapped_patch : bool;
  cpe_act : bool
}.

Inductive layer_t : Type :=
| Channel (b : ChannelBlock.t (A := A))
| Spatial (b : SpatialBlock.t (A := A)).

Record FeatureInfo : Type := {
  num_chs : nat;
  reduction : nat;
  module : nat
}.

(** A stage is a list of blocks, a block a list of layers, one per
    attention type; an unknown attention type leaves [None]. *)
Record t : Type := {
  architecture : list (list nat);
  self_embed_dims : list nat;
  self_num_heads : list nat;
  num_stages : nat;
  num_features : nat;
  grad_checkpointing : bool;
  feature_info : list FeatureInfo;
  patch_embeds : list (PatchEmbed.t (A := A));
  stages : list (list (list (option layer_t)));
  norms : TokenLayer.t (A := A);
  head : tensor A -> bool -> result (tensor A)
}.

Record params : Type := {
  patch_params : nat -> PatchEmbed.params (A := A);
  block_params : nat -> nat -> nat -> BlockParams.t (A := A);
  norms_fn : list A -> nat -> A;
  head_fn : tensor A -> bool -> result (tensor A)
}.

Definition nth_nat (l : list nat) (i : nat) : result nat :=
  match nth_error l i with
  | Some v => Ok v
  | None => Raise IndexError
  end.

Definition make_layer (a : args) (w : params) (dpr : list Q)
  (stage_id layer_id layer_offset_id item attention_id : nat) (attention_type : string)
  : result (option layer_t) :=
  if String.eqb attention_type "channel" then
    dim <- nth_nat (embed_dims a) item ;;
    heads <- nth_nat (num_heads a) item ;;
    dp <- py_index dpr (Z.of_nat (2 * (layer_id + layer_offset_id) + attention_id)) ;;
    b <- ChannelBlock.__init__ dim heads (qkv_bias a) dp (ffn a) (cpe_act a)
           (block_params w stage_id layer_id attention_id) ;;
    Ok (Some (Channel b))
  else if String.eqb attention_type "spatial" then
    dim <- nth_nat (embed_dims a) item ;;
    heads <- nth_nat (num_heads a) item ;;
    dp <- py_index dpr (Z.of_nat (2 * (layer_id + layer_offset_id) + attention_id)) ;;
    b <- SpatialBlock.__init__ dim heads (window_size a) (qkv_bias a) dp (ffn a)
           (cpe_act a) (block_params w stage_id layer_id attention_id) ;;
    Ok (Some (Spatial b))
  else Ok None.

Definition make_stage (a : args) (w : params) (dpr : list Q)
  (architecture : list (list nat)) (stage_id : nat) (stage_param : list nat)
  : result (list (list (option layer_t))) :=
  let layer_offset_id := length (concat (firstn stage_id architecture)) in
  hieradet_sam2.HieraDet.mapM
    (fun '(layer_id, item) =>
       hieradet_sam2.HieraDet.mapM
         (fun '(attention_id, attention_type) =>
            make_layer a w dpr stage_id layer_id layer_offset_id item
                       attention_id attention_type)
         (hieradet_sam2.HieraDet.enumerate (attention_types a)))
    (hieradet_sam2.HieraDet.enumerate stage_param).

(** [for stage_id, stage_param in enumerate(self.architecture)] *)
Fixpoint make_stages (a : args) (w : params) (dpr : list Q)
  (architecture : list (list nat)) (todo : list (nat * list nat))
  (stages : list (list (list (option layer_t)))) (feature_info : list FeatureInfo)
  : result (list (list (list (option layer_t))) * list FeatureInfo) :=
  match todo with
  | [] => Ok (stages, feature_info)
  | (stage_id, stage_param) :: rest =>
      stage <- make_stage a w dpr architecture stage_id stage_param ;;
      chs <- nth_nat (embed_dims a) stage_id ;;
      make_stages a w dpr architecture rest (stages ++ [stage])
        (feature_info ++ [{| num_chs := chs; reduction := 2; module := stage_id |}])
  end.

Definition __init__ (a : args) (w : params) : result t :=
  let architecture := map (fun '(index, item) => repeat index item)
                          (hieradet_sam2.HieraDet.enumerate (depths a)) in
  let num_stages := length (embed_dims a) in
  let chain := concat architecture in
  let dpr := linspace0 (drop_path_rate a) (2 * length chain) in
  (* assert num_stages == len(num_heads) == sorted(chain)[-1] + 1 *)
  _ <- py_assert (num_stages =? length (num_heads a)) ;;
  last_id <- match chain with
             | [] => Raise IndexError
             | i :: l => Ok (fold_left Nat.max l i)
             end ;;
  _ <- py_assert (length (num_heads a) =? last_id + 1) ;;
  num_features <- py_index (embed_dims a) (-1) ;;
  patch_embeds <-
    hieradet_sam2.HieraDet.mapM
      (fun i =>
         in_c <- (if i =? 0 then Ok (in_chans a) else nth_nat (embed_dims a) (i - 1)) ;;
         e <- nth_nat (embed_dims a) i ;;
         Ok (PatchEmbed.__init__ (if i =? 0 then patch_size a else (2, 2)) in_c e
               (overlapped_patch a) (patch_params w i)))
      (seq 0 num_stages) ;;
  '(stages, feature_info) <-
    make_stages a w dpr architecture (hieradet_sam2.HieraDet.enumerate architecture) [] [] ;;
  Ok {| architecture := architecture;
        self_embed_dims := embed_dims a;
        self_num_heads := num_heads a;
        num_stages := num_stages;
        num_features := num_features;
        grad_checkpointing := false;
        feature_info := feature_info;
        patch_embeds := patch_embeds;
        stages := stages;
        norms := {| TokenLayer.features := num_features;
                    TokenLayer.features_out := num_features;
                    TokenLayer.token_fn := norms_fn w |};
        head := head_fn w |}.

Definition layer_forward (l : option layer_t) (x : tensor A) (size : nat * nat)
  : result (tensor A * (nat * nat)) :=
  match l with
  | Some (Channel b) => ChannelBlock.forward b x size
  | Some (Spatial b) => SpatialBlock.forward b x size
  | None => Raise TypeError
  end.

(** [features[-1], sizes[-1] = v]: the lists always end with the
    current feature. *)
Definition set_last {T : Type} (l : list T) (v : T) : list T :=
  removelast l ++ [v].

(** The two inner loops over the layers of a stage; the number of
    layers called is kept along. *)
Fixpoint run_layers (layers : list (option layer_t)) (x : tensor A) (size : nat * nat)
  (calls : nat) : result (tensor A * (nat * nat) * nat) :=
  match layers with
  | [] => Ok (x, size, calls)
  | l :: rest =>
      '(x, size) <- layer_forward l x size ;;
      run_layers rest x size (calls + 1)
  end.

(** [for patch_layer, stage in zip(self.patch_embeds, self.stages)];
    with gradient checkpointing the layer is called through
    [checkpoint.checkpoint], to the same result. *)
Fixpoint run_stages (num_stages : nat)
  (todo : list (PatchEmbed.t (A := A) * list (list (option layer_t))))
  (features : list (tensor A)) (sizes : list (nat * nat)) (calls : nat)
  : result (list (tensor A) * list (nat * nat) * nat) :=
  match todo with
  | [] => Ok (features, sizes, calls)
  | (patch_layer, stage) :: rest =>
      match rev features, rev sizes with
      | x :: _, size :: _ =>
          '(x, size) <- PatchEmbed.forward patch_layer x size ;;
          '(x, size, calls) <- run_layers (concat stage) x size calls ;;
          let features := set_last features x in
          let sizes := set_last sizes size in
          (* don't append outputs of last stage, since they are already there *)
          if length features <? num_stages then
            run_stages num_stages rest (features ++ [x]) (sizes ++ [size]) calls
          else run_stages num_stages rest features sizes calls
      | _, _ => Raise IndexError
      end
  end.

(** [forward_network]; the result carries the number of layers called. *)
Definition forward_network (self : t) (x : tensor A)
  : result (list (tensor A) * list (nat * nat) * nat) :=
  match shape x with
  | _ :: _ :: H :: W :: _ =>
      let size := (H, W) in
      run_stages (num_stages self) (combine (patch_embeds self) (stages self))
                 [x] [size] 0
  | _ => Raise IndexError
  end.

Fixpoint pyramid_outs (embed_dims : list nat) (i : nat) (xs : list (tensor A))
  (sizes : list (nat * nat)) : result (list (tensor A)) :=
  match xs with
  | [] => Ok []
  | out :: xs' =>
      '(H, W) <- match nth_error sizes i with
                 | Some s => Ok s
                 | None => Raise IndexError
                 end ;;
      c <- nth_nat embed_dims i ;;
      o <- view out [Infer; D H; D W; D c] ;;
      o <- permute o [0; 3; 1; 2] ;;
      rest <- pyramid_outs embed_dims (i + 1) xs' sizes ;;
      Ok (contiguous o :: rest)
  end.

Definition forward_pyramid_features (self : t) (x : tensor A)
  : result (list (tensor A) * nat) :=
  '(xs, sizes, calls) <- forward_network self x ;;
  outs <- pyramid_outs (self_embed_dims self) 0 xs sizes ;;
  Ok (outs, calls).

Definition forward_features (self : t) (x : tensor A) : result (tensor A) :=
  '(xs, sizes, _) <- forward_network self x ;;
  (* take final feature and norm *)
  xl <- py_index xs (-1) ;;
  x <- TokenLayer.forward (norms self) xl ;;
  '(H, W) <- py_index sizes (-1) ;;
  c <- py_index (self_embed_dims self) (-1) ;;
  x <- view x [Infer; D H; D W; D c] ;;
  x <- permute x [0; 3; 1; 2] ;;
  Ok (contiguous x).

Definition forward_head (self : t) (x : tensor A) (pre_logits : bool)
  : result (tensor A) :=
  head self x pre_logits.

Definition forward_classifier (self : t) (x : tensor A) : result (tensor A) :=
  x <- forward_features self x ;;
  forward_head self x false.

Definition forward (self : t) (x : tensor A) : result (tensor A) :=
  forward_classifier self x.

End DaViT.

(** [davit_tiny] *)
Definition davit_tiny : args := {|
  in_chans := 3;
  depths := [1; 1; 3; 1];
  patch_size := (4, 4);
  embed_dims := [96; 192; 384; 768];
  num_heads := [3; 6; 12; 24];
  window_size := 7;
  qkv_bias := true;
  drop_path_rate := 1 # 10;
  attention_types := ["spatial"%string; "channel"%string];
  ffn := true;
  overlapped_patch := false;
  cpe_act := false
|}.

(** The same arguments with another patch size, or other attention
    types. *)
Definition with_patch_size (a : args) (patch_size : nat * nat) : args := {|
  in_chans := in_chans a;
  depths := depths a;
  patch_size := patch_size;
  embed_dims := embed_dims a;
  num_heads := num_heads a;
  window_size := window_size a;
  qkv_bias := qkv_bias a;
  drop_path_rate := drop_path_rate a;
  attention_types := attention_types a;
  ffn := ffn a;
  overlapped_patch := overlapped_patch a;
  cpe_act := cpe_act a
|}.

Definition with_attention_types (a : args) (attention_types : list string) : args := {|
  in_chans := in_chans a;
  depths := depths a;
  patch_size := patch_size a;
  embed_dims := embed_dims a;
  num_heads := num_heads a;
  window_size := window_size a;
  qkv_bias := qkv_bias a;
  drop_path_rate := drop_path_rate a;
  attention_types := attention_types;
  ffn := ffn a;
  overlapped_patch := overlapped_patch a;
  cpe_act := cpe_act a
|}.

End DaViT.

(** [DaViTFeatures]: the model with [out_indices] recorded in its
    feature information. *)
Module DaViTFeatures.
Section DaViTFeatures.
Context {A : Type} {SA : Scalar A}.

Record t : Type := {
  model : DaViT.t (A := A);
  out_indices : list Z
}.

(** [__init__( *args, **kwargs)]: every keyword goes to [DaViT.__init__],
    which has no parameter [out_indices] and refuses the call when the
    keyword is given; the feature information is then always built with
    the default [(0, 1, 2, 3)].  [FeatureInfo] is not part of the
    sources: the indices are recorded as they are. *)
Definition __init__ (a : DaViT.args) (out_indices : option (list Z)) (w : DaViT.params)
  : result t :=
  match out_indices with
  | Some _ => Raise TypeError
  | None =>
      m <- DaViT.__init__ a w ;;
      Ok {| model := m; out_indices := [0; 1; 2; 3]%Z |}
  end.

Definition forward (self : t) (x : tensor A) : result (list (tensor A) * nat) :=
  DaViT.forward_pyramid_features (model self) x.

End DaViTFeatures.
End DaViTFeatures.

End davit.

(** The number of windows of size [ws] that cover [n] positions. *)
Definition windows_along (n ws : nat) : nat := (n + (ws - n mod ws) mod ws) / ws.

(** The spatial size after pooling with kernel and stride [s]. *)
Definition pooled (n s : nat) : nat := (n - s) / s + 1.

(** ** Notions used to state the properties of the DaViT layers *)

Section LayerNotions.
Context {A : Type} {SA : Scalar A}.




End LayerNotions.

(** ** Notions used to state the properties of the constructor *)

Section ConstructorNotions.
Context {A : Type}.
Import hieradet_sam2.

(** The window size the constructor gives block [i] when the stage
    counter is [cur_stage]. *)
Definition block_window (a : HieraDet.args) (i cur_stage : nat) : nat :=
  match HieraDet.global_att_blocks a with
  | Some g => if py_in (Z.of_nat i) g then 0 else nth cur_stage (HieraDet.window_spec a) 0
  | None => nth cur_stage (HieraDet.window_spec a) 0
  end.

(** The number of stage ends strictly before block [k - 1]: the value of
    [cur_stage] at the top of iteration [k]. *)
Definition stage_count (ends : list Z) (k : nat) : nat :=
  length (filter (fun e => (e + 1 <? Z.of_nat k)%Z) ends).

(** What the constructor establishes for block [j]. *)
Definition constructed_as (a : HieraDet.args) (w : HieraDet.params (A := A))
  (ends qpb : list Z) (j : nat) (blk : MultiScaleBlock.t (A := A)) : Prop :=
  (exists num_heads dp,
     MultiScaleBlock.__init__ (MultiScaleBlock.dim blk)
       (Z.of_nat (MultiScaleBlock.dim_out blk))
       num_heads dp (MultiScaleBlock.q_stride blk) (MultiScaleBlock.window_size blk)
       (HieraDet.block_params w j) = Ok blk) /\
  MultiScaleBlock.window_size blk = block_window a j (stage_count ends j) /\
  (if py_in (Z.of_nat j - 1) ends
   then int_mul (Z.of_nat (MultiScaleBlock.dim blk)) (HieraDet.dim_mul a)
        = Ok (Z.of_nat (MultiScaleBlock.dim_out blk))
   else MultiScaleBlock.dim_out blk = MultiScaleBlock.dim blk) /\
  MultiScaleBlock.q_stride blk =
    (if py_in (Z.of_nat j) qpb then Some (HieraDet.q_stride a) else None) /\
  MultiScaleAttention.q_pool (MultiScaleBlock.attn blk) = MultiScaleBlock.pool blk /\
  MultiScaleBlock.pool blk =
    (if py_in (Z.of_nat j) qpb
     then Some {| MaxPool2d.kernel_size := HieraDet.q_stride a;
                  MaxPool2d.stride := HieraDet.q_stride a |}
     else None).

(** The check that no query-pool block of a configuration gets a window
    size that its stride divides down to zero. *)
Definition q_pool_windows_ok (a : HieraDet.args) : bool :=
  let ends := HieraDet.compute_stage_ends (HieraDet.stages a) in
  let qpb := py_slice_to (map (fun x => (x + 1)%Z) (py_init ends)) (HieraDet.q_pool a) in
  forallb (fun j => negb (py_in (Z.of_nat j) qpb) ||
                    (0 <? block_window a j (stage_count ends j) / fst (HieraDet.q_stride a)))
          (seq 0 (sum_nat (HieraDet.stages a))).

End ConstructorNotions.

(** ** The specification's wording, where it differs from the code *)

Section SpecWording.
Context {A : Type} {SA : Scalar A}.

(** The shortcut as the specification words it: the projection of the
    block input before normalisation, then pooled. *)
Definition skip_connection_pre_norm (blk : hieradet_sam2.MultiScaleBlock.t) (x : tensor A)
  : result (tensor A) :=
  if hieradet_sam2.MultiScaleBlock.dim blk =? hieradet_sam2.MultiScaleBlock.dim_out blk then Ok x
  else match hieradet_sam2.MultiScaleBlock.proj blk with
       | Some p => y <- Linear.forward p x ;; hieradet_sam2.do_pool y (hieradet_sam2.MultiScaleBlock.pool blk) None
       | None => Raise AttributeError
       end.

(** Channel attention of one head in closed form, from the entries
    [q n e], [k n e], [v n e] of the [(N, head_dim)] matrices of the head:
    entry [(n, d)] of [(softmax(K^T V) Q^T)^T], the softmax running along
    the last axis of the [head_dim x head_dim] matrix [K^T V]. *)
Definition channel_attention (N hd : nat) (q k v : nat -> nat -> A) (n d : nat) : A :=
  let attention :=
    softmax_list (map (fun e => sum_over N (fun m => mul (k m d) (v m e))) (seq 0 hd)) in
  sum_over hd (fun e => mul (nth e attention zero) (q n e)).

(** The same as the specification words it, with the softmax taken over
    the token axis, the axis that is contracted: the keys of a channel are
    normalised over the [N] tokens before they weigh the values. *)
Definition channel_attention_token_softmax (N hd : nat) (q k v : nat -> nat -> A)
  (n d : nat) : A :=
  let weights := softmax_list (map (fun m => k m d) (seq 0 N)) in
  sum_over hd (fun e => mul (sum_over N (fun m => mul (nth m weights zero) (v m e)))
                            (q n e)).

End SpecWording.

(** ** Concrete instances on which the definitions are run *)

Module Examples.
Import hieradet_sam2.

(** A [(1, 3, 2, 1)] and a [(1, 2, 2, 1)] feature map. *)
Definition x_1221 : tensor Z := mkTensor [1; 2; 2; 1] [1; 2; 3; 4]%Z.

(** A [(1, 4, 4, 1)] and a [(1, 3, 3, 1)] feature map. *)
Definition x_1441 : tensor Z := mkTensor [1; 4; 4; 1] (map Z.of_nat (seq 1 16)).
Definition x_1331 : tensor Z := mkTensor [1; 3; 3; 1] (map Z.of_nat (seq 1 9)).

Definition x_1321 : tensor Z := mkTensor [1; 3; 2; 1] [1; 2; 3; 4; 5; 6]%Z.

Definition attn_params : MultiScaleAttention.params (A := Z) := {|
  MultiScaleAttention.qkv_weight := fun o k => Z.of_nat (o + k);
  MultiScaleAttention.qkv_bias := fun o => Z.of_nat o;
  MultiScaleAttention.proj_weight := fun o k => if o =? k then 1%Z else 0%Z;
  MultiScaleAttention.proj_bias := fun _ => 0%Z
|}.

(** Identity normalisation and MLP, no path dropped. *)
Definition block_params : MultiScaleBlock.params (A := Z) := {|
  MultiScaleBlock.norm1_fn := fun v c => nth c v 0%Z;
  MultiScaleBlock.norm2_fn := fun v c => nth c v 0%Z;
  MultiScaleBlock.mlp_fn := fun v c => nth c v 0%Z;
  MultiScaleBlock.drop_fn := fun _ v => v;
  MultiScaleBlock.attn_params := attn_params;
  MultiScaleBlock.proj_weight := fun _ _ => 1%Z;
  MultiScaleBlock.proj_bias := fun _ => 0%Z
|}.

(** The same with a normalisation over a single channel: the centred
    value [x - mean(x)] is 0. *)
Definition centring_block_params : MultiScaleBlock.params (A := Z) := {|
  MultiScaleBlock.norm1_fn := fun _ _ => 0%Z;
  MultiScaleBlock.norm2_fn := fun _ _ => 0%Z;
  MultiScaleBlock.mlp_fn := fun v c => nth c v 0%Z;
  MultiScaleBlock.drop_fn := fun _ v => v;
  MultiScaleBlock.attn_params := attn_params;
  MultiScaleBlock.proj_weight := fun _ _ => 1%Z;
  MultiScaleBlock.proj_bias := fun _ => 0%Z
|}.

Definition params : HieraDet.params (A := Z) := {|
  HieraDet.block_params := fun _ => block_params;
  HieraDet.patch_weight := fun _ _ _ _ => 1%Z;
  HieraDet.patch_bias := fun _ => 0%Z;
  HieraDet.timm_patch_embed := fun x => Ok x;
  HieraDet.pos_embed_fn := fun _ => 0%Z;
  HieraDet.pos_embed_window_fn := fun _ => 0%Z;
  HieraDet.head_fn := fun x _ => Ok x
|}.

(** A stand-in for the bicubic resampling: nearest neighbour. *)
Definition nearest (t : tensor Z) (size : nat * nat) (idx : list nat) : Z :=
  get t [nth 0 idx 0; nth 1 idx 0;
         nth 2 idx 0 * nth 2 (shape t) 0 / fst size;
         nth 3 idx 0 * nth 3 (shape t) 0 / snd size].

(** An [(1, 1, 8, 8)] image. *)
Definition image_8x8 : tensor Z := mkTensor [1; 1; 8; 8] (map Z.of_nat (seq 1 64)).

(** An [(1, 1, 6, 6)] image: its side is no multiple of the first
    window size of [small_args]. *)
Definition image_6x6 : tensor Z := mkTensor [1; 1; 6; 6] (map Z.of_nat (seq 1 36)).

(** A three-stage model small enough to run: depths 1, 2, 1. *)
Definition small_args : HieraDet.args :=
  HieraDet.with_model_args
    {| HieraDet.in_chans := 1;
       HieraDet.embed_dim := 1;
       HieraDet.num_heads := 1;
       HieraDet.patch_kernel := (1, 1);
       HieraDet.patch_stride := (1, 1);
       HieraDet.patch_padding := (0, 0);
       HieraDet.patch_size := None;
       HieraDet.q_pool := 2;
       HieraDet.q_stride := (2, 2);
       HieraDet.stages := [];
       HieraDet.dim_mul := 2;
       HieraDet.head_mul := 1;
       HieraDet.global_pos_size := (2, 2);
       HieraDet.window_spec := [];
       HieraDet.global_att_blocks := None;
       HieraDet.drop_path_rate := 0 |}
    1 1 [1; 2; 1] [2]%Z [4; 2; 2] (2, 2).

(** The default arguments with an empty second stage. *)
Definition empty_stage_args : HieraDet.args := {|
  HieraDet.in_chans := 3;
  HieraDet.embed_dim := 96;
  HieraDet.num_heads := 1;
  HieraDet.patch_kernel := (7, 7);
  HieraDet.patch_stride := (4, 4);
  HieraDet.patch_padding := (3, 3);
  HieraDet.patch_size := None;
  HieraDet.q_pool := 2;
  HieraDet.q_stride := (2, 2);
  HieraDet.stages := [2; 0; 3];
  HieraDet.dim_mul := 2;
  HieraDet.head_mul := 2;
  HieraDet.global_pos_size := (7, 7);
  HieraDet.window_spec := [8; 4; 14];
  HieraDet.global_att_blocks := Some [];
  HieraDet.drop_path_rate := 0
|}.

(** A two-stage model small enough to run whose second stage is empty. *)
Definition two_stage_args : HieraDet.args := {|
  HieraDet.in_chans := 1;
  HieraDet.embed_dim := 1;
  HieraDet.num_heads := 1;
  HieraDet.patch_kernel := (1, 1);
  HieraDet.patch_stride := (1, 1);
  HieraDet.patch_padding := (0, 0);
  HieraDet.patch_size := None;
  HieraDet.q_pool := 1;
  HieraDet.q_stride := (2, 2);
  HieraDet.stages := [1; 0];
  HieraDet.dim_mul := 2;
  HieraDet.head_mul := 1;
  HieraDet.global_pos_size := (2, 2);
  HieraDet.window_spec := [4; 2];
  HieraDet.global_att_blocks := Some [];
  HieraDet.drop_path_rate := 0
|}.

(** Two stages of one block with a channel factor of 1.3. *)
Definition fractional_args : HieraDet.args := {|
  HieraDet.in_chans := 3;
  HieraDet.embed_dim := 96;
  HieraDet.num_heads := 1;
  HieraDet.patch_kernel := (7, 7);
  HieraDet.patch_stride := (4, 4);
  HieraDet.patch_padding := (3, 3);
  HieraDet.patch_size := None;
  HieraDet.q_pool := 1;
  HieraDet.q_stride := (2, 2);
  HieraDet.stages := [1; 1];
  HieraDet.dim_mul := 13 # 10;
  HieraDet.head_mul := 2;
  HieraDet.global_pos_size := (7, 7);
  HieraDet.window_spec := [8; 4];
  HieraDet.global_att_blocks := Some [];
  HieraDet.drop_path_rate := 0
|}.

(** Parameters for the DaViT layers. *)
Definition cpe_params : davit.ConvPosEnc.params (A := Z) := {|
  davit.ConvPosEnc.proj_weight := fun _ _ _ _ => 1%Z;
  davit.ConvPosEnc.proj_bias := fun _ => 0%Z;
  davit.ConvPosEnc.batch_norm_fn := fun _ v => v;
  davit.ConvPosEnc.layer_norm_fn := fun v c => nth c v 0%Z;
  davit.ConvPosEnc.gelu := fun v => v
|}.

Definition davit_attn_params : davit.ChannelAttention.params (A := Z) := {|
  davit.ChannelAttention.qkv_weight := fun o k => Z.of_nat (o + k);
  davit.ChannelAttention.qkv_bias := fun o => Z.of_nat o;
  davit.ChannelAttention.proj_weight := fun o k => if o =? k then 1%Z else 0%Z;
  davit.ChannelAttention.proj_bias := fun _ => 0%Z
|}.

Definition davit_block_params : davit.BlockParams.t (A := Z) := {|
  davit.BlockParams.cpe0 := cpe_params;
  davit.BlockParams.cpe1 := cpe_params;
  davit.BlockParams.norm1_fn := fun v c => nth c v 0%Z;
  davit.BlockParams.norm2_fn := fun v c => nth c v 0%Z;
  davit.BlockParams.mlp_fn := fun v c => nth c v 0%Z;
  davit.BlockParams.drop_fn := fun _ v => v;
  davit.BlockParams.attn := davit_attn_params
|}.

Definition patch_params : davit.PatchEmbed.params (A := Z) := {|
  davit.PatchEmbed.proj_weight := fun _ _ _ _ => 1%Z;
  davit.PatchEmbed.proj_bias := fun _ => 0%Z;
  davit.PatchEmbed.norm_fn := fun v c => nth c v 0%Z
|}.

Definition davit_params : davit.DaViT.params (A := Z) := {|
  davit.DaViT.patch_params := fun _ => patch_params;
  davit.DaViT.block_params := fun _ _ _ => davit_block_params;
  davit.DaViT.norms_fn := fun v c => nth c v 0%Z;
  davit.DaViT.head_fn := fun x _ => Ok x
|}.

(** A two-stage DaViT small enough to run, and a [(1, 1, 10, 9)] image. *)
Definition davit_small : davit.DaViT.args := {|
  davit.DaViT.in_chans := 1;
  davit.DaViT.depths := [1; 2];
  davit.DaViT.patch_size := (4, 4);
  davit.DaViT.embed_dims := [2; 4];
  davit.DaViT.num_heads := [1; 2];
  davit.DaViT.window_size := 2;
  davit.DaViT.qkv_bias := true;
  davit.DaViT.drop_path_rate := 0;
  davit.DaViT.attention_types := ["spatial"%string; "channel"%string];
  davit.DaViT.ffn := true;
  davit.DaViT.overlapped_patch := false;
  davit.DaViT.cpe_act := false
|}.

Definition image_10x9 : tensor Z := mkTensor [1; 1; 10; 9] (map Z.of_nat (seq 1 90)).

(** A channel attention over the reals on a single channel: queries and
    keys copy the input, values are 0. *)
Definition attn_params_R : davit.ChannelAttention.params (A := R) := {|
  davit.ChannelAttention.qkv_weight := fun o _ => if o <? 2 then 1%R else 0%R;
  davit.ChannelAttention.qkv_bias := fun _ => 0%R;
  davit.ChannelAttention.proj_weight := fun _ _ => 1%R;
  davit.ChannelAttention.proj_bias := fun _ => 0%R
|}.

(** Two tokens of one channel. *)
Definition tokens_R : tensor R := mkTensor [1; 2; 1] [1%R; 1%R].

(** Three tokens of two channels. *)
Definition tokens_3x2 : tensor Z := mkTensor [1; 3; 2] [1; 2; 3; 4; 5; 6]%Z.

(** A [(1, 3, 5, 5)] image for [davit_tiny]. *)
Definition image_3x5x5 : tensor Z := mkTensor [1; 3; 5; 5] (map Z.of_nat (seq 1 75)).

End Examples.

(** * Properties *)

(** ** Row-major indexing *)

Lemma numel_app (s1 s2 : list nat) : numel (s1 ++ s2) = numel s1 * numel s2.
Proof.
  induction s1 as [|n s1 IH]; simpl; [lia|]. rewrite IH. lia.
Qed.

Lemma in_bounds_length (idx sh : list nat) :
  in_bounds idx sh -> length idx = length sh.
Proof. induction 1; simpl; congruence. Qed.

Lemma in_boundsb_spec (idx sh : list nat) :
  in_boundsb idx sh = true <-> in_bounds idx sh.
Proof.
  revert sh. induction idx as [|i idx IH]; intros [|n sh]; simpl; split; intros Hb;
    try discriminate; try (now constructor); try (now inversion Hb).
  - apply andb_true_iff in Hb as [Hi Hr]. apply Nat.ltb_lt in Hi.
    constructor; [assumption|]. now apply IH.
  - inversion Hb; subst. apply andb_true_iff. split; [now apply Nat.ltb_lt|].
    now apply IH.
Qed.

Lemma ravel_lt (sh idx : list nat) :
  in_bounds idx sh -> ravel sh idx < numel sh.
Proof.
  intros Hb. induction Hb as [|i n idx sh Hi Hb IH]; simpl; [lia|].
  nia.
Qed.

Lemma unravel_ravel (sh idx : list nat) :
  in_bounds idx sh -> unravel sh (ravel sh idx) = idx.
Proof.
  intros Hb. induction Hb as [|i n idx sh Hi Hb IH]; simpl; [reflexivity|].
  pose proof (ravel_lt Hb) as Hlt.
  assert (Hn : numel sh <> 0) by lia.
  rewrite Nat.div_add_l by assumption.
  rewrite Nat.div_small by assumption.
  rewrite (Nat.add_comm (i * numel sh)), Nat.Div0.mod_add.
  rewrite Nat.mod_small by assumption.
  rewrite IH. f_equal. lia.
Qed.

Lemma unravel_in_bounds (sh : list nat) (k : nat) :
  k < numel sh -> in_bounds (unravel sh k) sh.
Proof.
  revert k. induction sh as [|n sh IH]; intros k Hk; simpl in *; [constructor|].
  assert (Hn : numel sh <> 0) by (intros E; rewrite E in Hk; lia).
  constructor.
  - apply Nat.Div0.div_lt_upper_bound. lia.
  - apply IH. apply Nat.mod_upper_bound. assumption.
Qed.

Lemma ravel_unravel (sh : list nat) (k : nat) :
  k < numel sh -> ravel sh (unravel sh k) = k.
Proof.
  revert k. induction sh as [|n sh IH]; intros k Hk; simpl in *; [lia|].
  assert (Hn : numel sh <> 0) by (intros E; rewrite E in Hk; lia).
  rewrite IH by (apply Nat.mod_upper_bound; assumption).
  pose proof (Nat.div_mod_eq k (numel sh)). lia.
Qed.

(** ** Tensors as functions of their index *)

Section TensorFacts.

Context {A : Type} {SA : Scalar A}.

Lemma shape_init (sh : list nat) (f : list nat -> A) : shape (init sh f) = sh.
Proof. reflexivity. Qed.

Lemma wf_init (sh : list nat) (f : list nat -> A) : wf (init sh f).
Proof. unfold wf, init; simpl. now rewrite length_map, length_seq. Qed.

Lemma nth_init_data (sh : list nat) (f : list nat -> A) (k : nat) :
  k < numel sh -> nth k (data (init sh f)) zero = f (unravel sh k).
Proof.
  intros Hk. unfold init; simpl.
  rewrite nth_indep with (d' := f (unravel sh 0))
    by (now rewrite length_map, length_seq).
  rewrite (map_nth (fun k => f (unravel sh k))), seq_nth by assumption.
  reflexivity.
Qed.

Lemma get_init (sh : list nat) (f : list nat -> A) (idx : list nat) :
  in_bounds idx sh -> get (init sh f) idx = f idx.
Proof.
  intros Hb. unfold get. rewrite shape_init.
  rewrite nth_init_data by now apply ravel_lt.
  now rewrite unravel_ravel.
Qed.

(** Reading the data of [init sh f] through another shape of the same
    size: the index is re-expressed in [sh]. *)
Lemma get_reshaped_init (sh sh' : list nat) (f : list nat -> A) (idx : list nat) :
  numel sh' = numel sh -> in_bounds idx sh' ->
  get (mkTensor sh' (data (init sh f))) idx = f (unravel sh (ravel sh' idx)).
Proof.
  intros Hn Hb. unfold get; simpl shape; simpl data.
  apply nth_init_data. rewrite <- Hn. now apply ravel_lt.
Qed.

Lemma tensor_ext (t1 t2 : tensor A) :
  wf t1 -> wf t2 -> shape t1 = shape t2 ->
  (forall idx, in_bounds idx (shape t1) -> get t1 idx = get t2 idx) ->
  t1 = t2.
Proof.
  destruct t1 as [s1 d1], t2 as [s2 d2]; unfold wf, get; simpl.
  intros W1 W2 -> Hget. f_equal.
  apply nth_ext with (d := zero) (d' := zero); [congruence|].
  intros k Hk. rewrite W1 in Hk.
  specialize (Hget (unravel s2 k) (unravel_in_bounds _ Hk)).
  now rewrite ravel_unravel in Hget.
Qed.

Lemma view_known (t : tensor A) (args : list dimarg) :
  count_infer args = 0 -> numel (known_dims args) = numel (shape t) ->
  view t args = Ok (mkTensor (known_dims args) (data t)).
Proof.
  intros Hc Hn. unfold view. rewrite Hc, Hn, Nat.eqb_refl. reflexivity.
Qed.

Lemma view_infer (t : tensor A) (args : list dimarg) (m : nat) :
  count_infer args = 1 -> numel (known_dims args) <> 0 ->
  numel (shape t) = m * numel (known_dims args) ->
  view t args = Ok (mkTensor (fill_dims args m) (data t)).
Proof.
  intros Hc Hk Hn. unfold view. rewrite Hc.
  apply Nat.eqb_neq in Hk as Hk'. rewrite Hk'.
  rewrite Hn, Nat.Div0.mod_mul, Nat.div_mul by assumption.
  reflexivity.
Qed.

End TensorFacts.

(** ** Specifications of the tensor operations *)

Section OpSpecs.
Context {A : Type} {SA : Scalar A}.

Lemma tensor_is_get (t : tensor A) :
  wf t -> tensor_is t (shape t) (get t).
Proof. intros Hw. repeat split; auto. Qed.

Lemma tensor_is_init (sh : list nat) (f : list nat -> A) :
  tensor_is (init sh f) sh f.
Proof.
  repeat split; [apply wf_init|]. intros idx Hb. now apply get_init.
Qed.

Lemma tensor_is_ext (t : tensor A) (sh : list nat) (f g : list nat -> A) :
  tensor_is t sh f -> (forall idx, in_bounds idx sh -> f idx = g idx) ->
  tensor_is t sh g.
Proof.
  intros (Hs & Hw & Hg) Hfg. repeat split; auto.
  intros idx Hb. rewrite Hg by assumption. now apply Hfg.
Qed.

Lemma tensor_is_inj (t u : tensor A) (sh : list nat) (f : list nat -> A) :
  tensor_is t sh f -> tensor_is u sh f -> t = u.
Proof.
  intros (Hs & Hw & Hg) (Hs' & Hw' & Hg').
  apply tensor_ext; auto; [congruence|].
  intros idx Hb. rewrite Hs in Hb. rewrite Hg, Hg' by assumption. reflexivity.
Qed.

Lemma nth_data_get (t : tensor A) (k : nat) :
  k < numel (shape t) -> nth k (data t) zero = get t (unravel (shape t) k).
Proof. intros Hk. unfold get. now rewrite ravel_unravel. Qed.

Lemma reshaped_is (t : tensor A) (sh sh' : list nat) (f : list nat -> A) :
  tensor_is t sh f -> numel sh' = numel sh ->
  tensor_is (mkTensor sh' (data t)) sh'
    (fun idx => f (unravel sh (ravel sh' idx))).
Proof.
  intros (Hs & Hw & Hg) Hn. repeat split.
  - unfold wf in *; simpl. rewrite Hw, Hs. auto.
  - intros idx Hb. unfold get at 1; simpl.
    pose proof (ravel_lt Hb) as Hlt. rewrite Hn, <- Hs in Hlt.
    rewrite nth_data_get by assumption. rewrite Hs.
    apply Hg. apply unravel_in_bounds. now rewrite <- Hs.
Qed.

Lemma view_known_spec (t : tensor A) (sh : list nat) (f : list nat -> A)
  (args : list dimarg) :
  tensor_is t sh f -> count_infer args = 0 ->
  numel (known_dims args) = numel sh ->
  exists t', view t args = Ok t' /\
    tensor_is t' (known_dims args)
      (fun idx => f (unravel sh (ravel (known_dims args) idx))).
Proof.
  intros Ht Hc Hn. exists (mkTensor (known_dims args) (data t)). split.
  - apply view_known; [assumption|]. destruct Ht as (-> & _). assumption.
  - now apply reshaped_is.
Qed.

Lemma view_infer_spec (t : tensor A) (sh : list nat) (f : list nat -> A)
  (args : list dimarg) (m : nat) :
  tensor_is t sh f -> count_infer args = 1 ->
  numel (known_dims args) <> 0 ->
  numel sh = m * numel (known_dims args) ->
  numel (fill_dims args m) = numel sh ->
  exists t', view t args = Ok t' /\
    tensor_is t' (fill_dims args m)
      (fun idx => f (unravel sh (ravel (fill_dims args m) idx))).
Proof.
  intros Ht Hc Hk Hn Hf. exists (mkTensor (fill_dims args m) (data t)). split.
  - apply view_infer; try assumption. destruct Ht as (-> & _). assumption.
  - now apply reshaped_is.
Qed.

Lemma permute_spec (t : tensor A) (sh : list nat) (f : list nat -> A)
  (dims : list nat) :
  tensor_is t sh f -> is_permutation dims (length sh) = true ->
  (forall idx, in_bounds idx (map (fun d => nth d sh 0) dims) ->
     in_bounds (map (fun j => nth (index_of j dims) idx 0) (seq 0 (length sh))) sh) ->
  exists t', permute t dims = Ok t' /\
    tensor_is t' (map (fun d => nth d sh 0) dims)
      (fun idx => f (map (fun j => nth (index_of j dims) idx 0) (seq 0 (length sh)))).
Proof.
  intros (Hs & Hw & Hg) Hp Hb. unfold permute. rewrite Hs, Hp.
  eexists; split; [reflexivity|].
  eapply tensor_is_ext; [apply tensor_is_init|].
  intros idx Hi. apply Hg. now apply Hb.
Qed.

Lemma shift_index_in_bounds (idx sh : list nat) (ps : list (nat * nat)) (src : list nat) :
  shift_index idx sh ps = Some src -> in_bounds src sh.
Proof.
  revert sh ps src. induction idx as [|i idx IH]; intros [|n sh] [|[l r] ps] src;
    simpl; try discriminate.
  - intros [= <-]. constructor.
  - destruct ((l <=? i) && (i - l <? n)) eqn:E; [|discriminate].
    destruct (shift_index idx sh ps) as [rest|] eqn:E'; [|discriminate].
    intros [= <-]. apply andb_true_iff in E as [_ E]. apply Nat.ltb_lt in E.
    constructor; [assumption|]. eapply IH; eassumption.
Qed.

Lemma F_pad_spec (t : tensor A) (sh : list nat) (f : list nat -> A) (pads : list nat) :
  tensor_is t sh f ->
  Nat.even (length pads) = true -> length pads / 2 <= length sh ->
  let ps := pad_spec (length sh) pads in
  exists t', F_pad t pads = Ok t' /\
    tensor_is t' (map (fun '(n, (l, r)) => l + n + r) (combine sh ps))
      (fun idx => match shift_index idx sh ps with
                  | Some src => f src
                  | None => zero
                  end).
Proof.
  intros (Hs & Hw & Hg) He Hl ps. unfold F_pad. rewrite Hs, He.
  apply Nat.leb_le in Hl. rewrite Hl. simpl andb. cbv iota.
  eexists; split; [reflexivity|].
  eapply tensor_is_ext; [apply tensor_is_init|].
  intros idx Hi. subst ps. cbv beta.
  destruct (shift_index idx sh (pad_spec (length sh) pads)) as [src|] eqn:E; [|reflexivity].
  apply Hg. eapply shift_index_in_bounds; eassumption.
Qed.

Lemma slice_shape_in_bounds (sh : list nat) (stops : list (option nat)) (idx : list nat) :
  in_bounds idx (slice_shape sh stops) -> in_bounds idx sh.
Proof.
  revert stops idx. induction sh as [|n sh IH]; intros [|[s|] stops] idx; simpl; auto.
  - intros Hb. inversion Hb; subst. constructor; [lia|]. eapply IH; eassumption.
  - intros Hb. inversion Hb; subst. constructor; [lia|]. eapply IH; eassumption.
Qed.

Lemma slice_to_spec (t : tensor A) (sh : list nat) (f : list nat -> A)
  (stops : list (option nat)) :
  tensor_is t sh f -> length stops <= length sh ->
  exists t', slice_to t stops = Ok t' /\ tensor_is t' (slice_shape sh stops) f.
Proof.
  intros (Hs & Hw & Hg) Hl. unfold slice_to. rewrite Hs.
  apply Nat.leb_le in Hl. rewrite Hl.
  eexists; split; [reflexivity|].
  eapply tensor_is_ext; [apply tensor_is_init|].
  intros idx Hi. apply Hg. eapply slice_shape_in_bounds; eassumption.
Qed.

End OpSpecs.

(** ** Index arithmetic of windows *)

Section WindowArith.
Context {A : Type} {SA : Scalar A}.

Lemma py_mod_ok (a b : nat) : 0 < b -> py_mod a b = Ok (a mod b).
Proof. intros Hb. unfold py_mod. destruct (Nat.eqb_spec b 0); [lia|reflexivity]. Qed.

Lemma py_floordiv_ok (a b : nat) : 0 < b -> py_floordiv a b = Ok (a / b).
Proof. intros Hb. unfold py_floordiv. destruct (Nat.eqb_spec b 0); [lia|reflexivity]. Qed.

Lemma pad_amount (n ws : nat) :
  0 < ws ->
  let p := (ws - n mod ws) mod ws in
  n + p = ((n + p) / ws) * ws.
Proof.
  intros Hws p.
  assert (Hm : (n + p) mod ws = 0).
  { subst p. pose proof (Nat.mod_upper_bound n ws ltac:(lia)) as Hlt.
    destruct (Nat.eq_dec (n mod ws) 0) as [E|E].
    - rewrite E, Nat.sub_0_r, Nat.Div0.mod_same, Nat.add_0_r. exact E.
    - rewrite (Nat.mod_small (ws - n mod ws)) by lia.
      rewrite (Nat.div_mod_eq n ws) at 1.
      replace (ws * (n / ws) + n mod ws + (ws - n mod ws)) with ((n / ws + 1) * ws) by lia.
      apply Nat.Div0.mod_mul. }
  pose proof (Nat.div_mod_eq (n + p) ws). lia.
Qed.

Lemma unravel_as (sh sh' idx idx' : list nat) :
  in_bounds idx' sh -> ravel sh' idx = ravel sh idx' ->
  unravel sh (ravel sh' idx) = idx'.
Proof. intros Hb ->. now apply unravel_ravel. Qed.

Lemma split_index (n a b : nat) :
  0 < b -> n < a * b -> n = (n / b) * b + n mod b /\ n / b < a /\ n mod b < b.
Proof.
  intros Hb Hn. pose proof (Nat.div_mod_eq n b). repeat split; try lia.
  - apply Nat.Div0.div_lt_upper_bound. lia.
  - apply Nat.mod_upper_bound. lia.
Qed.

Lemma window_index (n B nh nw : nat) :
  0 < nh -> 0 < nw -> n < B * nh * nw ->
  n = (n / (nh * nw) * nh + (n / nw) mod nh) * nw + n mod nw /\
  n / (nh * nw) < B /\ (n / nw) mod nh < nh /\ n mod nw < nw.
Proof.
  intros Hnh Hnw Hn.
  pose proof (Nat.div_mod_eq n nw) as E1.
  pose proof (Nat.div_mod_eq (n / nw) nh) as E2.
  rewrite Nat.Div0.div_div in E2. rewrite (Nat.mul_comm nh nw).
  repeat split.
  - nia.
  - apply Nat.Div0.div_lt_upper_bound. nia.
  - apply Nat.mod_upper_bound. lia.
  - apply Nat.mod_upper_bound. lia.
Qed.

Lemma flat_index_lt (b i j B nh nw : nat) :
  b < B -> i < nh -> j < nw -> (b * nh + i) * nw + j < B * nh * nw.
Proof.
  intros Hb Hi Hj.
  assert (b * nh + i + 1 <= B * nh) by nia.
  assert ((b * nh + i + 1) * nw <= B * nh * nw) by (apply Nat.mul_le_mono_r; assumption).
  lia.
Qed.

End WindowArith.

Ltac inv_bounds :=
  repeat match goal with
  | H : in_bounds _ (_ :: _) |- _ => inversion H; subst; clear H
  | H : Forall2 lt _ (_ :: _) |- _ => inversion H; subst; clear H
  | H : in_bounds _ [] |- _ => inversion H; subst; clear H
  | H : Forall2 lt _ [] |- _ => inversion H; subst; clear H
  end.

Ltac bounds :=
  unfold in_bounds;
  repeat (apply Forall2_cons || apply Forall2_nil);
  try assumption; try lia; try nia.

Lemma in_bounds3_inv (idx : list nat) (a b c : nat) :
  in_bounds idx [a; b; c] ->
  exists i j k, idx = [i; j; k] /\ i < a /\ j < b /\ k < c.
Proof. intros Hb. inv_bounds. eauto 10. Qed.

Lemma in_bounds4_inv (idx : list nat) (a b c d : nat) :
  in_bounds idx [a; b; c; d] ->
  exists i j k l, idx = [i; j; k; l] /\ i < a /\ j < b /\ k < c /\ l < d.
Proof. intros Hb. inv_bounds. eauto 10. Qed.

Lemma in_bounds5_inv (idx : list nat) (a b c d e : nat) :
  in_bounds idx [a; b; c; d; e] ->
  exists i j k l m, idx = [i; j; k; l; m] /\ i < a /\ j < b /\ k < c /\ l < d /\ m < e.
Proof. intros Hb. inv_bounds. eauto 12. Qed.

Lemma in_bounds6_inv (idx : list nat) (a b c d e g : nat) :
  in_bounds idx [a; b; c; d; e; g] ->
  exists i j k l m n, idx = [i; j; k; l; m; n] /\
    i < a /\ j < b /\ k < c /\ l < d /\ m < e /\ n < g.
Proof. intros Hb. inv_bounds. eauto 14. Qed.

(** ** Window partition and its inverse *)

Section WindowSpecs.
Context {A : Type} {SA : Scalar A}.

Lemma tensor_is_shape_eq (t : tensor A) (sh sh' : list nat) (f : list nat -> A) :
  tensor_is t sh f -> sh = sh' -> tensor_is t sh' f.
Proof. now intros Ht <-. Qed.

Lemma F_pad_bottom_right (x : tensor A) (f : list nat -> A) (B H W C pw ph : nat) :
  tensor_is x [B; H; W; C] f ->
  exists x', F_pad x [0; 0; 0; pw; 0; ph] = Ok x' /\
    tensor_is x' [B; H + ph; W + pw; C] (zero_padded f H W).
Proof.
  intros Hx.
  destruct (@F_pad_spec _ _ x [B; H; W; C] f [0; 0; 0; pw; 0; ph])
    as (x1 & E1 & H1); [assumption | reflexivity | simpl; lia |].
  exists x1. split; [assumption|].
  cbn [length pad_spec pad_pairs Nat.sub repeat rev app combine map] in H1.
  cbn [Nat.add] in H1. rewrite !Nat.add_0_r in H1.
  eapply tensor_is_ext; [exact H1|].
  intros idx Hb. inv_bounds.
  unfold zero_padded. cbn [shift_index nth Nat.leb]. rewrite !Nat.sub_0_r.
  match goal with Hb : ?b < B, Hc : ?c < C |- _ =>
    apply Nat.ltb_lt in Hb, Hc; rewrite Hb, Hc end.
  cbn [andb]. destruct (_ <? H), (_ <? W); reflexivity.
Qed.

Lemma window_partition_spec (x : tensor A) (f : list nat -> A) (B H W C ws : nat) :
  tensor_is x [B; H; W; C] f ->
  0 < ws -> 0 < B -> 0 < H -> 0 < W -> 0 < C ->
  let pad_h := (ws - H mod ws) mod ws in
  let pad_w := (ws - W mod ws) mod ws in
  let nh := (H + pad_h) / ws in
  let nw := (W + pad_w) / ws in
  exists wins,
    hieradet_sam2.window_partition x ws = Ok (wins, (H + pad_h, W + pad_w)) /\
    tensor_is wins [B * nh * nw; ws; ws; C]
      (fun idx =>
         let n := nth 0 idx 0 in
         zero_padded f H W
           [n / (nh * nw); (n / nw) mod nh * ws + nth 1 idx 0;
            n mod nw * ws + nth 2 idx 0; nth 3 idx 0]).
Proof.
  intros Hx Hws HB HH HW HC pad_h pad_w nh nw.
  pose proof (pad_amount H Hws) as Hph. pose proof (pad_amount W Hws) as Hpw.
  cbv zeta in Hph, Hpw. fold pad_h in Hph. fold pad_w in Hpw. fold nh in Hph. fold nw in Hpw.
  assert (Hnh : 0 < nh) by nia. assert (Hnw : 0 < nw) by nia.
  unfold hieradet_sam2.window_partition. rewrite (proj1 Hx).
  rewrite (py_mod_ok H Hws). cbn [bind]. rewrite (py_mod_ok _ Hws). cbn [bind].
  rewrite (py_mod_ok W Hws). cbn [bind]. rewrite (py_mod_ok _ Hws). cbn [bind].
  fold pad_h pad_w.
  destruct (F_pad_bottom_right pad_w pad_h Hx) as (x1 & E1 & H1).
  rewrite E1; cbn [bind]; clear E1.
  rewrite !py_floordiv_ok by assumption. cbn [bind]. fold nh nw.
  rewrite Hph, Hpw in H1.
  destruct (view_known_spec [D B; D nh; D ws; D nw; D ws; D C] H1)
    as (x2 & E2 & H2); [reflexivity | cbn; lia |].
  rewrite E2; cbn [bind]; clear E2. cbn [known_dims flat_map app] in H2.
  destruct (permute_spec [0; 1; 3; 2; 4; 5] H2) as (x3 & E3 & H3);
    [reflexivity | intros idx Hb; cbn in Hb; inv_bounds; cbn; bounds |].
  rewrite E3; cbn [bind]; clear E3. cbn [map nth length seq index_of Nat.eqb] in H3.
  unfold contiguous.
  destruct (view_infer_spec [Infer; D ws; D ws; D C] (B * nh * nw) H3)
    as (x4 & E4 & H4); [reflexivity | cbn; nia | cbn; lia | cbn; lia |].
  rewrite E4; cbn [bind]; clear E4. cbn [fill_dims map] in H4.
  exists x4. split; [reflexivity|].
  eapply tensor_is_ext; [exact H4|].
  intros idx Hb.
  apply in_bounds4_inv in Hb as (n & r & s & c & -> & Hn & Hr & Hs & Hc).
  cbn [nth].
  destruct (@window_index n B nh nw Hnh Hnw Hn) as (Hn' & Hb' & Hi' & Hj').
  set (b := n / (nh * nw)) in *. set (i := (n / nw) mod nh) in *.
  set (j := n mod nw) in *.
  rewrite (@unravel_as [B; nh; nw; ws; ws; C] _ _ [b; i; j; r; s; c]);
    [|bounds|rewrite Hn' at 1; cbn; ring].
  cbn [nth].
  rewrite (@unravel_as [B; nh * ws; nw * ws; C] _ _ [b; i * ws + r; j * ws + s; c]);
    [|bounds|cbn; ring].
  reflexivity.
Qed.

Lemma window_unpartition_spec (wins : tensor A) (g : list nat -> A)
  (B nh nw ws C H W : nat) :
  tensor_is wins [B * nh * nw; ws; ws; C] g ->
  0 < B -> 0 < nh -> 0 < nw -> 0 < ws -> 0 < C ->
  H <= nh * ws -> W <= nw * ws ->
  exists x,
    hieradet_sam2.window_unpartition wins ws (nh * ws, nw * ws) (H, W) = Ok x /\
    tensor_is x [B; H; W; C]
      (fun idx =>
         let h := nth 1 idx 0 in
         let w := nth 2 idx 0 in
         g [(nth 0 idx 0 * nh + h / ws) * nw + w / ws; h mod ws; w mod ws;
            nth 3 idx 0]).
Proof.
  intros Hw HB Hnh Hnw Hws HC HH HW.
  unfold hieradet_sam2.window_unpartition. rewrite (proj1 Hw).
  rewrite (py_floordiv_ok _ Hws). cbn [bind].
  rewrite (py_floordiv_ok _ Hws). cbn [bind].
  replace (nh * ws * (nw * ws) / ws / ws) with (nh * nw).
  2:{ replace (nh * ws * (nw * ws)) with (nh * nw * ws * ws) by ring.
      now rewrite !Nat.div_mul by lia. }
  rewrite py_floordiv_ok by nia. cbn [bind].
  replace (B * nh * nw / (nh * nw)) with B
    by (rewrite <- Nat.mul_assoc, Nat.div_mul by nia; reflexivity).
  rewrite !(py_floordiv_ok _ Hws). cbn [bind].
  rewrite !Nat.div_mul by lia.
  destruct (view_infer_spec [D B; D nh; D nw; D ws; D ws; Infer] C Hw)
    as (x1 & E1 & H1); [reflexivity | cbn; nia | cbn; ring | cbn; ring |].
  rewrite E1; cbn [bind]; clear E1. cbn [fill_dims map] in H1.
  destruct (permute_spec [0; 1; 3; 2; 4; 5] H1) as (x2 & E2 & H2);
    [reflexivity | intros idx Hb; cbn in Hb; inv_bounds; cbn; bounds |].
  rewrite E2; cbn [bind]; clear E2. cbn [map nth length seq index_of Nat.eqb] in H2.
  unfold contiguous.
  destruct (view_infer_spec [D B; D (nh * ws); D (nw * ws); Infer] C H2)
    as (x3 & E3 & H3); [reflexivity | cbn; nia | cbn; ring | cbn; ring |].
  rewrite E3; cbn [bind]; clear E3. cbn [fill_dims map] in H3.
  destruct (slice_to_spec [None; Some H; Some W; None] H3) as (x4 & E4 & H4);
    [cbn; lia|].
  rewrite E4; cbn [bind]; clear E4. cbn [slice_shape] in H4.
  rewrite !Nat.min_l in H4 by assumption.
  exists x4. split; [reflexivity|].
  eapply tensor_is_ext; [exact H4|].
  intros idx Hb.
  apply in_bounds4_inv in Hb as (b & h & w & c & -> & Hb & Hh & Hw' & Hc).
  cbn [nth].
  destruct (@split_index h nh ws Hws ltac:(lia)) as (Eh & Hh1 & Hh2).
  destruct (@split_index w nw ws Hws ltac:(lia)) as (Ew & Hw1 & Hw2).
  rewrite (@unravel_as [B; nh; ws; nw; ws; C] _ _
             [b; h / ws; h mod ws; w / ws; w mod ws; c]);
    [|bounds|rewrite Eh at 1; rewrite Ew at 1; cbn; ring].
  cbn [nth].
  rewrite (@unravel_as [B * nh * nw; ws; ws; C] _ _
             [(b * nh + h / ws) * nw + w / ws; h mod ws; w mod ws; c]);
    [|bounds; now apply flat_index_lt|cbn; ring].
  reflexivity.
Qed.

End WindowSpecs.

Section RoundTrip.
Context {A : Type} {SA : Scalar A}.

Lemma window_index_inv (b i j nh nw : nat) :
  i < nh -> j < nw ->
  let n := (b * nh + i) * nw + j in
  n / (nh * nw) = b /\ (n / nw) mod nh = i /\ n mod nw = j.
Proof.
  intros Hi Hj n.
  assert (E1 : n / nw = b * nh + i).
  { subst n. rewrite Nat.div_add_l by lia. rewrite Nat.div_small by assumption. lia. }
  repeat split.
  - rewrite (Nat.mul_comm nh nw), <- Nat.Div0.div_div, E1.
    rewrite Nat.div_add_l by lia. rewrite Nat.div_small by assumption. lia.
  - rewrite E1, Nat.add_comm, Nat.Div0.mod_add. now apply Nat.mod_small.
  - subst n. rewrite Nat.add_comm, Nat.Div0.mod_add. now apply Nat.mod_small.
Qed.

(** C1.  Round trip.  For a feature map [x] of shape [(B, H, W, C)] and a
    window size of at least one, partitioning into windows and
    un-partitioning with the padded size the partition returned gives back
    [x] itself, whether or not [H] and [W] are multiples of the window
    size. *)
Theorem window_unpartition_partition (x : tensor A) (B H W C window_size : nat) :
  wf x -> shape x = [B; H; W; C] ->
  0 < B -> 0 < H -> 0 < W -> 0 < C ->
  1 <= window_size ->
  ('(windows, pad_hw) <- hieradet_sam2.window_partition x window_size ;;
   hieradet_sam2.window_unpartition windows window_size pad_hw (H, W)) = Ok x.
Proof.
  intros Hwf Hs HB HH HW HC Hws.
  assert (Hx : tensor_is x [B; H; W; C] (get x)).
  { rewrite <- Hs. now apply tensor_is_get. }
  destruct (window_partition_spec Hx Hws HB HH HW HC) as (wins & E1 & H1).
  rewrite E1. cbn [bind]. clear E1.
  pose proof (pad_amount H Hws) as Hph. pose proof (pad_amount W Hws) as Hpw.
  cbv zeta in Hph, Hpw.
  set (pad_h := (window_size - H mod window_size) mod window_size) in *.
  set (pad_w := (window_size - W mod window_size) mod window_size) in *.
  set (nh := (H + pad_h) / window_size) in *.
  set (nw := (W + pad_w) / window_size) in *.
  assert (Hnh : 0 < nh) by nia. assert (Hnw : 0 < nw) by nia.
  rewrite Hph, Hpw.
  destruct (@window_unpartition_spec _ _ wins _ B nh nw window_size C H W H1)
    as (y & E2 & H2); try lia.
  rewrite E2. f_equal.
  apply tensor_is_inj with (sh := [B; H; W; C]) (f := get x); [|exact Hx].
  eapply tensor_is_ext; [exact H2|].
  intros idx Hb.
  apply in_bounds4_inv in Hb as (b & h & w & c & -> & Hb & Hh & Hw' & Hc).
  cbn [nth].
  destruct (@split_index h nh window_size Hws ltac:(lia)) as (Eh & Hh1 & Hh2).
  destruct (@split_index w nw window_size Hws ltac:(lia)) as (Ew & Hw1 & Hw2).
  destruct (@window_index_inv b (h / window_size) (w / window_size) nh nw Hh1 Hw1)
    as (-> & -> & ->).
  rewrite <- Eh, <- Ew. unfold zero_padded. cbn [nth].
  apply Nat.ltb_lt in Hh, Hw'. now rewrite Hh, Hw'.
Qed.

End RoundTrip.

(** ** The result monad *)

Lemma bind_ok {T U : Type} (c : result T) (k : T -> result U) (v : U) :
  bind c k = Ok v -> exists x, c = Ok x /\ k x = Ok v.
Proof. destruct c as [x|e]; simpl; [eauto | discriminate]. Qed.

Lemma py_assert_ok (b : bool) (u : unit) : py_assert b = Ok u -> b = true.
Proof. destruct b; [reflexivity | discriminate]. Qed.

Ltac bind_inv H :=
  let x := fresh "x" in
  let E := fresh "E" in
  apply bind_ok in H; destruct H as (x & E & H).

(** ** The constructor of HieraDet *)

Import hieradet_sam2.

Section HieraDetInit.
Context {A : Type}.

Lemma size_of_int_ok (z : Z) (n : nat) : size_of_int z = Ok n -> z = Z.of_nat n.
Proof.
  unfold size_of_int. destruct (Z.ltb_spec z 0); [discriminate|].
  intros [= <-]. lia.
Qed.

Lemma size_of_int_nat (n : nat) : size_of_int (Z.of_nat n) = Ok n.
Proof.
  unfold size_of_int. destruct (Z.ltb_spec (Z.of_nat n) 0); [lia|].
  now rewrite Nat2Z.id.
Qed.

Lemma MultiScaleAttention_init_int (dim : nat) (dim_out num_heads : Z)
  (q_pool : option MaxPool2d.t) (w : MultiScaleAttention.params (A := A))
  (m : MultiScaleAttention.t) :
  MultiScaleAttention.__init__ dim dim_out num_heads q_pool w = Ok m ->
  MultiScaleAttention.dim m = dim /\
  Z.of_nat (MultiScaleAttention.dim_out m) = dim_out /\
  MultiScaleAttention.num_heads m = num_heads /\
  MultiScaleAttention.q_pool m = q_pool /\
  num_heads <> 0%Z /\ (dim_out / num_heads)%Z <> 0%Z /\
  Linear.in_features (MultiScaleAttention.qkv m) = dim /\
  Linear.out_features (MultiScaleAttention.qkv m) = MultiScaleAttention.dim_out m * 3 /\
  Linear.in_features (MultiScaleAttention.proj m) = MultiScaleAttention.dim_out m /\
  Linear.out_features (MultiScaleAttention.proj m) = MultiScaleAttention.dim_out m.
Proof.
  unfold MultiScaleAttention.__init__, int_floordiv. intros Hi.
  destruct (Z.eqb_spec num_heads 0) as [|Hn]; [discriminate|]. cbn [bind] in Hi.
  destruct (Z.eqb_spec (dim_out / num_heads) 0) as [|Hd]; [discriminate|].
  cbn [bind] in Hi.
  destruct (size_of_int dim_out) as [n|] eqn:E; [|discriminate].
  apply size_of_int_ok in E. cbn [bind] in Hi. injection Hi as <-. cbn.
  repeat split; auto.
Qed.

Lemma MultiScaleAttention_init_fields (dim dim_out num_heads : nat)
  (q_pool : option MaxPool2d.t) (w : MultiScaleAttention.params (A := A))
  (m : MultiScaleAttention.t) :
  MultiScaleAttention.__init__ dim (Z.of_nat dim_out) (Z.of_nat num_heads) q_pool w = Ok m ->
  MultiScaleAttention.dim m = dim /\ MultiScaleAttention.dim_out m = dim_out /\
  MultiScaleAttention.num_heads m = Z.of_nat num_heads /\
  MultiScaleAttention.q_pool m = q_pool /\
  0 < num_heads /\ 0 < dim_out / num_heads /\
  Linear.in_features (MultiScaleAttention.qkv m) = dim /\
  Linear.out_features (MultiScaleAttention.qkv m) = dim_out * 3 /\
  Linear.in_features (MultiScaleAttention.proj m) = dim_out /\
  Linear.out_features (MultiScaleAttention.proj m) = dim_out.
Proof.
  intros Hi. apply MultiScaleAttention_init_int in Hi
    as (Hd & Hdo & Hnh & Hq & Hn0 & Hhd & Hqi & Hqo & Hpi & Hpo).
  apply Nat2Z.inj in Hdo. rewrite Hdo in *.
  rewrite <- Nat2Z.inj_div in Hhd.
  repeat split; auto; lia.
Qed.

Lemma MultiScaleBlock_init_int (dim : nat) (dim_out num_heads : Z) (dp : Q)
  (q_stride : option (nat * nat)) (window_size : nat)
  (w : MultiScaleBlock.params (A := A)) (blk : MultiScaleBlock.t) :
  MultiScaleBlock.__init__ dim dim_out num_heads dp q_stride window_size w = Ok blk ->
  MultiScaleBlock.window_size blk = window_size /\
  MultiScaleBlock.dim blk = dim /\ Z.of_nat (MultiScaleBlock.dim_out blk) = dim_out /\
  MultiScaleBlock.q_stride blk = q_stride /\
  MultiScaleBlock.pool blk =
    match q_stride with
    | Some s => Some {| MaxPool2d.kernel_size := s; MaxPool2d.stride := s |}
    | None => None
    end /\
  MultiScaleAttention.q_pool (MultiScaleBlock.attn blk) = MultiScaleBlock.pool blk /\
  MultiScaleAttention.__init__ dim dim_out num_heads (MultiScaleBlock.pool blk)
    (MultiScaleBlock.attn_params w) = Ok (MultiScaleBlock.attn blk) /\
  (Z.of_nat dim = dim_out -> MultiScaleBlock.proj blk = None) /\
  (Z.of_nat dim <> dim_out -> exists p, MultiScaleBlock.proj blk = Some p /\
      Linear.in_features p = dim /\
      Linear.out_features p = MultiScaleBlock.dim_out blk) /\
  TokenLayer.features (MultiScaleBlock.norm1 blk) = dim /\
  TokenLayer.features_out (MultiScaleBlock.norm1 blk) = dim.
Proof.
  unfold MultiScaleBlock.__init__. intros Hi. bind_inv Hi. bind_inv Hi.
  apply size_of_int_ok in E0.
  injection Hi as <-. cbn.
  pose proof (MultiScaleAttention_init_int _ _ _ _ _ E) as (_ & _ & _ & Hq & _).
  repeat split; try assumption; auto.
  - intros He. destruct (Nat.eqb_spec dim x0); [reflexivity | lia].
  - intros Hne. destruct (Nat.eqb_spec dim x0); [lia|]. eexists; split; [reflexivity|].
    split; reflexivity.
Qed.

Lemma MultiScaleBlock_init_fields (dim dim_out num_heads : nat) (dp : Q)
  (q_stride : option (nat * nat)) (window_size : nat)
  (w : MultiScaleBlock.params (A := A)) (blk : MultiScaleBlock.t) :
  MultiScaleBlock.__init__ dim (Z.of_nat dim_out) (Z.of_nat num_heads) dp q_stride
    window_size w = Ok blk ->
  MultiScaleBlock.window_size blk = window_size /\
  MultiScaleBlock.dim blk = dim /\ MultiScaleBlock.dim_out blk = dim_out /\
  MultiScaleBlock.q_stride blk = q_stride /\
  MultiScaleBlock.pool blk =
    match q_stride with
    | Some s => Some {| MaxPool2d.kernel_size := s; MaxPool2d.stride := s |}
    | None => None
    end /\
  MultiScaleAttention.q_pool (MultiScaleBlock.attn blk) = MultiScaleBlock.pool blk /\
  MultiScaleAttention.__init__ dim (Z.of_nat dim_out) (Z.of_nat num_heads)
    (MultiScaleBlock.pool blk) (MultiScaleBlock.attn_params w)
    = Ok (MultiScaleBlock.attn blk) /\
  (dim = dim_out -> MultiScaleBlock.proj blk = None) /\
  (dim <> dim_out -> exists p, MultiScaleBlock.proj blk = Some p /\
      Linear.in_features p = dim /\ Linear.out_features p = dim_out) /\
  TokenLayer.features (MultiScaleBlock.norm1 blk) = dim /\
  TokenLayer.features_out (MultiScaleBlock.norm1 blk) = dim.
Proof.
  intros Hi. apply MultiScaleBlock_init_int in Hi
    as (Hw & Hd & Hdo & Hq & Hp & Hqp & Hattn & Hp0 & Hp1 & Hn1 & Hn2).
  apply Nat2Z.inj in Hdo.
  repeat split; try assumption.
  - intros He. apply Hp0. now rewrite He.
  - intros Hne. destruct Hp1 as (p & Ep & Hin & Hout); [lia|].
    exists p. repeat split; congruence.
Qed.

End HieraDetInit.

Section HieraDetLoop.
Context {A : Type}.


Lemma py_index_nat {T : Type} (l : list T) (i : nat) (v d : T) :
  py_index l (Z.of_nat i) = Ok v -> nth_error l i = Some v /\ nth i l d = v.
Proof.
  unfold py_index. destruct (Z.ltb_spec (Z.of_nat i) 0) as [|_]; [lia|].
  destruct (Z.ltb_spec (Z.of_nat i) 0) as [|_]; [lia|].
  rewrite Nat2Z.id. destruct (nth_error l i) as [x|] eqn:E; [|discriminate].
  intros [= <-]. split; [reflexivity|]. now apply nth_error_nth.
Qed.

Lemma loop_body_ok (a : HieraDet.args) (w : HieraDet.params (A := A))
  (ends qpb : list Z) (dpr : list Q) (st st' : HieraDet.loop_state) (i : nat) :
  HieraDet.loop_body a w ends qpb dpr st i = Ok st' ->
  exists blk,
    HieraDet.st_blocks st' = HieraDet.st_blocks st ++ [blk] /\
    (exists num_heads dp,
       MultiScaleBlock.__init__ (MultiScaleBlock.dim blk)
         (Z.of_nat (MultiScaleBlock.dim_out blk))
         num_heads dp (MultiScaleBlock.q_stride blk) (MultiScaleBlock.window_size blk)
         (HieraDet.block_params w i) = Ok blk) /\
    MultiScaleBlock.window_size blk = block_window a i (HieraDet.st_cur_stage st) /\
    HieraDet.st_cur_stage st' =
      HieraDet.st_cur_stage st + (if py_in (Z.of_nat i - 1) ends then 1 else 0) /\
    MultiScaleBlock.dim blk = HieraDet.st_embed_dim st /\
    MultiScaleBlock.dim_out blk = HieraDet.st_embed_dim st' /\
    (if py_in (Z.of_nat i - 1) ends
     then int_mul (Z.of_nat (MultiScaleBlock.dim blk)) (HieraDet.dim_mul a)
          = Ok (Z.of_nat (MultiScaleBlock.dim_out blk))
     else MultiScaleBlock.dim_out blk = MultiScaleBlock.dim blk) /\
    MultiScaleBlock.q_stride blk =
      (if py_in (Z.of_nat i) qpb then Some (HieraDet.q_stride a) else None) /\
    MultiScaleAttention.q_pool (MultiScaleBlock.attn blk) = MultiScaleBlock.pool blk /\
    MultiScaleBlock.pool blk =
      (if py_in (Z.of_nat i) qpb
       then Some {| MaxPool2d.kernel_size := HieraDet.q_stride a;
                    MaxPool2d.stride := HieraDet.q_stride a |}
       else None).
Proof.
  unfold HieraDet.loop_body. intros Hb.
  bind_inv Hb. rename x into ws0.
  apply py_index_nat with (d := 0) in E as (_ & Ews).
  bind_inv Hb. destruct x as [[dim_out num_heads] cur_stage]. rename E into Est.
  bind_inv Hb. rename x into dp. clear E.
  bind_inv Hb. rename x into blk.
  bind_inv Hb. injection Hb as <-. cbn.
  pose proof E as Einit.
  apply MultiScaleBlock_init_int in E as (Hw & Hd & Hdo & Hq & Hp & Hqp & _).
  exists blk. rewrite Hw, Hd, Hq, Hqp, Hp.
  assert (Hinit : exists nh dp0,
    MultiScaleBlock.__init__ (HieraDet.st_embed_dim st)
      (Z.of_nat (MultiScaleBlock.dim_out blk)) nh dp0
      (if py_in (Z.of_nat i) qpb then Some (HieraDet.q_stride a) else None)
      match HieraDet.global_att_blocks a with
      | Some g => if py_in (Z.of_nat i) g then 0 else ws0
      | None => ws0
      end (HieraDet.block_params w i) = Ok blk) by (rewrite Hdo; eauto).
  assert (Hwin : match HieraDet.global_att_blocks a with
                 | Some g => if py_in (Z.of_nat i) g then 0 else ws0
                 | None => ws0
                 end = block_window a i (HieraDet.st_cur_stage st)).
  { unfold block_window. now rewrite Ews. }
  destruct (py_in (Z.of_nat i - 1) ends).
  - bind_inv Est. bind_inv Est. injection Est as <- <- <-.
    repeat split; auto; try (rewrite Hdo; assumption).
    now destruct (py_in (Z.of_nat i) qpb).
  - injection Est as <- <- <-. rewrite Nat.add_0_r. apply Nat2Z.inj in Hdo.
    repeat split; auto. now destruct (py_in (Z.of_nat i) qpb).
Qed.

End HieraDetLoop.

Section HieraDetInv.
Context {A : Type}.

Lemma py_in_spec (x : Z) (l : list Z) : py_in x l = true <-> In x l.
Proof.
  unfold py_in. rewrite existsb_exists. split.
  - intros (y & Hy & E). apply Z.eqb_eq in E. now subst.
  - intros Hx. exists x. split; [assumption | apply Z.eqb_refl].
Qed.

Lemma stage_count_succ (ends : list Z) (k : nat) :
  NoDup ends ->
  stage_count ends (S k) =
  stage_count ends k + (if py_in (Z.of_nat k - 1) ends then 1 else 0).
Proof.
  unfold stage_count. induction 1 as [|e ends Hnot Hnd IH]; [reflexivity|].
  cbn [filter py_in existsb]. fold (py_in (Z.of_nat k - 1) ends).
  destruct (Z.eqb_spec (Z.of_nat k - 1) e) as [He|He].
  - assert (Hin : py_in (Z.of_nat k - 1) ends = false).
    { destruct (py_in (Z.of_nat k - 1) ends) eqn:E; [|reflexivity].
      apply py_in_spec in E. now subst. }
    rewrite Hin in IH. cbn [orb].
    destruct (Z.ltb_spec (e + 1) (Z.of_nat (S k))); [|lia].
    destruct (Z.ltb_spec (e + 1) (Z.of_nat k)); [lia|].
    cbn [length]. lia.
  - cbn [orb].
    destruct (Z.ltb_spec (e + 1) (Z.of_nat (S k))), (Z.ltb_spec (e + 1) (Z.of_nat k));
      cbn [length]; lia.
Qed.

Lemma loop_inv (a : HieraDet.args) (w : HieraDet.params (A := A))
  (ends qpb : list Z) (dpr : list Q) (n : nat) :
  NoDup ends ->
  forall (k : nat) (st st' : HieraDet.loop_state),
  HieraDet.loop a w ends qpb dpr (seq k n) st = Ok st' ->
  length (HieraDet.st_blocks st) = k ->
  HieraDet.st_cur_stage st = stage_count ends k ->
  (forall j blk, nth_error (HieraDet.st_blocks st) j = Some blk ->
     constructed_as a w ends qpb j blk) ->
  length (HieraDet.st_blocks st') = k + n /\
  HieraDet.st_cur_stage st' = stage_count ends (k + n) /\
  (forall j blk, nth_error (HieraDet.st_blocks st') j = Some blk ->
     constructed_as a w ends qpb j blk).
Proof.
  intros Hnd. induction n as [|n IH]; intros k st st' Hl Hlen Hcur Hall.
  - cbn in Hl. injection Hl as <-. rewrite Nat.add_0_r. auto.
  - cbn [seq HieraDet.loop] in Hl. bind_inv Hl. rename x into st1.
    apply loop_body_ok in E
      as (blk & Hb & Hinit & Hw & Hc & Hd & _ & Hdo & Hq & Hqp & Hp).
    specialize (IH (S k) st1 st' Hl).
    rewrite <- Nat.add_succ_comm. apply IH.
    + rewrite Hb, length_app, Hlen. cbn. lia.
    + rewrite Hc, Hcur. symmetry. now apply stage_count_succ.
    + intros j b Hj. rewrite Hb in Hj.
      destruct (Nat.lt_ge_cases j (length (HieraDet.st_blocks st))) as [Hlt|Hge].
      * rewrite nth_error_app1 in Hj by assumption. now apply Hall.
      * rewrite nth_error_app2 in Hj by assumption.
        destruct (j - length (HieraDet.st_blocks st)) as [|d] eqn:Ed.
        -- cbn in Hj. injection Hj as <-.
           assert (j = k) by lia. subst j.
           unfold constructed_as. split; [exact Hinit|]. rewrite Hw, Hcur. auto.
        -- cbn in Hj. destruct d; discriminate.
Qed.

Lemma stage_count_0 (stages : list nat) :
  stage_count (HieraDet.compute_stage_ends stages) 0 = 0.
Proof.
  unfold stage_count, HieraDet.compute_stage_ends.
  induction (seq 1 (length stages)) as [|i l IH]; [reflexivity|].
  cbn [map filter]. destruct (Z.ltb_spec (Z.of_nat (sum_nat (firstn i stages)) - 1 + 1) (Z.of_nat 0)); [lia|].
  exact IH.
Qed.

Lemma init_blocks (a : HieraDet.args) (w : HieraDet.params (A := A)) (m : HieraDet.t) :
  HieraDet.__init__ a w = Ok m ->
  NoDup (HieraDet.compute_stage_ends (HieraDet.stages a)) ->
  HieraDet.stage_ends m = HieraDet.compute_stage_ends (HieraDet.stages a) /\
  length (HieraDet.stages a) = length (HieraDet.window_spec a) /\
  length (HieraDet.blocks m) = sum_nat (HieraDet.stages a) /\
  (forall j blk, nth_error (HieraDet.blocks m) j = Some blk ->
     constructed_as a w (HieraDet.stage_ends m) (HieraDet.q_pool_blocks m) j blk).
Proof.
  unfold HieraDet.__init__. intros Hi Hnd.
  bind_inv Hi. apply py_assert_ok, Nat.eqb_eq in E. rename E into Hlen.
  bind_inv Hi. clear E. bind_inv Hi. clear E.
  bind_inv Hi. rename x2 into st.
  bind_inv Hi. injection Hi as <-. cbn.
  destruct (@loop_inv a w _ _ _ _ Hnd 0 _ _ E eq_refl) as (Hl & _ & Hall).
  { symmetry. apply stage_count_0. }
  { intros j blk Hj. destruct j; discriminate. }
  cbn in Hl. auto.
Qed.

End HieraDetInv.

Section StageEnds.

Lemma prefix_sum_succ (stages : list nat) (i : nat) :
  i < length stages ->
  sum_nat (firstn (S i) stages) = sum_nat (firstn i stages) + nth i stages 0.
Proof.
  revert i. induction stages as [|d stages IH]; intros i Hi; cbn in Hi; [lia|].
  destruct i as [|i].
  - cbn. lia.
  - rewrite !firstn_cons. cbn [nth]. unfold sum_nat in *. cbn [fold_right].
    rewrite IH by lia. lia.
Qed.

Lemma prefix_sum_lt (stages : list nat) (i j : nat) :
  Forall (fun d => 1 <= d) stages -> i < j <= length stages ->
  sum_nat (firstn i stages) < sum_nat (firstn j stages).
Proof.
  intros Hpos [Hij Hj]. induction j as [|j IH]; [lia|].
  rewrite prefix_sum_succ by lia.
  assert (Hd : 1 <= nth j stages 0).
  { rewrite Forall_forall in Hpos. apply Hpos, nth_In. lia. }
  destruct (Nat.eq_dec i j) as [->|Hne]; [lia|].
  specialize (IH ltac:(lia) ltac:(lia)). lia.
Qed.

Lemma prefix_sum_ltb (stages : list nat) (i j : nat) :
  Forall (fun d => 1 <= d) stages -> i <= length stages -> j <= length stages ->
  (sum_nat (firstn i stages) <? sum_nat (firstn j stages)) = (i <? j).
Proof.
  intros Hpos Hi Hj. destruct (Nat.ltb_spec i j) as [Hlt|Hge].
  - apply Nat.ltb_lt. now apply prefix_sum_lt.
  - apply Nat.ltb_ge. destruct (Nat.eq_dec i j) as [->|Hne]; [lia|].
    apply Nat.lt_le_incl. apply prefix_sum_lt; [assumption | lia].
Qed.

Lemma count_below (s a n : nat) :
  length (filter (fun i => i <? s) (seq a n)) = Nat.min n (s - a).
Proof.
  revert a. induction n as [|n IH]; intros a; [reflexivity|].
  cbn [seq filter]. destruct (Nat.ltb_spec a s); cbn [length]; rewrite ?IH; lia.
Qed.

Lemma length_filter_map {T U : Type} (p : U -> bool) (f : T -> U) (l : list T) :
  length (filter p (map f l)) = length (filter (fun x => p (f x)) l).
Proof.
  induction l as [|x l IH]; [reflexivity|]. cbn. destruct (p (f x)); cbn; now rewrite IH.
Qed.

Lemma stage_count_first_block (stages : list nat) (s : nat) :
  Forall (fun d => 1 <= d) stages -> 1 <= s <= length stages ->
  stage_count (HieraDet.compute_stage_ends stages) (sum_nat (firstn s stages)) = s - 1.
Proof.
  intros Hpos Hs. unfold stage_count, HieraDet.compute_stage_ends.
  rewrite length_filter_map.
  rewrite filter_ext_in with (g := fun i => i <? s).
  - rewrite count_below. lia.
  - intros i Hi. apply in_seq in Hi.
    rewrite <- (@prefix_sum_ltb stages i s Hpos) by lia.
    destruct (Nat.ltb_spec (sum_nat (firstn i stages)) (sum_nat (firstn s stages)));
      [apply Z.ltb_lt | apply Z.ltb_ge]; lia.
Qed.

Lemma stage_ends_NoDup (stages : list nat) :
  Forall (fun d => 1 <= d) stages -> NoDup (HieraDet.compute_stage_ends stages).
Proof.
  intros Hpos. unfold HieraDet.compute_stage_ends.
  apply NoDup_map_NoDup_ForallPairs; [|apply seq_NoDup].
  intros i j Hi Hj E. apply in_seq in Hi, Hj.
  destruct (Nat.lt_trichotomy i j) as [Hlt|[->|Hgt]]; [|reflexivity|].
  - pose proof (@prefix_sum_lt stages i j Hpos ltac:(lia)). lia.
  - pose proof (@prefix_sum_lt stages j i Hpos ltac:(lia)). lia.
Qed.

Lemma stage_end_before_first_block (stages : list nat) (s : nat) :
  1 <= s <= length stages ->
  py_in (Z.of_nat (sum_nat (firstn s stages)) - 1) (HieraDet.compute_stage_ends stages) = true.
Proof.
  intros Hs. apply py_in_spec. unfold HieraDet.compute_stage_ends.
  apply in_map_iff. exists s. split; [reflexivity|]. apply in_seq. lia.
Qed.

End StageEnds.

Section LaggedWindow.
Context {A : Type}.

Lemma stage_ends_nth (stages : list nat) (s : nat) :
  1 <= s <= length stages ->
  nth_error (HieraDet.compute_stage_ends stages) (s - 1) =
  Some (Z.of_nat (sum_nat (firstn s stages)) - 1)%Z.
Proof.
  intros Hs. unfold HieraDet.compute_stage_ends.
  rewrite nth_error_map, nth_error_nth' with (d := 0) by (rewrite length_seq; lia).
  rewrite seq_nth by lia. cbv beta. now replace (1 + (s - 1)) with s by lia.
Qed.

Lemma sum_nat_firstn_all (stages : list nat) :
  sum_nat (firstn (length stages) stages) = sum_nat stages.
Proof. now rewrite firstn_all. Qed.

(** C5 (amended).  Lagged window size.  When every stage has at least
    one block, the first block of stage [s >= 1], the block right after
    stage end [s - 1], is built with window size [window_spec[s - 1]],
    the entry of the previous stage, unless its index is in
    [global_att_blocks], in which case its window size is 0. *)
Theorem first_block_window_lags (a : HieraDet.args) (w : HieraDet.params (A := A))
  (m : HieraDet.t) (s : nat) :
  HieraDet.__init__ a w = Ok m ->
  Forall (fun d => 1 <= d) (HieraDet.stages a) ->
  1 <= s < length (HieraDet.stages a) ->
  let i := sum_nat (firstn s (HieraDet.stages a)) in
  nth_error (HieraDet.stage_ends m) (s - 1) = Some (Z.of_nat i - 1)%Z /\
  exists blk ws_prev,
    nth_error (HieraDet.blocks m) i = Some blk /\
    nth_error (HieraDet.window_spec a) (s - 1) = Some ws_prev /\
    MultiScaleBlock.window_size blk =
      match HieraDet.global_att_blocks a with
      | Some g => if py_in (Z.of_nat i) g then 0 else ws_prev
      | None => ws_prev
      end.
Proof.
  intros Hi Hpos Hs i.
  pose proof (stage_ends_NoDup Hpos) as Hnd.
  destruct (init_blocks _ _ Hi Hnd) as (Hends & Hlen & Hblocks & Hall).
  split.
  { rewrite Hends. apply stage_ends_nth. lia. }
  assert (Hlt : i < length (HieraDet.blocks m)).
  { rewrite Hblocks, <- sum_nat_firstn_all. subst i. apply prefix_sum_lt; [assumption|lia]. }
  destruct (nth_error (HieraDet.blocks m) i) as [blk|] eqn:Eb;
    [|apply nth_error_None in Eb; lia].
  destruct (nth_error (HieraDet.window_spec a) (s - 1)) as [ws_prev|] eqn:Ew;
    [|apply nth_error_None in Ew; lia].
  exists blk, ws_prev. repeat split.
  destruct (Hall _ _ Eb) as (_ & Hw & _). rewrite Hw, Hends. unfold block_window. subst i.
  rewrite stage_count_first_block by (try assumption; lia).
  now rewrite (nth_error_nth _ _ 0 Ew).
Qed.

End LaggedWindow.

Lemma window_unpartition_partition_witness :
  ('(windows, pad_hw) <- hieradet_sam2.window_partition (SA := Z_scalar) Examples.x_1321 2 ;;
   hieradet_sam2.window_unpartition windows 2 pad_hw (3, 2)) = Ok Examples.x_1321.
Proof.
  apply (@window_unpartition_partition Z Z_scalar Examples.x_1321 1 3 2 1 2);
    [reflexivity | reflexivity | lia | lia | lia | lia | lia].
Defined.

Lemma first_block_window_lags_witness :
  match HieraDet.__init__ HieraDet.sam2_hiera_tiny Examples.params with
  | Ok m =>
      exists blk ws_prev,
        nth_error (HieraDet.blocks m) 1 = Some blk /\
        nth_error [8; 4; 14; 7] 0 = Some ws_prev /\
        MultiScaleBlock.window_size blk = ws_prev
  | Raise _ => False
  end.
Proof.
  destruct (HieraDet.__init__ HieraDet.sam2_hiera_tiny Examples.params) as [m|e] eqn:E.
  - destruct (@first_block_window_lags Z HieraDet.sam2_hiera_tiny Examples.params m 1 E)
      as (_ & blk & ws_prev & H1 & H2 & H3).
    + repeat constructor.
    + cbn. lia.
    + exists blk, ws_prev. repeat split; assumption.
  - vm_compute in E. discriminate.
Defined.

(** The lag is of one block, not of one stage: the stage counter grows
    by one per block at most.  With stages (2, 0, 3) and window sizes
    (8, 4, 14), block 2 is the first block of stage 2 and follows the end
    of stage 1; it is built with window size 8, the entry of stage 0, not
    with [window_spec[1] = 4]. *)
Lemma lagged_window_skips_empty_stage :
  exists m blk,
    HieraDet.__init__ Examples.empty_stage_args Examples.params = Ok m /\
    HieraDet.stages Examples.empty_stage_args = [2; 0; 3] /\
    sum_nat (firstn 2 (HieraDet.stages Examples.empty_stage_args)) = 2 /\
    nth_error (HieraDet.stage_ends m) (2 - 1) = Some 1%Z /\
    nth_error (HieraDet.blocks m) 2 = Some blk /\
    nth_error (HieraDet.window_spec Examples.empty_stage_args) (2 - 1) = Some 4 /\
    HieraDet.global_att_blocks Examples.empty_stage_args = Some [] /\
    MultiScaleBlock.window_size blk = 8.
Proof.
  eexists. eexists. split; [vm_compute; reflexivity|].
  repeat split.
Qed.

(** ** Shapes through the layers *)

Section ShapeLemmas.
Context {A : Type} {SA : Scalar A}.

Lemma view_known_shape (t : tensor A) (args : list dimarg) :
  count_infer args = 0 -> numel (known_dims args) = numel (shape t) ->
  exists y, view t args = Ok y /\ shape y = known_dims args.
Proof. intros Hc Hn. rewrite view_known by assumption. eexists; split; reflexivity. Qed.

Lemma view_infer_shape (t : tensor A) (args : list dimarg) (m : nat) :
  count_infer args = 1 -> numel (known_dims args) <> 0 ->
  numel (shape t) = m * numel (known_dims args) ->
  exists y, view t args = Ok y /\ shape y = fill_dims args m.
Proof.
  intros Hc Hk Hn. rewrite (@view_infer _ t args m) by assumption.
  eexists; split; reflexivity.
Qed.

Lemma Linear_forward_shape (l : Linear.t) (x : tensor A) (ld : list nat) :
  shape x = ld ++ [Linear.in_features l] ->
  exists y, Linear.forward l x = Ok y /\ shape y = ld ++ [Linear.out_features l].
Proof.
  intros Hs. unfold Linear.forward. rewrite Hs, rev_app_distr. cbn [rev app].
  rewrite Nat.eqb_refl, rev_involutive. eexists; split; reflexivity.
Qed.

Lemma TokenLayer_forward_shape (l : TokenLayer.t) (x : tensor A) (ld : list nat) :
  shape x = ld ++ [TokenLayer.features l] ->
  exists y, TokenLayer.forward l x = Ok y /\ shape y = ld ++ [TokenLayer.features_out l].
Proof.
  intros Hs. unfold TokenLayer.forward. rewrite Hs, rev_app_distr. cbn [rev app].
  rewrite Nat.eqb_refl, rev_involutive. eexists; split; reflexivity.
Qed.

Lemma pool_out_ok (n k s : nat) :
  0 < k -> 0 < s -> k <= n -> MaxPool2d.pool_out n k s = Ok ((n - k) / s + 1).
Proof.
  intros Hk Hs Hn. unfold MaxPool2d.pool_out.
  destruct (Nat.eqb_spec k 0); [lia|]. destruct (Nat.eqb_spec s 0); [lia|].
  cbn [orb]. destruct (Nat.ltb_spec n k); [lia|]. reflexivity.
Qed.

Lemma MaxPool2d_forward_shape (p : MaxPool2d.t) (x : tensor A) (B C H W : nat) :
  shape x = [B; C; H; W] ->
  0 < fst (MaxPool2d.kernel_size p) -> 0 < snd (MaxPool2d.kernel_size p) ->
  0 < fst (MaxPool2d.stride p) -> 0 < snd (MaxPool2d.stride p) ->
  fst (MaxPool2d.kernel_size p) <= H -> snd (MaxPool2d.kernel_size p) <= W ->
  exists y, MaxPool2d.forward p x = Ok y /\
    shape y = [B; C;
               (H - fst (MaxPool2d.kernel_size p)) / fst (MaxPool2d.stride p) + 1;
               (W - snd (MaxPool2d.kernel_size p)) / snd (MaxPool2d.stride p) + 1].
Proof.
  intros Hs Hk1 Hk2 Hs1 Hs2 HH HW. unfold MaxPool2d.forward.
  destruct (MaxPool2d.kernel_size p) as [kh kw], (MaxPool2d.stride p) as [sh sw].
  cbn [fst snd] in *. rewrite Hs.
  rewrite !pool_out_ok by assumption. cbn [bind].
  eexists; split; reflexivity.
Qed.

Lemma permute_shape (t : tensor A) (dims : list nat) :
  is_permutation dims (length (shape t)) = true ->
  exists y, permute t dims = Ok y /\ shape y = map (fun d => nth d (shape t) 0) dims.
Proof.
  intros Hp. unfold permute. rewrite Hp. eexists; split; reflexivity.
Qed.

Lemma do_pool_shape (x : tensor A) (p : MaxPool2d.t) (B H W C : nat) :
  shape x = [B; H; W; C] ->
  0 < fst (MaxPool2d.kernel_size p) -> 0 < snd (MaxPool2d.kernel_size p) ->
  0 < fst (MaxPool2d.stride p) -> 0 < snd (MaxPool2d.stride p) ->
  fst (MaxPool2d.kernel_size p) <= H -> snd (MaxPool2d.kernel_size p) <= W ->
  exists y, do_pool x (Some p) None = Ok y /\
    shape y = [B;
               (H - fst (MaxPool2d.kernel_size p)) / fst (MaxPool2d.stride p) + 1;
               (W - snd (MaxPool2d.kernel_size p)) / snd (MaxPool2d.stride p) + 1;
               C].
Proof.
  intros Hs Hk1 Hk2 Hs1 Hs2 HH HW. unfold do_pool.
  destruct (@permute_shape x [0; 3; 1; 2]) as (x1 & E1 & H1); [now rewrite Hs|].
  rewrite E1; cbn [bind]; clear E1. rewrite Hs in H1. cbn [map nth] in H1.
  destruct (@MaxPool2d_forward_shape p x1 B C H W H1) as (x2 & E2 & H2); try assumption.
  rewrite E2; cbn [bind]; clear E2.
  destruct (@permute_shape x2 [0; 2; 3; 1]) as (x3 & E3 & H3); [now rewrite H2|].
  rewrite E3; cbn [bind]; clear E3. rewrite H2 in H3. cbn [map nth] in H3.
  exists x3. split; [reflexivity | assumption].
Qed.

End ShapeLemmas.

Ltac nonzero :=
  cbn [numel fold_right known_dims flat_map app];
  repeat (apply Nat.neq_mul_0; split); lia.

Section AttentionShape.
Context {A : Type} {SA : Scalar A}.

Lemma transpose_1_2_shape (t : tensor A) (a b c d : nat) :
  shape t = [a; b; c; d] ->
  exists y, transpose t 1 2 = Ok y /\ shape y = [a; c; b; d].
Proof.
  intros Hs. unfold transpose, permute. rewrite Hs. cbn.
  eexists; split; reflexivity.
Qed.

Lemma sdpa_shape (q k v : tensor A) (B h L Sk E Ev : nat) :
  shape q = [B; h; L; E] -> shape k = [B; h; Sk; E] -> shape v = [B; h; Sk; Ev] ->
  exists y, scaled_dot_product_attention q k v = Ok y /\ shape y = [B; h; L; Ev].
Proof.
  intros Hq Hk Hv. unfold scaled_dot_product_attention. rewrite Hq, Hk, Hv.
  rewrite !Nat.eqb_refl. cbn [andb]. eexists; split; reflexivity.
Qed.

Lemma project_qkv_pooled_shape (m : MultiScaleAttention.t) (x : tensor A)
  (dim dim_out num_heads : nat) (s : nat * nat)
  (w : MultiScaleAttention.params) (B H W : nat) :
  MultiScaleAttention.__init__ dim (Z.of_nat dim_out) (Z.of_nat num_heads)
    (Some {| MaxPool2d.kernel_size := s; MaxPool2d.stride := s |}) w = Ok m ->
  dim_out mod num_heads = 0 ->
  shape x = [B; H; W; dim] ->
  0 < B -> 0 < fst s <= H -> 0 < snd s <= W ->
  exists q k v,
    MultiScaleAttention.project_qkv m x =
      Ok (q, k, v, (B, pooled H (fst s), pooled W (snd s))) /\
    shape q = [B; pooled H (fst s) * pooled W (snd s); num_heads; dim_out / num_heads] /\
    shape k = [B; H * W; num_heads; dim_out / num_heads] /\
    shape v = [B; H * W; num_heads; dim_out / num_heads].
Proof.
  intros Hi Hdiv Hs HB HH HW.
  apply MultiScaleAttention_init_fields in Hi
    as (_ & _ & Hnh & Hqp & Hnh0 & Hhd & Hqi & Hqo & _ & _).
  assert (Hdo : dim_out = dim_out / num_heads * num_heads).
  { pose proof (Nat.div_mod_eq dim_out num_heads). lia. }
  set (hd := dim_out / num_heads) in *.
  unfold MultiScaleAttention.project_qkv. rewrite Hs, Hnh, Hqp.
  destruct (@Linear_forward_shape _ _ (MultiScaleAttention.qkv m) x [B; H; W])
    as (y1 & E1 & H1); [now rewrite Hqi|].
  rewrite E1; cbn [bind]; clear E1. rewrite Hqo in H1. cbn [app] in H1.
  rewrite size_of_int_nat. cbn [bind].
  destruct (@view_infer_shape _ y1 [D B; D (H * W); D 3; D num_heads; Infer] hd)
    as (y2 & E2 & H2); [reflexivity | nonzero | rewrite H1; cbn; rewrite Hdo at 1; ring |].
  rewrite E2; cbn [bind]; clear E2. cbn [fill_dims map] in H2.
  unfold unbind. rewrite H2. cbn [length Nat.ltb Nat.leb nth seq map bind remove_at firstn skipn app].
  match goal with |- context [view ?q [D B; D H; D W; Infer]] => set (q0 := q) end.
  destruct (@view_infer_shape _ q0 [D B; D H; D W; Infer] dim_out)
    as (q1 & E3 & H3); [reflexivity | nonzero | cbn; rewrite Hdo at 1; ring |].
  rewrite E3; cbn [bind]; clear E3. cbn [fill_dims map] in H3.
  destruct (@do_pool_shape _ _ q1 {| MaxPool2d.kernel_size := s; MaxPool2d.stride := s |}
              B H W dim_out H3) as (q2 & E4 & H4); cbn [MaxPool2d.kernel_size MaxPool2d.stride]; try lia.
  rewrite E4; cbn [bind]; clear E4.
  cbn [MaxPool2d.kernel_size MaxPool2d.stride] in H4. fold (pooled H (fst s)) (pooled W (snd s)) in H4.
  rewrite H4.
  assert (Hp1 : 0 < pooled H (fst s)) by (unfold pooled; lia).
  assert (Hp2 : 0 < pooled W (snd s)) by (unfold pooled; lia).
  destruct (@view_infer_shape _ q2
              [D B; D (pooled H (fst s) * pooled W (snd s)); D num_heads; Infer] hd)
    as (q3 & E5 & H5); [reflexivity | nonzero | rewrite H4; cbn; rewrite Hdo at 1; ring |].
  rewrite E5; cbn [bind]; clear E5. cbn [fill_dims map] in H5.
  eexists _, _, _. split; [reflexivity|]. repeat split; try assumption; reflexivity.
Qed.

Lemma attention_tail_shape (m : MultiScaleAttention.t) (q k v : tensor A)
  (B H W L nh hd : nat) :
  shape q = [B; H * W; nh; hd] -> shape k = [B; L; nh; hd] -> shape v = [B; L; nh; hd] ->
  Linear.in_features (MultiScaleAttention.proj m) = nh * hd ->
  0 < B -> 0 < H -> 0 < W ->
  exists y,
    (q <- transpose q 1 2 ;;
     k <- transpose k 1 2 ;;
     v <- transpose v 1 2 ;;
     x <- scaled_dot_product_attention q k v ;;
     x <- transpose x 1 2 ;;
     x <- view x [D B; D H; D W; Infer] ;;
     Linear.forward (MultiScaleAttention.proj m) x) = Ok y /\
    shape y = [B; H; W; Linear.out_features (MultiScaleAttention.proj m)].
Proof.
  intros Hq Hk Hv Hp HB HH HW.
  destruct (transpose_1_2_shape _ Hq) as (q' & E1 & Hq'). rewrite E1; cbn [bind]; clear E1.
  destruct (transpose_1_2_shape _ Hk) as (k' & E2 & Hk'). rewrite E2; cbn [bind]; clear E2.
  destruct (transpose_1_2_shape _ Hv) as (v' & E3 & Hv'). rewrite E3; cbn [bind]; clear E3.
  destruct (sdpa_shape _ _ _ Hq' Hk' Hv') as (y1 & E4 & H1). rewrite E4; cbn [bind]; clear E4.
  destruct (transpose_1_2_shape _ H1) as (y2 & E5 & H2). rewrite E5; cbn [bind]; clear E5.
  destruct (@view_infer_shape _ y2 [D B; D H; D W; Infer] (nh * hd))
    as (y3 & E6 & H3); [reflexivity | nonzero | rewrite H2; cbn; ring |].
  rewrite E6; cbn [bind]; clear E6. cbn [fill_dims map] in H3.
  destruct (@Linear_forward_shape _ _ (MultiScaleAttention.proj m) y3 [B; H; W])
    as (y4 & E7 & H4); [now rewrite Hp|].
  exists y4. split; assumption.
Qed.

End AttentionShape.

(** ** Global attention on a query-pool block *)

Unset Implicit Arguments.

Section GlobalQPool.
Context {A : Type} {SA : Scalar A}.

Lemma bind_raise {T U : Type} (c : result T) (k : T -> result U) (e : exn) :
  c = Raise e -> bind c k = Raise e.
Proof. now intros ->. Qed.

Lemma bind_never_ok {T U : Type} (c : result T) (k : T -> result U) :
  (forall x v, k x <> Ok v) -> forall v, bind c k <> Ok v.
Proof. intros Hk v. destruct c as [x|e]; cbn; [apply Hk | discriminate]. Qed.

(** With a window size of 0 and a query stride, the re-computation of
    the padding divides by zero: the branch never returns. *)
Lemma windowed_attention_never_ok (blk : MultiScaleBlock.t) (qs : nat * nat)
  (shortcut x : tensor A) :
  MultiScaleBlock.window_size blk = 0 -> MultiScaleBlock.q_stride blk = Some qs ->
  forall y, MultiScaleBlock.windowed_attention blk shortcut x <> Ok y.
Proof.
  intros Hw Hq y. unfold MultiScaleBlock.windowed_attention.
  rewrite Hw, Hq. cbn [Nat.ltb Nat.leb bind].
  destruct (MultiScaleAttention.forward (MultiScaleBlock.attn blk) x) as [a|e];
    cbn [bind]; [|discriminate].
  destruct qs as [s0 s1]. unfold py_floordiv.
  destruct (Nat.eqb_spec s0 0); cbn [bind]; [discriminate|].
  rewrite Nat.Div0.div_0_l.
  destruct (MultiScaleBlock.getitem (MultiScaleBlock.shape_1_3 shortcut) 0);
    cbn [bind]; discriminate.
Qed.

Lemma windowed_attention_zero_division (blk : MultiScaleBlock.t) (s0 s1 : nat)
  (shortcut x a : tensor A) (B H W C : nat) :
  MultiScaleBlock.window_size blk = 0 ->
  MultiScaleBlock.q_stride blk = Some (s0, s1) ->
  MultiScaleAttention.forward (MultiScaleBlock.attn blk) x = Ok a ->
  shape shortcut = [B; H; W; C] ->
  MultiScaleBlock.windowed_attention blk shortcut x = Raise ZeroDivisionError.
Proof.
  intros Hw Hq Ha Hs. unfold MultiScaleBlock.windowed_attention.
  rewrite Hw, Hq. cbn [Nat.ltb Nat.leb bind]. rewrite Ha. cbn [bind].
  unfold py_floordiv. destruct (Nat.eqb_spec s0 0); cbn [bind]; [reflexivity|].
  rewrite Nat.Div0.div_0_l. unfold MultiScaleBlock.shape_1_3. rewrite Hs. reflexivity.
Qed.

Lemma forward_never_ok (blk : MultiScaleBlock.t) (qs : nat * nat) (x : tensor A) :
  MultiScaleBlock.window_size blk = 0 -> MultiScaleBlock.q_stride blk = Some qs ->
  forall y, MultiScaleBlock.forward blk x <> Ok y.
Proof.
  intros Hw Hq. unfold MultiScaleBlock.forward.
  apply bind_never_ok. intros xn v. apply bind_never_ok. intros sc v'.
  intros Hb. bind_inv Hb. now apply (windowed_attention_never_ok blk qs sc xn Hw Hq) in E.
Qed.

Lemma skip_connection_shape (blk : MultiScaleBlock.t) (dim dim_out num_heads : nat)
  (dp : Q) (q_stride : option (nat * nat)) (window_size : nat)
  (w : MultiScaleBlock.params) (x xn : tensor A) (B H W : nat) :
  MultiScaleBlock.__init__ dim (Z.of_nat dim_out) (Z.of_nat num_heads) dp q_stride
    window_size w = Ok blk ->
  shape x = [B; H; W; dim] -> shape xn = [B; H; W; dim] ->
  match q_stride with
  | Some s => 0 < fst s <= H /\ 0 < snd s <= W
  | None => True
  end ->
  exists sc, MultiScaleBlock.skip_connection blk x xn = Ok sc /\
    shape sc =
      if dim =? dim_out then [B; H; W; dim]
      else match q_stride with
           | Some s => [B; pooled H (fst s); pooled W (snd s); dim_out]
           | None => [B; H; W; dim_out]
           end.
Proof.
  intros Hi Hx Hxn Hq.
  apply MultiScaleBlock_init_fields in Hi
    as (_ & Hd & Hdo & _ & Hp & _ & _ & Hproj0 & Hproj1 & _).
  unfold MultiScaleBlock.skip_connection. rewrite Hd, Hdo.
  destruct (Nat.eqb_spec dim dim_out) as [He|Hne].
  - exists x. split; [reflexivity | assumption].
  - destruct (Hproj1 Hne) as (p & Ep & Hin & Hout). rewrite Ep.
    destruct (@Linear_forward_shape _ _ p xn [B; H; W]) as (y & E & Hy);
      [now rewrite Hin|].
    rewrite E; cbn [bind]; clear E. rewrite Hout in Hy. cbn [app] in Hy. rewrite Hp.
    destruct q_stride as [s|].
    + destruct Hq as [Hq1 Hq2].
      destruct (@do_pool_shape _ _ y {| MaxPool2d.kernel_size := s; MaxPool2d.stride := s |}
                  B H W dim_out Hy) as (sc & E & Hsc);
        cbn [MaxPool2d.kernel_size MaxPool2d.stride]; try lia.
      exists sc. split; assumption.
    + exists y. split; [reflexivity | assumption].
Qed.

End GlobalQPool.

Section GlobalQPool2.
Context {A : Type} {SA : Scalar A}.

Lemma attention_forward_pooled_shape (m : MultiScaleAttention.t) (x : tensor A)
  (dim dim_out num_heads : nat) (s : nat * nat)
  (w : MultiScaleAttention.params) (B H W : nat) :
  MultiScaleAttention.__init__ dim (Z.of_nat dim_out) (Z.of_nat num_heads)
    (Some {| MaxPool2d.kernel_size := s; MaxPool2d.stride := s |}) w = Ok m ->
  dim_out mod num_heads = 0 ->
  shape x = [B; H; W; dim] ->
  0 < B -> 0 < fst s <= H -> 0 < snd s <= W ->
  exists y, MultiScaleAttention.forward m x = Ok y /\
    shape y = [B; pooled H (fst s); pooled W (snd s); dim_out].
Proof.
  intros Hi Hdiv Hs HB HH HW.
  destruct (@project_qkv_pooled_shape _ _ m x dim dim_out num_heads s w B H W
              Hi Hdiv Hs HB HH HW)
    as (q & k & v & E & Hq & Hk & Hv).
  apply MultiScaleAttention_init_fields in Hi
    as (_ & _ & _ & _ & Hnh0 & Hhd & _ & _ & Hpi & Hpo).
  unfold MultiScaleAttention.forward. rewrite E. cbn [bind].
  destruct (@attention_tail_shape _ _ m q k v B (pooled H (fst s)) (pooled W (snd s))
              (H * W) num_heads (dim_out / num_heads) Hq Hk Hv)
    as (y & Ey & Hy); try (unfold pooled; lia).
  { rewrite Hpi. pose proof (Nat.div_mod_eq dim_out num_heads). lia. }
  exists y. split; [assumption|]. now rewrite Hy, Hpo.
Qed.

Lemma forward_zero_division (blk : MultiScaleBlock.t) (dim dim_out num_heads : nat)
  (dp : Q) (s0 s1 : nat) (w : MultiScaleBlock.params) (x : tensor A) (B H W : nat) :
  MultiScaleBlock.__init__ dim (Z.of_nat dim_out) (Z.of_nat num_heads) dp (Some (s0, s1)) 0 w = Ok blk ->
  dim_out mod num_heads = 0 ->
  shape x = [B; H; W; dim] ->
  0 < B -> 0 < s0 <= H -> 0 < s1 <= W ->
  MultiScaleBlock.forward blk x = Raise ZeroDivisionError.
Proof.
  intros Hi Hdiv Hs HB HH HW.
  pose proof (@MultiScaleBlock_init_fields _ _ _ _ _ _ _ _ _ Hi)
    as (Hw & Hd & Hdo & Hq & Hp & Hqp & Hattn & _ & _ & Hn1 & Hn2).
  unfold MultiScaleBlock.forward.
  destruct (@TokenLayer_forward_shape _ _ (MultiScaleBlock.norm1 blk) x [B; H; W])
    as (xn & E1 & Hxn); [now rewrite Hn1|].
  rewrite E1; cbn [bind]; clear E1. rewrite Hn2 in Hxn. cbn [app] in Hxn.
  destruct (skip_connection_shape blk _ _ _ _ _ _ _ x xn B H W Hi Hs Hxn) as (sc & E2 & Hsc);
    [cbn; lia|].
  rewrite E2; cbn [bind]; clear E2.
  rewrite Hp in Hattn.
  destruct (attention_forward_pooled_shape _ xn _ _ _ _ _ B H W Hattn Hdiv Hxn HB)
    as (a & Ea & _); [cbn; lia | cbn; lia |].
  apply bind_raise.
  destruct (dim =? dim_out);
    eapply windowed_attention_zero_division; eassumption.
Qed.

End GlobalQPool2.

Section ShippedConfigs.
Context {A : Type}.

Lemma init_q_pool_blocks (a : HieraDet.args) (w : HieraDet.params (A := A)) (m : HieraDet.t) :
  HieraDet.__init__ a w = Ok m ->
  HieraDet.q_pool_blocks m =
  py_slice_to (map (fun x => (x + 1)%Z)
                 (py_init (HieraDet.compute_stage_ends (HieraDet.stages a))))
              (HieraDet.q_pool a).
Proof.
  unfold HieraDet.__init__. intros Hi.
  repeat (bind_inv Hi; clear E). injection Hi as <-. reflexivity.
Qed.

Lemma q_pool_windows_ok_sound (a : HieraDet.args) (w : HieraDet.params (A := A))
  (m : HieraDet.t) :
  q_pool_windows_ok a = true ->
  Forall (fun d => 1 <= d) (HieraDet.stages a) ->
  HieraDet.__init__ a w = Ok m ->
  forall j blk s0 s1,
    nth_error (HieraDet.blocks m) j = Some blk ->
    MultiScaleBlock.q_stride blk = Some (s0, s1) ->
    0 < MultiScaleBlock.window_size blk / s0.
Proof.
  intros Hok Hpos Hi j blk s0 s1 Hj Hq.
  pose proof (stage_ends_NoDup Hpos) as Hnd.
  destruct (init_blocks _ _ Hi Hnd) as (Hends & _ & Hlen & Hall).
  pose proof (init_q_pool_blocks a w m Hi) as Hqpb.
  destruct (Hall _ _ Hj) as (_ & Hw & _ & Hqs & _).
  unfold q_pool_windows_ok in Hok. rewrite forallb_forall in Hok.
  assert (Hjlt : j < sum_nat (HieraDet.stages a)).
  { rewrite <- Hlen. apply nth_error_Some. congruence. }
  specialize (Hok j ltac:(apply in_seq; lia)).
  rewrite Hqpb, Hends in *.
  rewrite Hq in Hqs.
  destruct (py_in (Z.of_nat j) _); [|discriminate].
  injection Hqs as Hqs. cbn [negb orb] in Hok. apply Nat.ltb_lt in Hok.
  rewrite Hw. now rewrite <- Hqs in Hok.
Qed.

End ShippedConfigs.

Section GlobalQPoolClaim.
Context {A : Type} {SA : Scalar A}.

(** C10.  A block built with a query stride and a window size of 0 never
    returns from [forward]: after the attention it takes a remainder
    modulo [window_size // q_stride[0]], which is 0, and on a well-shaped
    input that is the error raised.  The registered variants never build
    such a block: each of their query-pool blocks has a window size that
    stays positive when divided by the stride. *)
Theorem global_attention_with_q_pool_raises :
  (forall (dim dim_out num_heads : nat) (dp : Q) (s0 s1 : nat)
          (w : MultiScaleBlock.params) (blk : MultiScaleBlock.t (A := A)),
     MultiScaleBlock.__init__ dim (Z.of_nat dim_out) (Z.of_nat num_heads) dp (Some (s0, s1)) 0 w = Ok blk ->
     (forall x y, MultiScaleBlock.forward blk x <> Ok y) /\
     (forall x B H W,
        dim_out mod num_heads = 0 -> shape x = [B; H; W; dim] ->
        0 < B -> 0 < s0 <= H -> 0 < s1 <= W ->
        MultiScaleBlock.forward blk x = Raise ZeroDivisionError)) /\
  (forall (a : HieraDet.args) (w : HieraDet.params (A := A)) (m : HieraDet.t),
     In a [HieraDet.sam2_hiera_tiny; HieraDet.sam2_hiera_small;
           HieraDet.sam2_hiera_base_plus; HieraDet.sam2_hiera_large] ->
     HieraDet.__init__ a w = Ok m ->
     forall j blk s0 s1,
       nth_error (HieraDet.blocks m) j = Some blk ->
       MultiScaleBlock.q_stride blk = Some (s0, s1) ->
       0 < MultiScaleBlock.window_size blk /\ 0 < MultiScaleBlock.window_size blk / s0).
Proof.
  split.
  - intros dim dim_out num_heads dp s0 s1 w blk Hi. split.
    + intros x y.
      pose proof (@MultiScaleBlock_init_fields _ _ _ _ _ _ _ _ _ Hi) as (Hw & _ & _ & Hq & _).
      now apply (forward_never_ok blk (s0, s1) x Hw Hq).
    + intros x B H W Hdiv Hs HB HH HW.
      now apply (forward_zero_division blk dim dim_out num_heads dp s0 s1 w x B H W).
  - intros a w m Ha Hi j blk s0 s1 Hj Hq.
    assert (Hpos : 0 < MultiScaleBlock.window_size blk / s0).
    { cbn [In] in Ha.
      destruct Ha as [<-|[<-|[<-|[<-|[]]]]];
        match goal with
        | Hi : HieraDet.__init__ ?a w = Ok m |- _ =>
            apply (q_pool_windows_ok_sound a w m) with (j := j) (blk := blk) (s1 := s1);
              [vm_compute; reflexivity | repeat constructor | assumption ..]
        end. }
    split; [|assumption].
    destruct (MultiScaleBlock.window_size blk); [|lia].
    rewrite Nat.Div0.div_0_l in Hpos. lia.
Qed.

End GlobalQPoolClaim.

Lemma global_attention_with_q_pool_raises_witness :
  match MultiScaleBlock.__init__ 1 2 1 0 (Some (2, 2)) 0 Examples.block_params with
  | Ok blk => MultiScaleBlock.forward blk Examples.x_1221 = Raise ZeroDivisionError
  | Raise _ => False
  end.
Proof.
  destruct (MultiScaleBlock.__init__ 1 2 1 0 (Some (2, 2)) 0 Examples.block_params)
    as [blk|e] eqn:E.
  - apply (proj2 (proj1 (@global_attention_with_q_pool_raises Z Z_scalar)
                    1 2 1 0%Q 2 2 Examples.block_params blk E))
      with (B := 1) (H := 2) (W := 2); [reflexivity | reflexivity | lia | lia | lia].
  - vm_compute in E. discriminate.
Defined.

(** ** The residual shortcut *)

Section Shortcut.
Context {A : Type} {SA : Scalar A}.

(** C2 (amended).  In a block whose input and output dimensions differ,
    the shortcut added after the attention branch is the linear
    projection of the normalised input [norm1(x)], pooled with the very
    pooling the attention applies to its queries; when the dimensions are
    equal it is the block input itself. *)
Theorem shortcut_projects_normalised_input
  (dim dim_out num_heads : nat) (dp : Q) (q_stride : option (nat * nat))
  (window_size : nat) (w : MultiScaleBlock.params) (blk : MultiScaleBlock.t (A := A)) :
  MultiScaleBlock.__init__ dim (Z.of_nat dim_out) (Z.of_nat num_heads) dp q_stride
    window_size w = Ok blk ->
  (forall x y, MultiScaleBlock.forward blk x = Ok y ->
     exists xn shortcut a r n2 ml,
       TokenLayer.forward (MultiScaleBlock.norm1 blk) x = Ok xn /\
       MultiScaleBlock.skip_connection blk x xn = Ok shortcut /\
       MultiScaleBlock.windowed_attention blk shortcut xn = Ok a /\
       tensor_add shortcut (DropPath.forward (MultiScaleBlock.drop_path blk) a) = Ok r /\
       TokenLayer.forward (MultiScaleBlock.norm2 blk) r = Ok n2 /\
       TokenLayer.forward (MultiScaleBlock.mlp blk) n2 = Ok ml /\
       tensor_add r (DropPath.forward (MultiScaleBlock.drop_path blk) ml) = Ok y) /\
  (dim <> dim_out ->
     exists p, MultiScaleBlock.proj blk = Some p /\
       Linear.in_features p = dim /\ Linear.out_features p = dim_out /\
       forall x xn,
         MultiScaleBlock.skip_connection blk x xn =
         (y <- Linear.forward p xn ;;
          do_pool y (MultiScaleAttention.q_pool (MultiScaleBlock.attn blk)) None)) /\
  (dim = dim_out -> forall x xn, MultiScaleBlock.skip_connection blk x xn = Ok x).
Proof.
  intros Hi.
  pose proof (@MultiScaleBlock_init_fields _ _ _ _ _ _ _ _ _ Hi)
    as (_ & Hd & Hdo & _ & _ & Hqp & _ & Hp0 & Hp1 & _).
  split; [|split].
  - intros x y Hf. unfold MultiScaleBlock.forward in Hf.
    bind_inv Hf. rename x0 into xn. bind_inv Hf. rename x0 into sc.
    bind_inv Hf. rename x0 into a. bind_inv Hf. rename x0 into r.
    bind_inv Hf. rename x0 into n2. bind_inv Hf. rename x0 into ml.
    exists xn, sc, a, r, n2, ml. repeat split; assumption.
  - intros Hne. destruct (Hp1 Hne) as (p & Ep & Hin & Hout).
    exists p. repeat split; try assumption.
    intros x xn. unfold MultiScaleBlock.skip_connection.
    rewrite Hd, Hdo, Ep, Hqp. apply Nat.eqb_neq in Hne. now rewrite Hne.
  - intros He x xn. unfold MultiScaleBlock.skip_connection.
    rewrite Hd, Hdo, He, Nat.eqb_refl. reflexivity.
Qed.

End Shortcut.

Lemma shortcut_projects_normalised_input_witness :
  match MultiScaleBlock.__init__ 1 2 1 0 (Some (2, 2)) 2 Examples.block_params with
  | Ok blk =>
      exists p, MultiScaleBlock.proj blk = Some p /\
        Linear.in_features p = 1 /\ Linear.out_features p = 2 /\
        forall x xn : tensor Z,
          MultiScaleBlock.skip_connection blk x xn =
          (y <- Linear.forward p xn ;;
           do_pool y (MultiScaleAttention.q_pool (MultiScaleBlock.attn blk)) None)
  | Raise _ => False
  end.
Proof.
  destruct (MultiScaleBlock.__init__ 1 2 1 0 (Some (2, 2)) 2 Examples.block_params)
    as [blk|e] eqn:E.
  - apply (proj1 (proj2 (@shortcut_projects_normalised_input Z Z_scalar
                           1 2 1 0%Q (Some (2, 2)) 2 Examples.block_params blk E))).
    lia.
  - vm_compute in E. discriminate.
Defined.

(** The shortcut is not the projection of the input before
    normalisation: with a normalisation that centres a single channel to
    0, the code's shortcut is all zeros while the projection of the raw
    input is not. *)
Lemma shortcut_is_not_pre_norm_projection :
  exists blk xn,
    MultiScaleBlock.__init__ 1 2 1 0 (Some (2, 2)) 2 Examples.centring_block_params = Ok blk /\
    TokenLayer.forward (MultiScaleBlock.norm1 blk) Examples.x_1221 = Ok xn /\
    MultiScaleBlock.skip_connection blk Examples.x_1221 xn =
      Ok (mkTensor [1; 1; 1; 2] [0; 0]%Z) /\
    skip_connection_pre_norm blk Examples.x_1221 =
      Ok (mkTensor [1; 1; 1; 2] [4; 4]%Z) /\
    MultiScaleBlock.skip_connection blk Examples.x_1221 xn <>
      skip_connection_pre_norm blk Examples.x_1221.
Proof.
  eexists. eexists. split; [vm_compute; reflexivity|].
  split; [vm_compute; reflexivity|].
  split; [vm_compute; reflexivity|].
  split; [vm_compute; reflexivity|].
  vm_compute. discriminate.
Qed.

(** ** Query pooling *)

Section WindowShapes.
Context {A : Type} {SA : Scalar A}.

Lemma padded_extent (n ws : nat) :
  0 < ws -> n + (ws - n mod ws) mod ws = windows_along n ws * ws.
Proof. intros Hws. apply (pad_amount n Hws). Qed.

Lemma windows_along_ceil (n ws : nat) :
  0 < ws -> windows_along n ws = (n + ws - 1) / ws.
Proof.
  intros Hws. pose proof (padded_extent n ws Hws) as E.
  pose proof (Nat.mod_upper_bound (ws - n mod ws) ws ltac:(lia)) as Hp.
  set (p := (ws - n mod ws) mod ws) in *. set (k := windows_along n ws) in *.
  apply Nat.div_unique with (r := ws - 1 - p); lia.
Qed.

Lemma windows_along_pos (n ws : nat) : 0 < ws -> 0 < n -> 0 < windows_along n ws.
Proof.
  intros Hws Hn. pose proof (padded_extent n ws Hws).
  destruct (windows_along n ws); lia.
Qed.

Lemma windows_along_half (n ws : nat) :
  0 < ws -> windows_along (2 * n) (2 * ws) = windows_along n ws.
Proof.
  intros Hws. rewrite !windows_along_ceil by lia.
  pose proof (Nat.div_mod_eq (n + ws - 1) ws) as E.
  pose proof (Nat.mod_upper_bound (n + ws - 1) ws ltac:(lia)) as Hr.
  symmetry. apply Nat.div_unique with (r := 2 * ((n + ws - 1) mod ws) + 1); nia.
Qed.

Lemma F_pad_shape (x : tensor A) (B H W C pw ph : nat) :
  shape x = [B; H; W; C] ->
  exists y, F_pad x [0; 0; 0; pw; 0; ph] = Ok y /\ shape y = [B; H + ph; W + pw; C].
Proof.
  intros Hs. unfold F_pad. rewrite Hs. cbn.
  eexists; split; [reflexivity|]. cbn. now rewrite !Nat.add_0_r.
Qed.

Lemma window_partition_shape (x : tensor A) (B H W C ws : nat) :
  shape x = [B; H; W; C] -> 0 < ws -> 0 < B -> 0 < H -> 0 < W -> 0 < C ->
  exists wins,
    hieradet_sam2.window_partition x ws =
      Ok (wins, (windows_along H ws * ws, windows_along W ws * ws)) /\
    shape wins = [B * windows_along H ws * windows_along W ws; ws; ws; C].
Proof.
  intros Hs Hws HB HH HW HC.
  pose proof (padded_extent H ws Hws) as Hph. pose proof (padded_extent W ws Hws) as Hpw.
  pose proof (windows_along_pos H ws Hws HH) as HnH. pose proof (windows_along_pos W ws Hws HW) as HnW.
  unfold hieradet_sam2.window_partition. rewrite Hs.
  rewrite (py_mod_ok H Hws). cbn [bind]. rewrite (py_mod_ok _ Hws). cbn [bind].
  rewrite (py_mod_ok W Hws). cbn [bind]. rewrite (py_mod_ok _ Hws). cbn [bind].
  destruct (@F_pad_shape x B H W C ((ws - W mod ws) mod ws) ((ws - H mod ws) mod ws) Hs)
    as (x1 & E1 & H1).
  rewrite E1; cbn [bind]; clear E1. rewrite Hph, Hpw in *.
  rewrite !py_floordiv_ok by assumption. cbn [bind]. rewrite !Nat.div_mul by lia.
  destruct (@view_known_shape _ x1
              [D B; D (windows_along H ws); D ws; D (windows_along W ws); D ws; D C])
    as (x2 & E2 & H2); [reflexivity | rewrite H1; cbn; ring |].
  rewrite E2; cbn [bind]; clear E2. cbn [known_dims flat_map app] in H2.
  destruct (@permute_shape _ _ x2 [0; 1; 3; 2; 4; 5]) as (x3 & E3 & H3); [now rewrite H2|].
  rewrite E3; cbn [bind]; clear E3. rewrite H2 in H3. cbn [map nth] in H3.
  unfold contiguous.
  destruct (@view_infer_shape _ x3 [Infer; D ws; D ws; D C]
              (B * windows_along H ws * windows_along W ws))
    as (x4 & E4 & H4); [reflexivity | nonzero | rewrite H3; cbn; ring |].
  rewrite E4; cbn [bind]; clear E4.
  exists x4. split; [reflexivity | exact H4].
Qed.

Lemma slice_to_shape (x : tensor A) (stops : list (option nat)) :
  length stops <= length (shape x) ->
  exists y, slice_to x stops = Ok y /\ shape y = slice_shape (shape x) stops.
Proof.
  intros Hl. unfold slice_to. apply Nat.leb_le in Hl. rewrite Hl.
  eexists; split; reflexivity.
Qed.

Lemma window_unpartition_shape (wins : tensor A) (B nh nw ws C H W : nat) :
  shape wins = [B * nh * nw; ws; ws; C] ->
  0 < B -> 0 < nh -> 0 < nw -> 0 < ws -> 0 < C ->
  H <= nh * ws -> W <= nw * ws ->
  exists y,
    hieradet_sam2.window_unpartition wins ws (nh * ws, nw * ws) (H, W) = Ok y /\
    shape y = [B; H; W; C].
Proof.
  intros Hw HB Hnh Hnw Hws HC HH HW.
  unfold hieradet_sam2.window_unpartition. rewrite Hw.
  rewrite (py_floordiv_ok _ Hws). cbn [bind].
  rewrite (py_floordiv_ok _ Hws). cbn [bind].
  replace (nh * ws * (nw * ws) / ws / ws) with (nh * nw).
  2:{ replace (nh * ws * (nw * ws)) with (nh * nw * ws * ws) by ring.
      now rewrite !Nat.div_mul by lia. }
  rewrite py_floordiv_ok by nia. cbn [bind].
  replace (B * nh * nw / (nh * nw)) with B
    by (rewrite <- Nat.mul_assoc, Nat.div_mul by nia; reflexivity).
  rewrite !(py_floordiv_ok _ Hws). cbn [bind].
  rewrite !Nat.div_mul by lia.
  destruct (@view_infer_shape _ wins [D B; D nh; D nw; D ws; D ws; Infer] C)
    as (x1 & E1 & H1); [reflexivity | nonzero | rewrite Hw; cbn; ring |].
  rewrite E1; cbn [bind]; clear E1. cbn [fill_dims map] in H1.
  destruct (@permute_shape _ _ x1 [0; 1; 3; 2; 4; 5]) as (x2 & E2 & H2); [now rewrite H1|].
  rewrite E2; cbn [bind]; clear E2. rewrite H1 in H2. cbn [map nth] in H2.
  unfold contiguous.
  destruct (@view_infer_shape _ x2 [D B; D (nh * ws); D (nw * ws); Infer] C)
    as (x3 & E3 & H3); [reflexivity | nonzero | rewrite H2; cbn; ring |].
  rewrite E3; cbn [bind]; clear E3. cbn [fill_dims map] in H3.
  destruct (@slice_to_shape x3 [None; Some H; Some W; None]) as (x4 & E4 & H4);
    [rewrite H3; cbn; lia|].
  rewrite E4; cbn [bind]; clear E4. rewrite H3 in H4. cbn [slice_shape] in H4.
  rewrite !Nat.min_l in H4 by assumption.
  exists x4. split; [reflexivity | exact H4].
Qed.

Lemma broadcast_rev_same (s : list nat) : broadcast_rev s s = Ok s.
Proof.
  induction s as [|a s IH]; [reflexivity|]. cbn. rewrite IH. cbn.
  now rewrite Nat.eqb_refl.
Qed.

Lemma tensor_add_shape (a b : tensor A) :
  shape a = shape b -> exists y, tensor_add a b = Ok y /\ shape y = shape a.
Proof.
  intros Hs. unfold tensor_add, broadcast_shapes. rewrite <- Hs, broadcast_rev_same.
  cbn [bind]. rewrite rev_involutive. eexists; split; reflexivity.
Qed.

End WindowShapes.

Section BlockFields.
Context {A : Type}.

Lemma MultiScaleBlock_init_norm2_mlp (dim dim_out num_heads : nat) (dp : Q)
  (q_stride : option (nat * nat)) (window_size : nat)
  (w : MultiScaleBlock.params (A := A)) (blk : MultiScaleBlock.t) :
  MultiScaleBlock.__init__ dim (Z.of_nat dim_out) (Z.of_nat num_heads) dp q_stride
    window_size w = Ok blk ->
  TokenLayer.features (MultiScaleBlock.norm2 blk) = dim_out /\
  TokenLayer.features_out (MultiScaleBlock.norm2 blk) = dim_out /\
  TokenLayer.features (MultiScaleBlock.mlp blk) = dim_out /\
  TokenLayer.features_out (MultiScaleBlock.mlp blk) = dim_out.
Proof.
  unfold MultiScaleBlock.__init__. intros Hi. bind_inv Hi.
  rewrite size_of_int_nat in Hi. cbn [bind] in Hi.
  injection Hi as <-. cbn. auto.
Qed.

End BlockFields.

Section PooledBlock.
Context {A : Type} {SA : Scalar A}.

Lemma pooled_2 (n : nat) : 2 <= n -> pooled n 2 = n / 2.
Proof.
  intros Hn. unfold pooled.
  replace n with (n - 2 + 1 * 2) at 2 by lia.
  rewrite Nat.div_add by lia. reflexivity.
Qed.

Lemma even_double (n : nat) : Nat.even n = true -> n = 2 * (n / 2).
Proof.
  intros He. apply Nat.even_spec in He. destruct He as [k ->].
  now rewrite Nat.mul_comm, Nat.div_mul, Nat.mul_comm by lia.
Qed.

Lemma DropPath_forward_shape (l : DropPath.t) (x : tensor A) :
  shape (DropPath.forward l x) = shape x.
Proof. reflexivity. Qed.

(** A query-pool block with stride (2, 2) on a map whose height, width
    and window size are even: the map is halved along both axes. *)
Lemma forward_pooled_shape (blk : MultiScaleBlock.t) (dim dim_out num_heads : nat)
  (dp : Q) (ws : nat) (w : MultiScaleBlock.params) (x : tensor A) (B H W : nat) :
  MultiScaleBlock.__init__ dim (Z.of_nat dim_out) (Z.of_nat num_heads) dp (Some (2, 2)) ws w = Ok blk ->
  dim <> dim_out -> dim_out mod num_heads = 0 ->
  0 < ws -> Nat.even ws = true ->
  shape x = [B; H; W; dim] ->
  0 < B -> 0 < H -> 0 < W -> 0 < dim ->
  Nat.even H = true -> Nat.even W = true ->
  exists y, MultiScaleBlock.forward blk x = Ok y /\ shape y = [B; H / 2; W / 2; dim_out].
Proof.
  intros Hi Hne Hdiv Hws Hwe Hs HB HH HW Hdim HHe HWe.
  pose proof (@MultiScaleBlock_init_fields _ _ _ _ _ _ _ _ _ Hi)
    as (Hw & Hd & Hdo & Hq & Hp & Hqp & Hattn & _ & _ & Hn1 & Hn2).
  pose proof (even_double H HHe) as EH. pose proof (even_double W HWe) as EW.
  pose proof (even_double ws Hwe) as Ews.
  set (h := H / 2) in *. set (wd := W / 2) in *. set (u := ws / 2) in *.
  assert (Hh : 0 < h) by lia. assert (Hwd : 0 < wd) by lia. assert (Hu : 0 < u) by lia.
  assert (Hdo0 : 0 < dim_out).
  { apply MultiScaleAttention_init_fields in Hattn as (_ & _ & _ & _ & Hnh & Hhd & _).
    destruct dim_out; [|lia]. rewrite Nat.Div0.div_0_l in Hhd. lia. }
  unfold MultiScaleBlock.forward.
  (* norm1 *)
  destruct (@TokenLayer_forward_shape _ _ (MultiScaleBlock.norm1 blk) x [B; H; W])
    as (xn & E1 & Hxn); [now rewrite Hn1|].
  rewrite E1; cbn [bind]; clear E1. rewrite Hn2 in Hxn. cbn [app] in Hxn.
  (* skip connection *)
  destruct (skip_connection_shape blk _ _ _ _ _ _ _ x xn B H W Hi Hs Hxn)
    as (sc & E2 & Hsc); [cbn; lia|].
  rewrite E2; cbn [bind]; clear E2.
  apply Nat.eqb_neq in Hne. rewrite Hne in Hsc. cbn [fst snd] in Hsc.
  rewrite !pooled_2 in Hsc by lia. fold h wd in Hsc.
  (* windowed attention *)
  assert (Ha : exists a, MultiScaleBlock.windowed_attention blk sc xn = Ok a /\
                         shape a = [B; h; wd; dim_out]).
  { unfold MultiScaleBlock.windowed_attention. rewrite Hw, Hq.
    apply Nat.ltb_lt in Hws as Hwsb. rewrite Hwsb.
    destruct (window_partition_shape xn B H W dim ws Hxn Hws HB HH HW Hdim)
      as (wins & E3 & Hwins).
    rewrite E3; cbn [bind]; clear E3.
    set (nh := windows_along H ws) in *. set (nw := windows_along W ws) in *.
    assert (Hnh : 0 < nh) by (apply windows_along_pos; lia).
    assert (Hnw : 0 < nw) by (apply windows_along_pos; lia).
    rewrite Hp in Hattn.
    destruct (attention_forward_pooled_shape _ wins _ _ _ _ _ (B * nh * nw) ws ws
                Hattn Hdiv Hwins) as (a & Ea & Hashape);
      [nia | cbn; lia | cbn; lia |].
    rewrite Ea; cbn [bind]; clear Ea. cbn [fst snd] in Hashape.
    rewrite !pooled_2 in Hashape by lia. fold u in Hashape.
    rewrite py_floordiv_ok by lia. cbn [bind]. fold u.
    unfold MultiScaleBlock.shape_1_3. rewrite Hsc. cbn [skipn firstn MultiScaleBlock.getitem nth_error bind].
    repeat (rewrite (py_mod_ok _ Hu); cbn [bind]).
    cbn [MultiScaleBlock.unpack2 bind].
    rewrite (padded_extent h u Hu), (padded_extent wd u Hu).
    assert (Enh : windows_along h u = nh).
    { subst nh. rewrite EH, Ews. symmetry. now apply windows_along_half. }
    assert (Enw : windows_along wd u = nw).
    { subst nw. rewrite EW, Ews. symmetry. now apply windows_along_half. }
    rewrite Enh, Enw.
    destruct (window_unpartition_shape a B nh nw u dim_out h wd Hashape)
      as (y & Ey & Hy); try lia.
    { rewrite <- Enh, <- padded_extent by lia. lia. }
    { rewrite <- Enw, <- padded_extent by lia. lia. }
    exists y. split; assumption. }
  destruct Ha as (a & Ea & Hashape). rewrite Ea; cbn [bind]; clear Ea.
  (* residual adds *)
  destruct (tensor_add_shape sc (DropPath.forward (MultiScaleBlock.drop_path blk) a))
    as (r & Er & Hr); [now rewrite DropPath_forward_shape, Hsc, Hashape|].
  rewrite Er; cbn [bind]; clear Er. rewrite Hsc in Hr.
  pose proof (@MultiScaleBlock_init_norm2_mlp _ _ _ _ _ _ _ _ _ Hi) as (Hm1 & Hm2 & Hm3 & Hm4).
  destruct (@TokenLayer_forward_shape _ _ (MultiScaleBlock.norm2 blk) r [B; h; wd])
    as (n2 & E4 & Hn2s); [now rewrite Hm1|].
  rewrite E4; cbn [bind]; clear E4. rewrite Hm2 in Hn2s.
  destruct (@TokenLayer_forward_shape _ _ (MultiScaleBlock.mlp blk) n2 [B; h; wd])
    as (ml & E5 & Hml); [now rewrite Hm3|].
  rewrite E5; cbn [bind]; clear E5. rewrite Hm4 in Hml.
  destruct (tensor_add_shape r (DropPath.forward (MultiScaleBlock.drop_path blk) ml))
    as (y & Ey & Hy); [now rewrite DropPath_forward_shape, Hr, Hml|].
  exists y. split; [assumption|]. now rewrite Hy, Hr.
Qed.

End PooledBlock.

Section FloatArith.

Lemma Qred_inject_Z (z : Z) : Qred (inject_Z z) = inject_Z z.
Proof.
  unfold Qred, inject_Z.
  pose proof (Z.ggcd_gcd z 1) as Hg. pose proof (Z.ggcd_correct_divisors z 1) as Hd.
  destruct (Z.ggcd z 1) as [g [aa bb]]. cbn [fst snd] in *.
  rewrite Z.gcd_1_r in Hg. subst g. destruct Hd as [Ha Hb].
  assert (Ea : aa = z) by lia. assert (Eb : bb = 1%Z) by lia.
  rewrite Ea, Eb. reflexivity.
Qed.

Lemma float_round_Qeq (q q' : Q) : Qeq q q' -> float_round q = float_round q'.
Proof. intros E. unfold float_round. now rewrite (Qred_complete _ _ E). Qed.

Lemma round_half_even_1 (n : Z) : round_half_even n 1 = n.
Proof.
  unfold round_half_even. rewrite Z.mod_1_r, Z.div_1_r. reflexivity.
Qed.

Lemma round_pos_integer (z : Z) :
  (0 < z < 2 ^ 53)%Z -> round_pos z 1 = Some (inject_Z z).
Proof.
  intros [Hz Hlt]. unfold round_pos, log2_ratio.
  change (Z.log2 1) with 0%Z. rewrite Z.sub_0_r.
  pose proof (Z.log2_nonneg z) as Hl0.
  pose proof (Z.log2_spec z Hz) as [Hl1 _].
  assert (Hl2 : (Z.log2 z < 53)%Z) by (apply Z.log2_lt_pow2; assumption).
  set (l := Z.log2 z) in *.
  destruct (Z.leb_spec 0 l) as [_|]; [|lia].
  destruct (Z.leb_spec (1 * 2 ^ l) z) as [_|]; [|lia].
  rewrite Z.max_l by lia.
  destruct (Z.leb_spec 0 (l - 52)) as [He|He].
  - assert (l = 52)%Z by lia. subst l. replace (Z.log2 z - 52)%Z with 0%Z by lia.
    change (1 * 2 ^ 0)%Z with 1%Z. rewrite round_half_even_1.
    change (2 ^ 0)%Z with 1%Z. rewrite Z.mul_1_r.
    assert (Hp : (2 ^ 53 < 2 ^ 1024)%Z) by (apply Z.pow_lt_mono_r; lia).
    destruct (Z.leb_spec (2 ^ 1024) z); [lia|]. reflexivity.
  - rewrite round_half_even_1. f_equal.
    rewrite <- (Qred_inject_Z z). apply Qred_complete.
    assert (Hk : (0 < 2 ^ (- (l - 52)))%Z) by (apply Z.pow_pos_nonneg; lia).
    unfold Qeq, inject_Z. cbn [Qnum Qden]. rewrite Z2Pos.id by assumption. ring.
Qed.

Lemma float_round_integer (z : Z) :
  (Z.abs z < 2 ^ 53)%Z -> float_round (inject_Z z) = Fin (inject_Z z).
Proof.
  intros Hz. unfold float_round. rewrite Qred_inject_Z. cbn [inject_Z Qnum Qden].
  destruct z as [|p|p]; [reflexivity| |].
  - rewrite round_pos_integer by lia. reflexivity.
  - rewrite round_pos_integer by lia. reflexivity.
Qed.

Lemma float_of_int_exact (z : Z) :
  (Z.abs z < 2 ^ 53)%Z -> float_of_int z = Ok (Fin (inject_Z z)).
Proof. intros Hz. unfold float_of_int. now rewrite float_round_integer. Qed.

Lemma py_int_integer (z : Z) : py_int (Fin (inject_Z z)) = Ok z.
Proof.
  unfold py_int. destruct (Qle_bool 0 (inject_Z z)); f_equal;
    [apply Qfloor_Z | apply Qceiling_Z].
Qed.

(** With an integral factor the product is exact. *)
Lemma int_mul_integer (n k : Z) :
  (Z.abs n < 2 ^ 53)%Z -> (Z.abs k < 2 ^ 53)%Z -> (Z.abs (n * k) < 2 ^ 53)%Z ->
  int_mul n (inject_Z k) = Ok (n * k)%Z.
Proof.
  intros Hn Hk Hnk. unfold int_mul. rewrite float_of_int_exact by assumption.
  cbn [bind]. rewrite (float_round_integer k Hk). cbn [float_mul].
  rewrite <- inject_Z_mult.
  rewrite float_round_integer by assumption. apply py_int_integer.
Qed.



Lemma int_mul_Qeq (n : Z) (f f' : Q) : Qeq f f' -> int_mul n f = int_mul n f'.
Proof. intros E. unfold int_mul. now rewrite (float_round_Qeq f f' E). Qed.

End FloatArith.

Section BuiltBlocks.
Context {A : Type}.

(** The loop of the constructor appends one block per index: each block
    of the result was built by the iteration of its index. *)
Lemma loop_appends (a : HieraDet.args) (w : HieraDet.params (A := A))
  (ends qpb : list Z) (dpr : list Q) (n : nat) :
  forall (k : nat) (st st' : HieraDet.loop_state),
  HieraDet.loop a w ends qpb dpr (seq k n) st = Ok st' ->
  exists l,
    HieraDet.st_blocks st' = HieraDet.st_blocks st ++ l /\ length l = n /\
    forall d blk, nth_error l d = Some blk ->
      exists stj stj',
        HieraDet.loop_body a w ends qpb dpr stj (k + d) = Ok stj' /\
        HieraDet.st_blocks stj' = HieraDet.st_blocks stj ++ [blk].
Proof.
  induction n as [|n IH]; intros k st st' Hl.
  - cbn in Hl. injection Hl as <-. exists []. rewrite app_nil_r.
    repeat split. intros [|d] blk Hd; discriminate.
  - cbn [seq HieraDet.loop] in Hl. bind_inv Hl. rename x into st1.
    pose proof E as Eb. apply loop_body_ok in Eb as (b & Hb & _).
    destruct (IH (S k) st1 st' Hl) as (l & Hl' & Hlen & Hall).
    exists (b :: l). rewrite Hl', Hb, <- app_assoc. repeat split.
    + cbn. now rewrite Hlen.
    + intros [|d] blk Hd.
      * cbn in Hd. injection Hd as <-. rewrite Nat.add_0_r. eauto.
      * cbn in Hd. rewrite <- Nat.add_succ_comm. now apply Hall.
Qed.

Lemma init_stage_ends (a : HieraDet.args) (w : HieraDet.params (A := A)) (m : HieraDet.t) :
  HieraDet.__init__ a w = Ok m ->
  HieraDet.stage_ends m = HieraDet.compute_stage_ends (HieraDet.stages a) /\
  length (HieraDet.stages a) = length (HieraDet.window_spec a) /\
  length (HieraDet.blocks m) = sum_nat (HieraDet.stages a).
Proof.
  unfold HieraDet.__init__. intros Hi.
  bind_inv Hi. apply py_assert_ok, Nat.eqb_eq in E. rename E into Hlen.
  bind_inv Hi. clear E. bind_inv Hi. clear E.
  bind_inv Hi. rename x2 into st.
  bind_inv Hi. injection Hi as <-. cbn.
  destruct (loop_appends _ _ _ _ _ _ _ _ _ E) as (l & Hl & Hn & _).
  cbn in Hl. rewrite Hl. auto.
Qed.

Lemma init_block_built (a : HieraDet.args) (w : HieraDet.params (A := A)) (m : HieraDet.t)
  (j : nat) (blk : MultiScaleBlock.t) :
  HieraDet.__init__ a w = Ok m ->
  nth_error (HieraDet.blocks m) j = Some blk ->
  exists dpr st st',
    HieraDet.loop_body a w (HieraDet.stage_ends m) (HieraDet.q_pool_blocks m) dpr st j
      = Ok st' /\
    HieraDet.st_blocks st' = HieraDet.st_blocks st ++ [blk].
Proof.
  unfold HieraDet.__init__. intros Hi Hj.
  bind_inv Hi. clear E. bind_inv Hi. clear E. bind_inv Hi. clear E.
  bind_inv Hi. rename x2 into st.
  bind_inv Hi. injection Hi as <-. cbn in *.
  destruct (loop_appends _ _ _ _ _ _ _ _ _ E) as (l & Hl & _ & Hall).
  cbn in Hl. rewrite Hl in Hj.
  destruct (Hall j blk Hj) as (stj & stj' & Eb & Happ).
  cbn in Eb. eauto.
Qed.

End BuiltBlocks.

Section QueryPooling.
Context {A : Type} {SA : Scalar A}.

Lemma In_firstn {T : Type} (n : nat) (l : list T) (x : T) : In x (firstn n l) -> In x l.
Proof.
  intros Hx. rewrite <- (firstn_skipn n l). apply in_or_app. now left.
Qed.

Lemma q_pool_block_after_stage_end (ends : list Z) (q j : Z) :
  py_in j (py_slice_to (map (fun x => (x + 1)%Z) (py_init ends)) q) = true ->
  py_in (j - 1) ends = true.
Proof.
  intros Hj. apply py_in_spec in Hj. apply py_in_spec.
  unfold py_slice_to, py_init in Hj. apply In_firstn in Hj.
  apply in_map_iff in Hj as (e & <- & He). apply In_firstn in He.
  now replace (e + 1 - 1)%Z with e by lia.
Qed.

(** C4 (amended).  With a query stride of (2, 2) the max-pool is applied
    to the queries only.  In the attention module, keys and values keep
    the [H * W] tokens of the input while the queries and the output have
    [floor(H/2) * floor(W/2)] tokens: a quarter of [H * W] when [H] and
    [W] are even.  A block built with that stride, [dim <> dim_out] and
    an even window size halves every map of even height and width along
    both axes, which divides the token count by four.  In the blocks the
    constructor of HieraDet builds with query pooling, the channel count
    goes from [dim] to [dim_out = int(dim * dim_mul)], the float product
    truncated: [k * dim] when the factor is an integer [k] and the
    numbers are below [2 ^ 53]. *)
Theorem query_pooling_shapes :
  (forall (m : MultiScaleAttention.t (A := A)) (dim dim_out num_heads : nat)
          (w : MultiScaleAttention.params) (x : tensor A) (B H W : nat),
     MultiScaleAttention.__init__ dim (Z.of_nat dim_out) (Z.of_nat num_heads)
       (Some {| MaxPool2d.kernel_size := (2, 2); MaxPool2d.stride := (2, 2) |}) w = Ok m ->
     dim_out mod num_heads = 0 ->
     shape x = [B; H; W; dim] -> 0 < B -> 2 <= H -> 2 <= W ->
     exists q k v y,
       MultiScaleAttention.project_qkv m x = Ok (q, k, v, (B, H / 2, W / 2)) /\
       shape q = [B; (H / 2) * (W / 2); num_heads; dim_out / num_heads] /\
       shape k = [B; H * W; num_heads; dim_out / num_heads] /\
       shape v = [B; H * W; num_heads; dim_out / num_heads] /\
       MultiScaleAttention.forward m x = Ok y /\
       shape y = [B; H / 2; W / 2; dim_out] /\
       (Nat.even H = true -> Nat.even W = true -> 4 * ((H / 2) * (W / 2)) = H * W)) /\
  (forall (blk : MultiScaleBlock.t (A := A)) (dim dim_out num_heads : nat) (dp : Q)
          (ws : nat) (w : MultiScaleBlock.params) (x : tensor A) (B H W : nat),
     MultiScaleBlock.__init__ dim (Z.of_nat dim_out) (Z.of_nat num_heads) dp
       (Some (2, 2)) ws w = Ok blk ->
     dim <> dim_out -> dim_out mod num_heads = 0 ->
     0 < ws -> Nat.even ws = true ->
     shape x = [B; H; W; dim] ->
     0 < B -> 0 < H -> 0 < W -> 0 < dim ->
     Nat.even H = true -> Nat.even W = true ->
     exists y, MultiScaleBlock.forward blk x = Ok y /\
       shape y = [B; H / 2; W / 2; dim_out] /\
       4 * ((H / 2) * (W / 2)) = H * W) /\
  (forall (a : HieraDet.args) (w : HieraDet.params (A := A)) (m : HieraDet.t)
          (j : nat) (blk : MultiScaleBlock.t),
     HieraDet.__init__ a w = Ok m ->
     nth_error (HieraDet.blocks m) j = Some blk ->
     py_in (Z.of_nat j) (HieraDet.q_pool_blocks m) = true ->
     MultiScaleBlock.q_stride blk = Some (HieraDet.q_stride a) /\
     int_mul (Z.of_nat (MultiScaleBlock.dim blk)) (HieraDet.dim_mul a)
       = Ok (Z.of_nat (MultiScaleBlock.dim_out blk)) /\
     (forall k : nat,
        Qeq (HieraDet.dim_mul a) (inject_Z (Z.of_nat k)) ->
        (Z.of_nat (MultiScaleBlock.dim blk) < 2 ^ 53)%Z -> (Z.of_nat k < 2 ^ 53)%Z ->
        (Z.of_nat (k * MultiScaleBlock.dim blk) < 2 ^ 53)%Z ->
        MultiScaleBlock.dim_out blk = k * MultiScaleBlock.dim blk)).
Proof.
  split; [|split].
  - intros m dim dim_out num_heads w x B H W Hi Hdiv Hs HB HH HW.
    destruct (@project_qkv_pooled_shape _ _ m x dim dim_out num_heads (2, 2) w B H W
                Hi Hdiv Hs HB) as (q & k & v & E & Hq & Hk & Hv); [cbn; lia | cbn; lia |].
    destruct (attention_forward_pooled_shape m x dim dim_out num_heads (2, 2) w B H W
                Hi Hdiv Hs HB) as (y & Ey & Hy); [cbn; lia | cbn; lia |].
    cbn [fst snd] in *. rewrite !pooled_2 in * by assumption.
    exists q, k, v, y. repeat split; try assumption.
    intros HHe HWe.
    pose proof (even_double H HHe). pose proof (even_double W HWe). nia.
  - intros blk dim dim_out num_heads dp ws w x B H W Hi Hne Hdiv Hws Hwe Hs HB HH HW Hd HHe HWe.
    destruct (forward_pooled_shape blk dim dim_out num_heads dp ws w x B H W
                Hi Hne Hdiv Hws Hwe Hs HB HH HW Hd HHe HWe) as (y & Ey & Hy).
    exists y. repeat split; try assumption.
    pose proof (even_double H HHe). pose proof (even_double W HWe). nia.
  - intros a w m j blk Hi Hj Hin.
    destruct (init_block_built a w m j blk Hi Hj) as (dpr & st & st' & Eb & Happ).
    apply loop_body_ok in Eb as (blk' & Happ' & _ & _ & _ & _ & _ & Hdo & Hqs & _).
    rewrite Happ in Happ'. apply app_inj_tail in Happ' as [_ <-].
    rewrite Hin in Hqs.
    destruct (init_stage_ends a w m Hi) as (Hends & _).
    pose proof (init_q_pool_blocks a w m Hi) as Hqpb. rewrite Hqpb, <- Hends in Hin.
    apply q_pool_block_after_stage_end in Hin. rewrite Hin in Hdo.
    repeat split; try assumption.
    intros k Hk Hb1 Hb2 Hb3.
    rewrite (int_mul_Qeq _ _ _ Hk), int_mul_integer in Hdo by lia.
    injection Hdo as Hdo. lia.
Qed.

End QueryPooling.

Lemma query_pooling_shapes_witness :
  match MultiScaleBlock.__init__ 1 2 1 0 (Some (2, 2)) 2 Examples.block_params with
  | Ok blk =>
      exists y, MultiScaleBlock.forward blk Examples.x_1441 = Ok y /\
        shape y = [1; 4 / 2; 4 / 2; 2] /\ 4 * ((4 / 2) * (4 / 2)) = 4 * 4
  | Raise _ => False
  end.
Proof.
  destruct (MultiScaleBlock.__init__ 1 2 1 0 (Some (2, 2)) 2 Examples.block_params)
    as [blk|e] eqn:E.
  - apply (proj1 (proj2 (@query_pooling_shapes Z Z_scalar))
             blk 1 2 1 0%Q 2 Examples.block_params Examples.x_1441 1 4 4 E);
      solve [reflexivity | lia].
  - vm_compute in E. discriminate.
Defined.

(** A query-pool block does not always divide the token count by four,
    nor multiply the channel count by the factor: on a 3 x 3 map
    (9 tokens) a block of window size 4 leaves 1 token, and with a factor
    of 1.3 the constructor turns 96 channels into 124, where
    96 * 1.3 = 124.8. *)
Lemma query_pool_not_a_quarter :
  (exists blk y,
     MultiScaleBlock.__init__ 1 2 1 0 (Some (2, 2)) 4 Examples.block_params = Ok blk /\
     shape Examples.x_1331 = [1; 3; 3; 1] /\
     MultiScaleBlock.forward blk Examples.x_1331 = Ok y /\
     shape y = [1; 1; 1; 2] /\
     4 * (1 * 1) <> 3 * 3) /\
  (exists m blk,
     HieraDet.__init__ Examples.fractional_args Examples.params = Ok m /\
     nth_error (HieraDet.blocks m) 1 = Some blk /\
     py_in 1 (HieraDet.q_pool_blocks m) = true /\
     MultiScaleBlock.dim blk = 96 /\ MultiScaleBlock.dim_out blk = 124 /\
     ~ Qeq (inject_Z 124) (Qmult (inject_Z 96) (HieraDet.dim_mul Examples.fractional_args))).
Proof.
  split.
  - eexists. eexists. split; [vm_compute; reflexivity|].
    split; [reflexivity|].
    split; [vm_compute; reflexivity|].
    split; [reflexivity | lia].
  - eexists. eexists. split; [vm_compute; reflexivity|].
    split; [reflexivity|]. split; [reflexivity|].
    split; [reflexivity|]. split; [reflexivity|].
    vm_compute. discriminate.
Qed.

(** ** Early exit of the traversal *)

Section EarlyExit.
Context {A : Type} {SA : Scalar A}.
Variable bicubic : tensor A -> nat * nat -> list nat -> A.

Lemma run_blocks_calls (bl : list (nat * MultiScaleBlock.t)) (take : list Z) (nchw : bool) :
  forall (x : tensor A) ints calls y ints' calls',
  HieraDet.run_blocks bl take nchw x ints calls = Ok (y, ints', calls') ->
  calls' = calls ++ map fst bl.
Proof.
  induction bl as [|[i blk] bl IH]; intros x ints calls y ints' calls' Hr.
  - cbn in Hr. injection Hr as _ _ <-. now rewrite app_nil_r.
  - cbn [HieraDet.run_blocks] in Hr. bind_inv Hr. bind_inv Hr.
    apply IH in Hr. rewrite Hr, <- app_assoc. reflexivity.
Qed.

(** A run over a prefix of the blocks, taking a subset of the indices,
    succeeds whenever the full run does. *)
Lemma run_blocks_prefix (l1 l2 : list (nat * MultiScaleBlock.t)) (take1 take : list Z)
  (nchw : bool) :
  (forall i, py_in i take1 = true -> py_in i take = true) ->
  forall (x : tensor A) ints1 ints calls1 calls r,
  HieraDet.run_blocks (l1 ++ l2) take nchw x ints calls = Ok r ->
  exists r1, HieraDet.run_blocks l1 take1 nchw x ints1 calls1 = Ok r1.
Proof.
  intros Hsub. induction l1 as [|[i blk] l1 IH]; intros x ints1 ints calls1 calls r Hr.
  - cbn. eauto.
  - cbn [app HieraDet.run_blocks] in *. bind_inv Hr. rewrite E. cbn [bind].
    bind_inv Hr.
    destruct (py_in (Z.of_nat i) take1) eqn:E1.
    + rewrite (Hsub _ E1) in E0. bind_inv E0. rewrite E2. cbn [bind].
      eapply IH. eassumption.
    + cbn [bind]. eapply IH. eassumption.
Qed.

Lemma enumerate_firstn {T : Type} (k : nat) (l : list T) :
  HieraDet.enumerate (firstn k l) = firstn k (HieraDet.enumerate l).
Proof.
  unfold HieraDet.enumerate. generalize 0 as s. revert k.
  induction l as [|a l IH]; intros k s.
  - destruct k; reflexivity.
  - destruct k as [|k]; [reflexivity|]. cbn. f_equal. apply IH.
Qed.

Lemma map_fst_enumerate {T : Type} (l : list T) :
  map fst (HieraDet.enumerate l) = seq 0 (length l).
Proof.
  unfold HieraDet.enumerate. generalize 0 as s.
  induction l as [|a l IH]; intros s; cbn; [reflexivity|]. f_equal. apply IH.
Qed.

End EarlyExit.

Section Selection.

Lemma fold_max_seq (k s : nat) (a : Z) :
  fold_left Z.max (map Z.of_nat (seq s k)) a =
  if k =? 0 then a else Z.max a (Z.of_nat (s + k - 1)).
Proof.
  revert s a. induction k as [|k IH]; intros s a; [reflexivity|].
  cbn [seq map fold_left]. rewrite IH.
  destruct k as [|k]; cbn [Nat.eqb].
  - f_equal. f_equal. lia.
  - replace (S s + S k - 1) with (s + S (S k) - 1) by lia. lia.
Qed.

Lemma take_all (n : nat) :
  1 <= n ->
  _features.feature_take_indices n None =
  Ok (map Z.of_nat (seq 0 n), (Z.of_nat n - 1)%Z).
Proof.
  intros Hn. unfold _features.feature_take_indices.
  destruct (Z.ltb_spec 0 (Z.of_nat n)) as [_|]; [|lia].
  rewrite Z.leb_refl. cbn [andb py_assert bind].
  rewrite Nat2Z.id.
  rewrite map_ext with (g := Z.of_nat) by (intros i; lia).
  destruct n as [|n]; [lia|]. cbn [seq map py_max]. rewrite fold_max_seq.
  cbn [bind]. repeat f_equal.
  destruct (Nat.eqb_spec n 0) as [->|Hne]; lia.
Qed.

Lemma take_first (n : nat) :
  1 <= n ->
  _features.feature_take_indices n (Some (_features.Select [0%Z])) = Ok ([0%Z], 0%Z).
Proof.
  intros Hn. unfold _features.feature_take_indices. cbn [Z.ltb Z.compare].
  destruct (Z.ltb_spec 0 (Z.of_nat n)) as [_|]; [|lia]. reflexivity.
Qed.

Lemma mapM_py_index_all {T : Type} (l : list T) :
  HieraDet.mapM (py_index l) (map Z.of_nat (seq 0 (length l))) = Ok l.
Proof.
  enough (G : forall pre, HieraDet.mapM (py_index (pre ++ l))
                (map Z.of_nat (seq (length pre) (length l))) = Ok l)
    by (apply (G [])).
  induction l as [|a l IH]; intros pre; [reflexivity|].
  cbn [length seq map HieraDet.mapM].
  assert (E : py_index (pre ++ a :: l) (Z.of_nat (length pre)) = Ok a).
  { unfold py_index. destruct (Z.ltb_spec (Z.of_nat (length pre)) 0); [lia|].
    destruct (Z.ltb_spec (Z.of_nat (length pre)) 0); [lia|].
    rewrite Nat2Z.id, nth_error_app2, Nat.sub_diag by lia. reflexivity. }
  rewrite E. cbn [bind].
  specialize (IH (pre ++ [a])). rewrite <- app_assoc, length_app in IH. cbn in IH.
  rewrite Nat.add_1_r in IH. rewrite IH. reflexivity.
Qed.

Lemma py_index_nth {T : Type} (l : list T) (i : nat) (v : T) :
  nth_error l i = Some v -> py_index l (Z.of_nat i) = Ok v.
Proof.
  intros Hn. unfold py_index. destruct (Z.ltb_spec (Z.of_nat i) 0); [lia|].
  destruct (Z.ltb_spec (Z.of_nat i) 0); [lia|]. now rewrite Nat2Z.id, Hn.
Qed.

Lemma py_slice_to_nat {T : Type} (l : list T) (k : nat) :
  py_slice_to l (Z.of_nat k) = firstn k l.
Proof.
  unfold py_slice_to. destruct (Z.ltb_spec (Z.of_nat k) 0); [lia|]. now rewrite Nat2Z.id.
Qed.

End Selection.

Section TakeIndices.
Context {A : Type}.

Lemma stage_ends_length (stages : list nat) :
  length (HieraDet.compute_stage_ends stages) = length stages.
Proof. unfold HieraDet.compute_stage_ends. now rewrite length_map, length_seq. Qed.

Lemma fold_left_max_spec (l : list Z) (a : Z) :
  (fold_left Z.max l a = a \/ In (fold_left Z.max l a) l) /\
  (a <= fold_left Z.max l a)%Z /\
  forall x, In x l -> (x <= fold_left Z.max l a)%Z.
Proof.
  revert a. induction l as [|b l IH]; intros a; cbn [fold_left In].
  - repeat split; [now left | lia | intros x []].
  - destruct (IH (Z.max a b)) as (Hin & Hle & Hall). repeat split.
    + destruct Hin as [E|Hin]; [|now right; right].
      rewrite E. destruct (Z.max_spec a b) as [[_ ->]|[_ ->]]; [right; now left | now left].
    + lia.
    + intros x [<-|Hx]; [lia | now apply Hall].
Qed.

Lemma py_max_spec (l : list Z) (m : Z) :
  py_max l = Ok m -> In m l /\ forall x, In x l -> (x <= m)%Z.
Proof.
  destruct l as [|a l]; [discriminate|]. cbn [py_max]. intros [= <-].
  destruct (fold_left_max_spec l a) as (Hin & Hle & Hall). split.
  - destruct Hin as [->|Hin]; [now left | now right].
  - intros x [<-|Hx]; [assumption | now apply Hall].
Qed.

(** The indices [feature_take_indices] returns are within range, and the
    largest of them is returned beside them. *)
Lemma feature_take_indices_spec (n : nat) (indices : option _features.indices_t)
  (take : list Z) (mx : Z) :
  _features.feature_take_indices n indices = Ok (take, mx) ->
  In mx take /\
  (forall i, In i take -> (i <= mx)%Z) /\
  (forall i, In i take -> (0 <= i < Z.of_nat n)%Z).
Proof.
  unfold _features.feature_take_indices. intros Ht.
  bind_inv Ht. rename x into t. bind_inv Ht. injection Ht as <- <-.
  apply py_max_spec in E0 as (Hin & Hle).
  split; [assumption|]. split; [assumption|]. clear Hin Hle.
  destruct (match indices with
            | Some i => i
            | None => _features.LastN (Z.of_nat n)
            end) as [k|l].
  - bind_inv E. apply py_assert_ok, andb_true_iff in E0 as [Hk0 Hkn].
    apply Z.ltb_lt in Hk0. apply Z.leb_le in Hkn. injection E as <-.
    intros i Hi. apply in_map_iff in Hi as (d & <- & Hd). apply in_seq in Hd. lia.
  - revert t E. induction l as [|i0 l IH]; intros t E.
    + injection E as <-. intros i [].
    + bind_inv E. apply py_assert_ok, andb_true_iff in E0 as [H0 Hn].
      apply Z.leb_le in H0. apply Z.ltb_lt in Hn.
      bind_inv E. injection E as <-.
      intros i [<-|Hi]; [lia|]. now apply (IH _ E0).
Qed.

Lemma mapM_In {T U : Type} (f : T -> result U) (l : list T) (r : list U) :
  HieraDet.mapM f l = Ok r ->
  (forall x y, In x l -> f x = Ok y -> In y r) /\
  (forall y, In y r -> exists x, In x l /\ f x = Ok y).
Proof.
  revert r. induction l as [|a l IH]; intros r Hm.
  - injection Hm as <-. split; [intros x y [] | intros y []].
  - cbn [HieraDet.mapM] in Hm. bind_inv Hm. bind_inv Hm. injection Hm as <-.
    destruct (IH _ E0) as (IH1 & IH2). split.
    + intros x' y [<-|Hx] Hf; [left; congruence | right; eauto].
    + intros y [<-|Hy]; [exists a; split; [now left | assumption]|].
      destruct (IH2 y Hy) as (x' & Hx' & Hf). exists x'. split; [now right | assumption].
Qed.

Lemma py_index_nonneg {T : Type} (l : list T) (i : Z) (v : T) :
  (0 <= i)%Z -> py_index l i = Ok v -> nth_error l (Z.to_nat i) = Some v.
Proof.
  intros Hi. unfold py_index. destruct (Z.ltb_spec i 0); [lia|].
  destruct (Z.ltb_spec i 0); [lia|].
  destruct (nth_error l (Z.to_nat i)); [|discriminate]. now intros [= <-].
Qed.

Lemma prefix_sum_le (stages : list nat) (i j : nat) :
  i <= j -> sum_nat (firstn i stages) <= sum_nat (firstn j stages).
Proof.
  revert i j. induction stages as [|d stages IH]; intros i j Hij.
  - now rewrite !firstn_nil.
  - destruct i as [|i]; [cbn; lia|]. destruct j as [|j]; [lia|].
    rewrite !firstn_cons. unfold sum_nat in *. cbn [fold_right].
    specialize (IH i j ltac:(lia)). lia.
Qed.

Lemma stage_ends_monotone (stages : list nat) (i j : nat) (e e' : Z) :
  i <= j ->
  nth_error (HieraDet.compute_stage_ends stages) i = Some e ->
  nth_error (HieraDet.compute_stage_ends stages) j = Some e' ->
  (-1 <= e <= e')%Z /\ (e' < Z.of_nat (sum_nat stages))%Z.
Proof.
  intros Hij Hi Hj.
  assert (Hjl : j < length stages).
  { rewrite <- (stage_ends_length stages). apply nth_error_Some. congruence. }
  pose proof (@stage_ends_nth stages (S i) ltac:(lia)) as Ei.
  pose proof (@stage_ends_nth stages (S j) ltac:(lia)) as Ej.
  replace (S i - 1) with i in Ei by lia. replace (S j - 1) with j in Ej by lia.
  assert (He : e = (Z.of_nat (sum_nat (firstn (S i) stages)) - 1)%Z) by congruence.
  assert (He' : e' = (Z.of_nat (sum_nat (firstn (S j) stages)) - 1)%Z) by congruence.
  pose proof (prefix_sum_le stages (S i) (S j) ltac:(lia)).
  pose proof (prefix_sum_le stages (S j) (length stages) ltac:(lia)) as Hall.
  rewrite firstn_all in Hall. lia.
Qed.

(** The selection of [forward_intermediates] on a constructed model: the
    largest index is one of those taken, no index taken exceeds it, and
    it is the index of a block (or -1, the end of an empty first
    stage). *)
Lemma take_indices_spec (a : HieraDet.args) (w : HieraDet.params (A := A))
  (m : HieraDet.t) (indices : option _features.indices_t) (coarse : bool)
  (take : list Z) (mx : Z) :
  HieraDet.__init__ a w = Ok m ->
  HieraDet.take_indices m indices coarse = Ok (take, mx) ->
  In mx take /\
  (forall i, In i take -> (i <= mx)%Z) /\
  (-1 <= mx < Z.of_nat (length (HieraDet.blocks m)))%Z.
Proof.
  intros Hi Ht. destruct (init_stage_ends a w m Hi) as (Hends & _ & Hlen).
  unfold HieraDet.take_indices in Ht. destruct coarse.
  - bind_inv Ht. destruct x as [t0 m0].
    apply feature_take_indices_spec in E as (Hin & Hle & Hrange).
    bind_inv Ht. rename x into t1. bind_inv Ht. rename x into e0.
    injection Ht as <- <-.
    destruct (mapM_In _ _ _ E) as (Hfw & Hbw).
    pose proof E0 as E0'.
    apply py_index_nonneg in E0'; [|apply (Hrange m0 Hin)].
    rewrite Hends in E0'.
    split; [|split].
    + apply (Hfw m0 e0 Hin E0).
    + intros e He. destruct (Hbw e He) as (i & Hi' & Ei).
      apply py_index_nonneg in Ei; [|apply (Hrange i Hi')].
      rewrite Hends in Ei.
      pose proof (Hle i Hi'). pose proof (Hrange i Hi'). pose proof (Hrange m0 Hin).
      destruct (stage_ends_monotone _ (Z.to_nat i) (Z.to_nat m0) e e0 ltac:(lia) Ei E0').
      lia.
    + destruct (stage_ends_monotone _ _ _ e0 e0 (Nat.le_refl _) E0' E0'). lia.
  - apply feature_take_indices_spec in Ht as (Hin & Hle & Hrange).
    split; [assumption|]. split; [assumption|].
    specialize (Hrange mx Hin). lia.
Qed.

End TakeIndices.

Section NetworkCalls.
Context {A : Type} {SA : Scalar A}.

Lemma run_layers_calls (layers : list (option davit.DaViT.layer_t)) :
  forall (x : tensor A) size calls y size' calls',
  davit.DaViT.run_layers layers x size calls = Ok (y, size', calls') ->
  calls' = calls + length layers.
Proof.
  induction layers as [|l layers IH]; intros x size calls y size' calls' Hr.
  - cbn in Hr. injection Hr as _ _ <-. cbn. lia.
  - cbn [davit.DaViT.run_layers] in Hr. bind_inv Hr. destruct x0 as [x1 s1].
    apply IH in Hr. cbn [length]. lia.
Qed.

(** [forward_network] calls every layer of every stage it iterates
    over. *)
Lemma run_stages_calls (n : nat)
  (todo : list (davit.PatchEmbed.t (A := A) * list (list (option davit.DaViT.layer_t)))) :
  forall features sizes calls features' sizes' calls',
  davit.DaViT.run_stages n todo features sizes calls = Ok (features', sizes', calls') ->
  calls' = calls + length (concat (concat (map snd todo))).
Proof.
  induction todo as [|[pl stage] todo IH]; intros fs ss c fs' ss' c' Hr.
  - cbn in Hr. injection Hr as _ _ <-. cbn. lia.
  - cbn [davit.DaViT.run_stages] in Hr.
    destruct (rev fs) as [|x0 ?]; [discriminate|].
    destruct (rev ss) as [|s0 ?]; [discriminate|].
    bind_inv Hr. destruct x as [x1 s1]. bind_inv Hr. destruct x as [[x2 s2] c2].
    apply run_layers_calls in E0.
    cbn [map snd concat]. rewrite concat_app, length_app.
    destruct (_ <? n); apply IH in Hr; lia.
Qed.

End NetworkCalls.

Section EarlyExitClaim.
Context {A : Type} {SA : Scalar A}.
Variable bicubic : tensor A -> nat * nat -> list nat -> A.

Lemma firstn_1_stages (stages : list nat) : sum_nat (firstn 1 stages) = nth 0 stages 0.
Proof. destruct stages; cbn; lia. Qed.

(** The selection and the blocks kept, for "all" and for "the first
    entry only", on a model in which a block lies beyond the first stage
    (beyond the first block, at block granularity). *)
Lemma early_exit_runs (a : HieraDet.args) (w : HieraDet.params (A := A)) (m : HieraDet.t)
  (coarse : bool) :
  HieraDet.__init__ a w = Ok m ->
  let k := if coarse then nth 0 (HieraDet.stages a) 0 else 1 in
  k < sum_nat (HieraDet.stages a) ->
  length (HieraDet.blocks m) = sum_nat (HieraDet.stages a) /\
  forall (x : tensor A) (fmt : string) (io : bool),
    exists take take1,
      (forall i, py_in i take1 = true -> py_in i take = true) /\
      HieraDet.forward_intermediates bicubic m x None false true fmt io coarse false =
        (_ <- py_assert (String.eqb fmt "NCHW" || String.eqb fmt "NHWC") ;;
         x <- HieraDet.patch_embed_forward (HieraDet.patch_embed m) x ;;
         x <- HieraDet._pos_embed bicubic m x ;;
         HieraDet.run_blocks (HieraDet.enumerate (HieraDet.blocks m)) take
           (String.eqb fmt "NCHW") x [] []) /\
      HieraDet.forward_intermediates bicubic m x (Some (_features.Select [0%Z]))
          false true fmt io coarse false =
        (_ <- py_assert (String.eqb fmt "NCHW" || String.eqb fmt "NHWC") ;;
         x <- HieraDet.patch_embed_forward (HieraDet.patch_embed m) x ;;
         x <- HieraDet._pos_embed bicubic m x ;;
         HieraDet.run_blocks (HieraDet.enumerate (firstn k (HieraDet.blocks m))) take1
           (String.eqb fmt "NCHW") x [] []).
Proof.
  intros Hi k Hk.
  destruct (init_stage_ends a w m Hi) as (Hends & _ & Hblocks).
  set (stages := HieraDet.stages a) in *.
  assert (Hlen : 1 <= length stages).
  { destruct stages; [cbn in Hk; lia | cbn; lia]. }
  set (d0 := nth 0 stages 0) in *.
  split; [assumption|].
  intros x fmt io. unfold HieraDet.forward_intermediates, HieraDet.take_indices.
  cbn [negb py_assert bind orb].
  destruct coarse.
  - (* stage granularity *)
    assert (Hn : 1 <= length (HieraDet.stage_ends m)).
    { rewrite Hends, stage_ends_length. fold stages. lia. }
    rewrite (take_all _ Hn), (take_first _ Hn). cbn [bind HieraDet.mapM].
    rewrite mapM_py_index_all. cbn [bind].
    assert (E0 : py_index (HieraDet.stage_ends m) 0 = Ok (Z.of_nat d0 - 1)%Z).
    { apply (py_index_nth _ 0). rewrite Hends. subst d0.
      rewrite <- firstn_1_stages. apply (@stage_ends_nth stages 1). lia. }
    assert (El : py_index (HieraDet.stage_ends m) (Z.of_nat (length (HieraDet.stage_ends m)) - 1)
                 = Ok (Z.of_nat (sum_nat stages) - 1)%Z).
    { replace (Z.of_nat (length (HieraDet.stage_ends m)) - 1)%Z
        with (Z.of_nat (length stages - 1)) by (rewrite Hends, stage_ends_length; fold stages; lia).
      apply py_index_nth. rewrite Hends, <- (sum_nat_firstn_all stages).
      apply stage_ends_nth. lia. }
    rewrite E0, El. cbn [bind].
    replace (Z.of_nat (sum_nat stages) - 1 + 1)%Z with (Z.of_nat (sum_nat stages)) by lia.
    replace (Z.of_nat d0 - 1 + 1)%Z with (Z.of_nat d0) by lia.
    rewrite !py_slice_to_nat, <- Hblocks, firstn_all.
    exists (HieraDet.stage_ends m), [(Z.of_nat d0 - 1)%Z].
    split; [|split; reflexivity].
    intros i Hin. apply py_in_spec in Hin. apply py_in_spec.
    destruct Hin as [<-|[]]. rewrite Hends. apply py_in_spec. subst d0.
    rewrite <- firstn_1_stages. apply stage_end_before_first_block. fold stages. lia.
  - (* block granularity *)
    assert (Hn : 1 <= length (HieraDet.blocks m)) by (subst k; lia).
    rewrite (take_all _ Hn), (take_first _ Hn). cbn [bind].
    replace (Z.of_nat (length (HieraDet.blocks m)) - 1 + 1)%Z
      with (Z.of_nat (length (HieraDet.blocks m))) by lia.
    change (0 + 1)%Z with (Z.of_nat 1).
    rewrite !py_slice_to_nat, firstn_all.
    exists (map Z.of_nat (seq 0 (length (HieraDet.blocks m)))), [0%Z].
    split; [|split; reflexivity].
    intros i Hin. apply py_in_spec in Hin. apply py_in_spec.
    destruct Hin as [<-|[]]. apply in_map_iff. exists 0. split; [reflexivity|].
    apply in_seq. lia.
Qed.

(** C7 (amended).  [forward_intermediates] of HieraDet calls the blocks
    in order.  With [stop_early] set, as it is by default, and outside
    TorchScript, it stops at the largest index requested, whatever the
    selection: the blocks called are exactly those up to that index.
    Then, on a model in which a block lies beyond the first stage,
    whenever the traversal for all entries returns, the traversal for
    the first entry alone returns too, having called a strict prefix of
    the blocks.  With [stop_early] unset, or under TorchScript, every
    block is called whatever is requested.  The traversal of DaViT takes
    no selection: [forward_network] calls every layer of every stage,
    and the feature wrapper refuses the keyword [out_indices]. *)
Theorem early_exit_first_entry :
  (forall (a : HieraDet.args) (w : HieraDet.params (A := A)) (m : HieraDet.t)
          (indices : option _features.indices_t) (coarse : bool) (x : tensor A)
          (fmt : string) (io : bool) (y : tensor A) (ints : list (tensor A))
          (calls : list nat),
     HieraDet.__init__ a w = Ok m ->
     HieraDet.forward_intermediates bicubic m x indices false true fmt io coarse false
       = Ok (y, ints, calls) ->
     exists take max_index,
       HieraDet.take_indices m indices coarse = Ok (take, max_index) /\
       In max_index take /\
       (forall i, In i take -> (i <= max_index)%Z) /\
       calls = seq 0 (Z.to_nat (max_index + 1))) /\
  (forall (a : HieraDet.args) (w : HieraDet.params (A := A)) (m : HieraDet.t)
          (coarse : bool) (x : tensor A) (fmt : string) (io : bool)
          (y : tensor A) (ints : list (tensor A)) (calls : list nat),
     HieraDet.__init__ a w = Ok m ->
     (if coarse then nth 0 (HieraDet.stages a) 0 else 1) < sum_nat (HieraDet.stages a) ->
     HieraDet.forward_intermediates bicubic m x None false true fmt io coarse false
       = Ok (y, ints, calls) ->
     calls = seq 0 (sum_nat (HieraDet.stages a)) /\
     exists y1 ints1 calls1,
       HieraDet.forward_intermediates bicubic m x (Some (_features.Select [0%Z]))
         false true fmt io coarse false = Ok (y1, ints1, calls1) /\
       calls1 = seq 0 (if coarse then nth 0 (HieraDet.stages a) 0 else 1) /\
       length calls1 < length calls) /\
  (forall (m : HieraDet.t) (indices : option _features.indices_t) (coarse : bool)
          (stop_early scripting : bool) (x : tensor A) (fmt : string) (io : bool)
          (y : tensor A) (ints : list (tensor A)) (calls : list nat),
     scripting || negb stop_early = true ->
     HieraDet.forward_intermediates bicubic m x indices false stop_early fmt io coarse
       scripting = Ok (y, ints, calls) ->
     calls = seq 0 (length (HieraDet.blocks m))) /\
  (forall (m : davit.DaViT.t) (x : tensor A) features sizes (calls : nat),
     davit.DaViT.forward_network m x = Ok (features, sizes, calls) ->
     calls = length (concat (concat (map snd
               (combine (davit.DaViT.patch_embeds m) (davit.DaViT.stages m)))))) /\
  (forall (a : davit.DaViT.args) (w : davit.DaViT.params (A := A)) (out_indices : list Z),
     davit.DaViTFeatures.__init__ a (Some out_indices) w = Raise TypeError).
Proof.
  split; [|split; [|split; [|split]]].
  - intros a w m indices coarse x fmt io y ints calls Hi Hf.
    unfold HieraDet.forward_intermediates in Hf.
    bind_inv Hf. clear E. bind_inv Hf. clear E.
    bind_inv Hf. rename E into Et.
    match type of Hf with (let (_, _) := ?p in _) = _ => destruct p as [take mx] end.
    bind_inv Hf. clear E. bind_inv Hf. clear E.
    cbn [negb orb] in Hf.
    destruct (take_indices_spec a w m indices coarse take mx Hi Et) as (Hin & Hle & Hr).
    exists take, mx. repeat split; try assumption.
    apply run_blocks_calls in Hf. rewrite map_fst_enumerate in Hf. cbn [app] in Hf.
    rewrite Hf. f_equal.
    unfold py_slice_to. destruct (Z.ltb_spec (mx + 1) 0); [lia|].
    rewrite length_firstn. lia.
  - intros a w m coarse x fmt io y ints calls Hi Hk Hall.
    destruct (early_exit_runs a w m coarse Hi Hk) as (Hblocks & Hruns).
    destruct (Hruns x fmt io) as (take & take1 & Hsub & Eall & Efirst).
    set (k := if coarse then nth 0 (HieraDet.stages a) 0 else 1) in *.
    rewrite Eall in Hall. rewrite Efirst. clear Eall Efirst.
    bind_inv Hall. rewrite E. cbn [bind]. bind_inv Hall. rewrite E0. cbn [bind].
    bind_inv Hall. rewrite E1. cbn [bind].
    pose proof (run_blocks_calls _ _ _ _ _ _ _ _ _ Hall) as Hcalls.
    rewrite map_fst_enumerate, Hblocks in Hcalls. cbn [app] in Hcalls.
    split; [assumption|].
    rewrite <- (firstn_skipn k (HieraDet.enumerate (HieraDet.blocks m))) in Hall.
    rewrite <- enumerate_firstn in Hall.
    destruct (run_blocks_prefix _ _ take1 take _ Hsub _ [] _ [] _ _ Hall)
      as ([[y1 ints1] calls1] & E1').
    exists y1, ints1, calls1. split; [assumption|].
    pose proof (run_blocks_calls _ _ _ _ _ _ _ _ _ E1') as Hc1.
    rewrite map_fst_enumerate, length_firstn, Nat.min_l in Hc1 by lia. cbn [app] in Hc1.
    split; [assumption|]. rewrite Hc1, Hcalls, !length_seq. lia.
  - intros m indices coarse stop_early scripting x fmt io y ints calls Hs Hf.
    unfold HieraDet.forward_intermediates in Hf.
    bind_inv Hf. clear E. bind_inv Hf. clear E.
    bind_inv Hf. clear E.
    match type of Hf with (let (_, _) := ?p in _) = _ => destruct p as [take mx] end.
    bind_inv Hf. clear E. bind_inv Hf. clear E.
    rewrite Hs in Hf.
    apply run_blocks_calls in Hf. now rewrite map_fst_enumerate in Hf.
  - intros m x features sizes calls Hf. unfold davit.DaViT.forward_network in Hf.
    destruct (shape x) as [|? [|? [|H [|W ?]]]]; try discriminate.
    apply run_stages_calls in Hf. exact Hf.
  - reflexivity.
Qed.

End EarlyExitClaim.

Lemma early_exit_first_entry_witness :
  match HieraDet.__init__ Examples.small_args Examples.params with
  | Ok m =>
      match HieraDet.forward_intermediates Examples.nearest m Examples.image_8x8 None
              false true "NCHW" false true false with
      | Ok (_, _, calls) =>
          calls = seq 0 (sum_nat [1; 2; 1]) /\
          exists y1 ints1 calls1,
            HieraDet.forward_intermediates Examples.nearest m Examples.image_8x8
              (Some (_features.Select [0%Z])) false true "NCHW" false true false
              = Ok (y1, ints1, calls1) /\
            calls1 = seq 0 1 /\ length calls1 < length calls
      | Raise _ => False
      end
  | Raise _ => False
  end.
Proof.
  destruct (HieraDet.__init__ Examples.small_args Examples.params) as [m|e] eqn:E;
    [|vm_compute in E; discriminate].
  destruct (HieraDet.forward_intermediates Examples.nearest m Examples.image_8x8 None
              false true "NCHW" false true false) as [[[y ints] calls]|e] eqn:F.
  - apply (proj1 (proj2 (@early_exit_first_entry Z Z_scalar Examples.nearest))
             Examples.small_args Examples.params m true Examples.image_8x8 "NCHW"%string
             false y ints calls E);
      [cbn; lia | exact F].
  - vm_compute in E. injection E as <-. vm_compute in F. discriminate.
Defined.

(** Asking for the first entry alone does not always call fewer blocks:
    on a two-stage model whose second stage is empty, with [stop_early]
    at its default, it calls the very blocks that asking for all entries
    calls. *)
Lemma first_entry_not_strictly_fewer :
  exists m y ints y1 ints1 calls,
    HieraDet.__init__ Examples.two_stage_args Examples.params = Ok m /\
    length (HieraDet.stages Examples.two_stage_args) = 2 /\
    HieraDet.forward_intermediates Examples.nearest m Examples.image_8x8 None
      false true "NCHW" false true false = Ok (y, ints, calls) /\
    HieraDet.forward_intermediates Examples.nearest m Examples.image_8x8
      (Some (_features.Select [0%Z])) false true "NCHW" false true false
      = Ok (y1, ints1, calls) /\
    calls = [0].
Proof.
  do 6 eexists. split; [vm_compute; reflexivity|].
  split; [reflexivity|].
  split; [vm_compute; reflexivity|]. split; vm_compute; reflexivity.
Qed.

(** ** Construction-time checks *)

Import davit.

Section Construction.
Context {A : Type} {SA : Scalar A}.

Lemma py_init_length {T : Type} (l : list T) : length (py_init l) = length l - 1.
Proof.
  unfold py_init, py_slice_to. cbn [Z.ltb Z.compare].
  rewrite length_firstn. lia.
Qed.

(** C9 (amended).  The constructors reject, with a failed assertion,
    stage descriptors of inconsistent lengths ([stages] against
    [window_spec] in HieraDet, [embed_dims] against [num_heads] in DaViT)
    and a query-pool stage count out of range.  An unsupported patch
    size and an unknown attention type are not detected by the
    constructors: [PatchEmbed] is then built without its projection and
    normalisation, the block holds [None] in place of the layer, and the
    error surfaces in [forward]. *)
Theorem construction_errors :
  (forall (a : HieraDet.args) (w : HieraDet.params (A := A)),
     length (HieraDet.stages a) <> length (HieraDet.window_spec a) ->
     HieraDet.__init__ a w = Raise AssertionError) /\
  (forall (a : HieraDet.args) (w : HieraDet.params (A := A)),
     length (HieraDet.stages a) = length (HieraDet.window_spec a) ->
     (HieraDet.q_pool a < 0 \/
      Z.of_nat (length (HieraDet.stages a) - 1) < HieraDet.q_pool a)%Z ->
     HieraDet.__init__ a w = Raise AssertionError) /\
  (forall (a : DaViT.args) (w : DaViT.params (A := A)),
     length (DaViT.embed_dims a) <> length (DaViT.num_heads a) ->
     DaViT.__init__ a w = Raise AssertionError) /\
  (forall (p : nat) (in_chans embed_dim : nat) (overlapped : bool)
          (w : PatchEmbed.params (A := A)) (x : tensor A) (B C H W : nat) (size : nat * nat),
     p <> 4 -> p <> 2 ->
     let pe := PatchEmbed.__init__ (p, p) in_chans embed_dim overlapped w in
     PatchEmbed.proj pe = None /\ PatchEmbed.norm pe = None /\
     (0 < p -> shape x = [B; C; H; W] ->
      PatchEmbed.forward pe x size = Raise AttributeError)) /\
  (forall (a : DaViT.args) (w : DaViT.params (A := A)) (dpr : list Q)
          (stage_id layer_id layer_offset_id item attention_id : nat)
          (attention_type : string) (x : tensor A) (size : nat * nat),
     attention_type <> "channel"%string -> attention_type <> "spatial"%string ->
     DaViT.make_layer a w dpr stage_id layer_id layer_offset_id item attention_id
       attention_type = Ok None /\
     DaViT.layer_forward None x size = Raise TypeError).
Proof.
  split; [|split; [|split; [|split]]].
  - intros a w Hne. unfold HieraDet.__init__.
    apply Nat.eqb_neq in Hne. now rewrite Hne.
  - intros a w He Hq. unfold HieraDet.__init__.
    rewrite He, Nat.eqb_refl. cbn [py_assert bind].
    rewrite py_init_length, stage_ends_length.
    destruct Hq as [Hq|Hq].
    + destruct (Z.leb_spec 0 (HieraDet.q_pool a)); [lia|]. reflexivity.
    + destruct (Z.leb_spec (HieraDet.q_pool a)
                  (Z.of_nat (length (HieraDet.stages a) - 1))); [lia|].
      now rewrite andb_false_r.
  - intros a w Hne. unfold DaViT.__init__.
    apply Nat.eqb_neq in Hne. now rewrite Hne.
  - intros p in_chans embed_dim overlapped w x B C H W size Hp4 Hp2 pe.
    assert (Epe : pe = {| PatchEmbed.patch_size := (p, p);
                          PatchEmbed.proj := None; PatchEmbed.norm := None |}).
    { subst pe. unfold PatchEmbed.__init__. cbn [fst].
      apply Nat.eqb_neq in Hp4, Hp2. now rewrite Hp4, Hp2. }
    rewrite Epe. cbn [PatchEmbed.proj PatchEmbed.norm]. repeat split.
    intros Hp0 Hs. unfold PatchEmbed.forward. destruct size as [H0 W0].
    rewrite Hs. cbn [length Nat.eqb bind PatchEmbed.patch_size fst snd].
    rewrite Hs. cbn [PatchEmbed.patch_size fst snd].
    rewrite (py_mod_ok W Hp0). cbn [bind].
    assert (Hpad1 : exists x1, (if negb (W mod p =? 0) then F_pad x [0; p - W mod p] else Ok x)
                               = Ok x1 /\ exists W1, shape x1 = [B; C; H; W1]).
    { destruct (W mod p =? 0); cbn [negb].
      - eauto.
      - unfold F_pad. rewrite Hs. cbn. eexists. split; [reflexivity|]. cbn. rewrite !Nat.add_0_r. eauto. }
    destruct Hpad1 as (x1 & E1 & W1 & Hs1). rewrite E1. cbn [bind].
    rewrite (py_mod_ok H Hp0). cbn [bind].
    assert (Hpad2 : exists x2, (if negb (H mod p =? 0) then F_pad x1 [0; 0; 0; p - H mod p]
                                else Ok x1) = Ok x2).
    { destruct (H mod p =? 0); cbn [negb].
      - eauto.
      - unfold F_pad. rewrite Hs1. cbn. eauto. }
    destruct Hpad2 as (x2 & E2). rewrite E2. reflexivity.
  - intros a w dpr stage_id layer_id layer_offset_id item attention_id attention_type x size
      Hc Hs.
    split; [|reflexivity]. unfold DaViT.make_layer.
    apply String.eqb_neq in Hc, Hs. now rewrite Hc, Hs.
Qed.

End Construction.

Lemma construction_errors_witness :
  HieraDet.__init__
    (HieraDet.with_model_args HieraDet.default_args 96 1 [1; 2; 7] [5; 7; 9]%Z [8; 4; 14; 7] (7, 7))
    Examples.params = Raise AssertionError /\
  DaViT.__init__
    {| DaViT.in_chans := 3; DaViT.depths := [1; 1]; DaViT.patch_size := (4, 4);
       DaViT.embed_dims := [2; 4]; DaViT.num_heads := [1]; DaViT.window_size := 2;
       DaViT.qkv_bias := true; DaViT.drop_path_rate := (1 # 10)%Q;
       DaViT.attention_types := ["spatial"%string; "channel"%string];
       DaViT.ffn := true; DaViT.overlapped_patch := false; DaViT.cpe_act := false |}
    Examples.davit_params = Raise AssertionError /\
  PatchEmbed.forward (PatchEmbed.__init__ (3, 3) 3 2 false Examples.patch_params)
    Examples.image_3x5x5 (5, 5) = Raise AttributeError.
Proof.
  pose proof (@construction_errors Z Z_scalar) as (Hl & _ & Hd & Hp & _).
  split; [|split].
  - apply Hl. cbn. lia.
  - apply Hd. cbn. lia.
  - apply (Hp 3 3 2 false Examples.patch_params Examples.image_3x5x5 1 3 5 5 (5, 5));
      [lia | lia | lia | reflexivity].
Defined.

(** An unsupported patch size and an unknown attention type pass the
    constructor and fail in [forward]. *)
Lemma configuration_error_not_raised_at_construction :
  (exists m pe,
     DaViT.__init__ (DaViT.with_patch_size DaViT.davit_tiny (3, 3)) Examples.davit_params
       = Ok m /\
     nth_error (DaViT.patch_embeds m) 0 = Some pe /\
     PatchEmbed.proj pe = None /\ PatchEmbed.norm pe = None /\
     DaViT.forward_pyramid_features m Examples.image_3x5x5 = Raise AttributeError) /\
  (exists m,
     DaViT.__init__
       (DaViT.with_attention_types DaViT.davit_tiny ["global"%string; "channel"%string])
       Examples.davit_params = Ok m /\
     DaViT.forward_pyramid_features m Examples.image_3x5x5 = Raise TypeError).
Proof.
  split.
  - eexists. eexists. split; [vm_compute; reflexivity|].
    split; [reflexivity|]. split; [reflexivity|]. split; [reflexivity|].
    vm_compute. reflexivity.
  - eexists. split; [vm_compute; reflexivity|]. vm_compute. reflexivity.
Qed.

(** ** Padding at the patch embeddings *)

Section PatchEmbedPadding.
Context {A : Type} {SA : Scalar A}.

Lemma F_pad_right (x : tensor A) (f : list nat -> A) (B C H W pw : nat) :
  tensor_is x [B; C; H; W] f ->
  exists x', F_pad x [0; pw] = Ok x' /\
    tensor_is x' [B; C; H; W + pw] (zero_padded_nchw f H W).
Proof.
  intros Hx.
  destruct (@F_pad_spec _ _ x [B; C; H; W] f [0; pw])
    as (x1 & E1 & H1); [assumption | reflexivity | simpl; lia |].
  exists x1. split; [assumption|].
  cbn [length pad_spec pad_pairs Nat.sub repeat rev app combine map] in H1.
  cbn [Nat.add] in H1. rewrite !Nat.add_0_r in H1.
  eapply tensor_is_ext; [exact H1|].
  intros idx Hb. apply in_bounds4_inv in Hb as (b & c & i & j & -> & Hb & Hc & Hi & Hj).
  unfold zero_padded_nchw. cbn [shift_index nth Nat.leb]. rewrite !Nat.sub_0_r.
  apply Nat.ltb_lt in Hb, Hc, Hi. rewrite Hb, Hc, Hi.
  cbn [andb]. destruct (j <? W); reflexivity.
Qed.

Lemma F_pad_bottom (x : tensor A) (f : list nat -> A) (B C H W ph : nat) :
  tensor_is x [B; C; H; W] f ->
  exists x', F_pad x [0; 0; 0; ph] = Ok x' /\
    tensor_is x' [B; C; H + ph; W] (zero_padded_nchw f H W).
Proof.
  intros Hx.
  destruct (@F_pad_spec _ _ x [B; C; H; W] f [0; 0; 0; ph])
    as (x1 & E1 & H1); [assumption | reflexivity | simpl; lia |].
  exists x1. split; [assumption|].
  cbn [length pad_spec pad_pairs Nat.sub repeat rev app combine map] in H1.
  cbn [Nat.add] in H1. rewrite !Nat.add_0_r in H1.
  eapply tensor_is_ext; [exact H1|].
  intros idx Hb. apply in_bounds4_inv in Hb as (b & c & i & j & -> & Hb & Hc & Hi & Hj).
  unfold zero_padded_nchw. cbn [shift_index nth Nat.leb]. rewrite !Nat.sub_0_r.
  apply Nat.ltb_lt in Hb, Hc, Hj. rewrite Hb, Hc, Hj.
  cbn [andb]. destruct (i <? H); reflexivity.
Qed.

Lemma tensor_is_unique (t1 t2 : tensor A) (sh : list nat) (f : list nat -> A) :
  tensor_is t1 sh f -> tensor_is t2 sh f -> t1 = t2.
Proof.
  intros (S1 & W1 & G1) (S2 & W2 & G2).
  apply tensor_ext; [assumption | assumption | congruence |].
  intros idx Hb. rewrite S1 in Hb. rewrite (G1 idx Hb), (G2 idx Hb). reflexivity.
Qed.

(** The two conditional paddings of [PatchEmbed.forward] amount to a zero
    fill below and to the right, up to the next multiples of the patch
    size. *)
Lemma patch_embed_padding {T : Type} (x : tensor A) (f : list nat -> A)
  (B C H W p : nat) (k : tensor A -> result T) :
  tensor_is x [B; C; H; W] f -> 0 < p ->
  (wm <- py_mod W p ;;
   x1 <- (if negb (wm =? 0) then F_pad x [0; p - wm] else Ok x) ;;
   hm <- py_mod H p ;;
   x2 <- (if negb (hm =? 0) then F_pad x1 [0; 0; 0; p - hm] else Ok x1) ;;
   k x2)
  = k (init [B; C; windows_along H p * p; windows_along W p * p]
         (zero_padded_nchw f H W)).
Proof.
  intros Hx Hp.
  rewrite <- (padded_extent H p Hp), <- (padded_extent W p Hp).
  rewrite (py_mod_ok W Hp). cbn [bind].
  assert (H1 : exists x1,
            (if negb (W mod p =? 0) then F_pad x [0; p - W mod p] else Ok x) = Ok x1 /\
            tensor_is x1 [B; C; H; W + (p - W mod p) mod p] (zero_padded_nchw f H W)).
  { destruct (Nat.eqb_spec (W mod p) 0) as [E|E]; cbn [negb].
    - exists x. split; [reflexivity|]. rewrite E, Nat.sub_0_r, Nat.Div0.mod_same, Nat.add_0_r.
      eapply tensor_is_ext; [exact Hx|].
      intros idx Hb. apply in_bounds4_inv in Hb as (b & c & i & j & -> & Hb & Hc & Hi & Hj).
      unfold zero_padded_nchw. cbn [nth]. apply Nat.ltb_lt in Hi, Hj. now rewrite Hi, Hj.
    - pose proof (Nat.mod_upper_bound W p ltac:(lia)).
      rewrite (Nat.mod_small (p - W mod p) p) by lia.
      now apply F_pad_right. }
  destruct H1 as (x1 & E1 & Hx1). rewrite E1. cbn [bind].
  rewrite (py_mod_ok H Hp). cbn [bind].
  assert (H2 : exists x2,
            (if negb (H mod p =? 0) then F_pad x1 [0; 0; 0; p - H mod p] else Ok x1) = Ok x2 /\
            tensor_is x2 [B; C; H + (p - H mod p) mod p; W + (p - W mod p) mod p]
              (zero_padded_nchw f H W)).
  { destruct (Nat.eqb_spec (H mod p) 0) as [E|E]; cbn [negb].
    - exists x1. split; [reflexivity|]. rewrite E, Nat.sub_0_r, Nat.Div0.mod_same, Nat.add_0_r.
      exact Hx1.
    - pose proof (Nat.mod_upper_bound H p ltac:(lia)).
      rewrite (Nat.mod_small (p - H mod p) p) by lia.
      destruct (@F_pad_bottom x1 _ B C H (W + (p - W mod p) mod p) (p - H mod p) Hx1)
        as (x2 & E2 & Hx2).
      exists x2. split; [assumption|].
      eapply tensor_is_ext; [exact Hx2|].
      intros idx Hb. apply in_bounds4_inv in Hb as (b & c & i & j & -> & Hb & Hc & Hi & Hj).
      unfold zero_padded_nchw. cbn [nth].
      destruct (i <? H), (j <? W) eqn:Ej, (j <? (W + (p - W mod p) mod p)) eqn:Ej';
        cbn [andb]; try reflexivity.
      apply Nat.ltb_lt in Ej. apply Nat.ltb_ge in Ej'. lia. }
  destruct H2 as (x2 & E2 & Hx2). rewrite E2. cbn [bind].
  f_equal. eapply tensor_is_unique; [exact Hx2|]. apply tensor_is_init.
Qed.

End PatchEmbedPadding.
Section PatchEmbedShapes.
Context {A : Type} {SA : Scalar A}.

Lemma Conv2d_forward_shape (l : Conv2d.t) (x : tensor A) (B H W kh kw sh sw ph pw : nat) :
  shape x = [B; Conv2d.in_channels l; H; W] ->
  Conv2d.kernel_size l = (kh, kw) -> Conv2d.stride l = (sh, sw) ->
  Conv2d.padding l = (ph, pw) ->
  0 < Conv2d.groups l ->
  Conv2d.in_channels l mod Conv2d.groups l = 0 ->
  Conv2d.out_channels l mod Conv2d.groups l = 0 ->
  0 < kh -> 0 < kw -> 0 < sh -> 0 < sw -> kh <= H + 2 * ph -> kw <= W + 2 * pw ->
  exists y, Conv2d.forward l x = Ok y /\
    shape y = [B; Conv2d.out_channels l; (H + 2 * ph - kh) / sh + 1; (W + 2 * pw - kw) / sw + 1].
Proof.
  intros Hs Ek Es Ep Hg Hi Ho Hkh Hkw Hsh Hsw HH HW.
  unfold Conv2d.forward. rewrite Ek, Es, Ep, Hs.
  rewrite Nat.eqb_refl, (proj2 (Nat.ltb_lt _ _) Hg), Hi, Ho. cbn [Nat.eqb andb].
  unfold Conv2d.conv_out.
  destruct (Nat.eqb_spec kh 0); [lia|]. destruct (Nat.eqb_spec sh 0); [lia|].
  destruct (Nat.eqb_spec kw 0); [lia|]. destruct (Nat.eqb_spec sw 0); [lia|].
  cbn [orb].
  destruct (Nat.ltb_spec (H + 2 * ph) kh); [lia|].
  destruct (Nat.ltb_spec (W + 2 * pw) kw); [lia|].
  cbn [bind]. eexists. split; [reflexivity|]. apply shape_init.
Qed.

Lemma flatten2_shape (x : tensor A) (B C H W : nat) :
  shape x = [B; C; H; W] ->
  exists y, davit.flatten2 x = Ok y /\ shape y = [B; C; H * W].
Proof.
  intros Hs. unfold davit.flatten2. rewrite Hs. cbn.
  eexists. split; [reflexivity|]. cbn. now rewrite Nat.mul_1_r.
Qed.

Lemma transpose_1_2_shape3 (t : tensor A) (a b c : nat) :
  shape t = [a; b; c] ->
  exists y, transpose t 1 2 = Ok y /\ shape y = [a; c; b].
Proof.
  intros Hs. unfold transpose, permute. rewrite Hs. cbn.
  eexists; split; reflexivity.
Qed.

(** The strided convolutions of the patch embeddings map [m] whole
    patches to [m] positions. *)
Lemma patch_conv_extent (m k s p : nat) :
  0 < m -> 0 < s -> k <= s + 2 * p -> 2 * p < k ->
  (m * s + 2 * p - k) / s + 1 = m.
Proof.
  intros Hm Hs Hk1 Hk3.
  assert (E : (m * s + 2 * p - k) / s = m - 1).
  { symmetry. apply Nat.div_unique with (r := s + 2 * p - k); nia. }
  rewrite E. lia.
Qed.

End PatchEmbedShapes.
Section PatchEmbedForward.
Context {A : Type} {SA : Scalar A}.

Lemma windows_along_multiple (m p : nat) : 0 < p -> windows_along (m * p) p = m.
Proof.
  intros Hp. unfold windows_along.
  rewrite Nat.Div0.mod_mul, Nat.sub_0_r, Nat.Div0.mod_same, Nat.add_0_r.
  now apply Nat.div_mul; lia.
Qed.

(** [PatchEmbed.forward] on an image: the stem, with a patch size of 4. *)
Lemma PatchEmbed_forward_image (in_chans embed_dim : nat) (overlapped : bool)
  (w : davit.PatchEmbed.params (A := A)) (x : tensor A) (f : list nat -> A)
  (B H W : nat) (size : nat * nat) :
  tensor_is x [B; in_chans; H; W] f -> 0 < H -> 0 < W ->
  let pe := davit.PatchEmbed.__init__ (4, 4) in_chans embed_dim overlapped w in
  let Ho := windows_along H 4 in
  let Wo := windows_along W 4 in
  exists y,
    davit.PatchEmbed.forward pe x size = Ok (y, (Ho, Wo)) /\
    shape y = [B; Ho * Wo; embed_dim] /\
    davit.PatchEmbed.forward pe
      (init [B; in_chans; Ho * 4; Wo * 4] (zero_padded_nchw f H W)) size = Ok (y, (Ho, Wo)).
Proof.
  intros Hx HH HW pe Ho Wo.
  assert (HHo : 0 < Ho) by (apply windows_along_pos; lia).
  assert (HWo : 0 < Wo) by (apply windows_along_pos; lia).
  set (xp := init [B; in_chans; Ho * 4; Wo * 4] (zero_padded_nchw f H W)).
  assert (Hxp : tensor_is xp [B; in_chans; Ho * 4; Wo * 4] (zero_padded_nchw f H W))
    by apply tensor_is_init.
  assert (Epad : davit.PatchEmbed.forward pe x size = davit.PatchEmbed.forward pe xp size).
  { unfold davit.PatchEmbed.forward. destruct size as [H0 W0].
    rewrite (proj1 Hx), (proj1 Hxp).
    cbn [length Nat.eqb bind]. rewrite (proj1 Hx), (proj1 Hxp).
    subst pe. cbn [davit.PatchEmbed.__init__ fst snd Nat.eqb davit.PatchEmbed.patch_size].
    erewrite (@patch_embed_padding _ _ _ x _ _ _ _ _ 4 _); [|exact Hx|lia].
    erewrite (@patch_embed_padding _ _ _ xp _ _ _ _ _ 4 _); [|exact Hxp|lia].
    fold Ho Wo. rewrite !windows_along_multiple by lia.
    assert (Exp : init [B; in_chans; Ho * 4; Wo * 4]
                    (zero_padded_nchw (zero_padded_nchw f H W) (Ho * 4) (Wo * 4)) = xp).
    { eapply tensor_is_unique; [apply tensor_is_init|].
      eapply tensor_is_ext; [exact Hxp|].
      intros idx Hb. apply in_bounds4_inv in Hb as (b & c & i & j & -> & Hb & Hc & Hi & Hj).
      unfold zero_padded_nchw at 2. cbn [nth].
      apply Nat.ltb_lt in Hi, Hj. now rewrite Hi, Hj. }
    rewrite Exp. reflexivity. }
  rewrite Epad.
  unfold davit.PatchEmbed.forward. destruct size as [H0 W0].
  rewrite (proj1 Hxp). cbn [length Nat.eqb bind]. rewrite (proj1 Hxp).
  subst pe. cbn [davit.PatchEmbed.__init__ fst snd Nat.eqb davit.PatchEmbed.patch_size
                  davit.PatchEmbed.proj davit.PatchEmbed.norm].
  rewrite !(@py_mod_ok _ 4) by lia. cbn [bind].
  rewrite !Nat.Div0.mod_mul. cbn [Nat.eqb negb bind davit.PatchEmbed.getattr].
  match goal with |- context [Conv2d.forward ?l xp] =>
    destruct (@Conv2d_forward_shape _ _ l xp B (Ho * 4) (Wo * 4) 7 7 4 4 3 3)
      as (c & Ec & Sc);
      try reflexivity; try exact (proj1 Hxp); try lia; try (cbn; lia);
      try (cbn; apply Nat.mod_1_r)
  end.
  rewrite Ec. cbn [bind]. cbn [Conv2d.out_channels] in Sc.
  rewrite !patch_conv_extent in Sc by lia. rewrite Sc.
  destruct (@flatten2_shape _ c B embed_dim Ho Wo Sc) as (c1 & E1 & S1). rewrite E1. cbn [bind].
  destruct (@transpose_1_2_shape3 _ _ c1 B embed_dim (Ho * Wo) S1) as (c2 & E2 & S2).
  rewrite E2. cbn [bind].
  match goal with |- context [TokenLayer.forward ?l c2] =>
    destruct (@TokenLayer_forward_shape _ _ l c2 [B; Ho * Wo]) as (y & Ey & Sy);
      [exact S2|]
  end.
  rewrite Ey. cbn [bind]. exists y. repeat split. exact Sy.
Qed.

End PatchEmbedForward.
Section PatchEmbedTokens.
Context {A : Type} {SA : Scalar A}.

(** [PatchEmbed.forward] on the tokens of an earlier stage: the
    downsampling embeddings, with a patch size of 2. *)
Lemma PatchEmbed_forward_tokens (in_chans embed_dim : nat) (overlapped : bool)
  (w : davit.PatchEmbed.params (A := A)) (x : tensor A) (B H W : nat) :
  shape x = [B; H * W; in_chans] -> 0 < H -> 0 < W ->
  let pe := davit.PatchEmbed.__init__ (2, 2) in_chans embed_dim overlapped w in
  let Ho := windows_along H 2 in
  let Wo := windows_along W 2 in
  exists y,
    davit.PatchEmbed.forward pe x (H, W) = Ok (y, (Ho, Wo)) /\
    shape y = [B; Ho * Wo; embed_dim].
Proof.
  intros Hs HH HW pe Ho Wo.
  assert (HHo : 0 < Ho) by (apply windows_along_pos; lia).
  assert (HWo : 0 < Wo) by (apply windows_along_pos; lia).
  unfold davit.PatchEmbed.forward. rewrite Hs. cbn [length Nat.eqb].
  subst pe. cbn [davit.PatchEmbed.__init__ fst snd Nat.eqb davit.PatchEmbed.patch_size
                  davit.PatchEmbed.proj davit.PatchEmbed.norm davit.PatchEmbed.getattr bind].
  match goal with |- context [TokenLayer.forward ?l x] =>
    destruct (@TokenLayer_forward_shape _ _ l x [B; H * W]) as (x1 & E1 & S1); [exact Hs|]
  end.
  rewrite E1. cbn [bind]. cbn [TokenLayer.features_out app] in S1.
  destruct (@view_known_shape _ x1 [D B; D H; D W; D in_chans]) as (x2 & E2 & S2);
    [reflexivity | rewrite S1; cbn; lia |].
  rewrite E2. cbn [bind]. cbn [known_dims flat_map app] in S2.
  unfold permute at 1. rewrite S2. cbn [length is_permutation Nat.eqb forallb existsb seq
                                         andb orb map nth bind contiguous].
  match goal with |- context [init [B; in_chans; H; W] ?g] =>
    set (x3 := init [B; in_chans; H; W] g);
    assert (Hx3 : tensor_is x3 [B; in_chans; H; W] g) by apply tensor_is_init
  end.
  unfold contiguous. rewrite (proj1 Hx3).
  erewrite (@patch_embed_padding _ _ _ x3 _ _ _ _ _ 2 _); [|exact Hx3|lia].
  fold Ho Wo.
  match goal with |- context [init [B; in_chans; Ho * 2; Wo * 2] ?g] =>
    set (xp := init [B; in_chans; Ho * 2; Wo * 2] g);
    assert (Sxp : shape xp = [B; in_chans; Ho * 2; Wo * 2]) by apply shape_init
  end.
  match goal with |- context [Conv2d.forward ?l xp] =>
    destruct (@Conv2d_forward_shape _ _ l xp B (Ho * 2) (Wo * 2)
                (if overlapped then 3 else 2) (if overlapped then 3 else 2) 2 2
                (if overlapped then 1 else 0) (if overlapped then 1 else 0))
      as (c & Ec & Sc);
      try reflexivity; try exact Sxp; try lia; try (destruct overlapped; lia);
      try (cbn; lia); try (cbn; apply Nat.mod_1_r)
  end.
  rewrite Ec. cbn [bind]. cbn [Conv2d.out_channels] in Sc.
  rewrite !patch_conv_extent in Sc by (destruct overlapped; lia). rewrite Sc.
  destruct (@flatten2_shape _ c B embed_dim Ho Wo Sc) as (c1 & E1' & S1'). rewrite E1'. cbn [bind].
  destruct (@transpose_1_2_shape3 _ _ c1 B embed_dim (Ho * Wo) S1') as (c2 & E2' & S2').
  rewrite E2'. cbn [bind]. exists c2. split; [reflexivity | exact S2'].
Qed.

End PatchEmbedTokens.
Section PosEmbed.
Context {A : Type} {SA : Scalar A}.
Variable bicubic : tensor A -> nat * nat -> list nat -> A.

Lemma broadcast_rev_error (s1 s2 : list nat) (e : exn) :
  broadcast_rev s1 s2 = Raise e -> e = RuntimeError.
Proof.
  revert s2. induction s1 as [|a s1 IH]; intros [|b s2] Hr; try discriminate.
  cbn [broadcast_rev] in Hr.
  destruct (broadcast_rev s1 s2) as [r|e'] eqn:E.
  - cbn [bind] in Hr. destruct (a =? b); [discriminate|].
    destruct (a =? 1); [discriminate|]. destruct (b =? 1); [discriminate|].
    now injection Hr.
  - cbn [bind] in Hr. injection Hr as <-. now apply (IH s2).
Qed.

(** Two extents that differ, neither of them 1, do not broadcast. *)
Lemma broadcast_rev_mismatch (s1 s2 : list nat) (a b : nat) :
  a <> b -> a <> 1 -> b <> 1 -> broadcast_rev (a :: s1) (b :: s2) = Raise RuntimeError.
Proof.
  intros Hab Ha Hb. cbn [broadcast_rev].
  destruct (broadcast_rev s1 s2) as [r|e] eqn:E; cbn [bind].
  - apply Nat.eqb_neq in Hab, Ha, Hb. now rewrite Hab, Ha, Hb.
  - now rewrite (broadcast_rev_error _ _ _ E).
Qed.

Lemma broadcast_rev_cons_raise (s1 s2 : list nat) (a b : nat) (e : exn) :
  broadcast_rev s1 s2 = Raise e -> broadcast_rev (a :: s1) (b :: s2) = Raise e.
Proof. intros E. cbn [broadcast_rev]. now rewrite E. Qed.

(** The fields [__init__] gives the position embeddings. *)
Lemma HieraDet_init_pos_embed (a : HieraDet.args) (w : HieraDet.params (A := A))
  (m : HieraDet.t) :
  HieraDet.__init__ a w = Ok m ->
  exists ws0,
    nth_error (HieraDet.window_spec a) 0 = Some ws0 /\
    HieraDet.pos_embed m =
      init [1; HieraDet.embed_dim a; fst (HieraDet.global_pos_size a);
            snd (HieraDet.global_pos_size a)] (HieraDet.pos_embed_fn w) /\
    HieraDet.pos_embed_window m =
      init [1; HieraDet.embed_dim a; ws0; ws0] (HieraDet.pos_embed_window_fn w).
Proof.
  intros Hi. unfold HieraDet.__init__ in Hi.
  bind_inv Hi. bind_inv Hi. bind_inv Hi. bind_inv Hi. bind_inv Hi.
  injection Hi as <-. cbn.
  match goal with E : py_index (HieraDet.window_spec a) 0 = Ok ?v |- _ =>
    exists v; apply (@py_index_nat _ _ 0 v v) in E; destruct E as [E _]
  end.
  repeat split. assumption.
Qed.

(** A feature map whose height or width exceeds the first window size
    without being a multiple of it cannot take the position embedding:
    the tiled window embedding does not cover the map. *)
Lemma pos_embed_mismatch (a : HieraDet.args) (w : HieraDet.params (A := A))
  (m : HieraDet.t) (x : tensor A) (B h wd C ws : nat) :
  HieraDet.__init__ a w = Ok m ->
  nth_error (HieraDet.window_spec a) 0 = Some ws ->
  shape x = [B; h; wd; C] -> 0 < ws ->
  (ws < h /\ h mod ws <> 0) \/ (ws < wd /\ wd mod ws <> 0) ->
  HieraDet._pos_embed bicubic m x = Raise RuntimeError.
Proof.
  intros Hi Hws Hs Hpos Hbad.
  destruct (HieraDet_init_pos_embed a w m Hi) as (ws0 & Hws0 & Ep & Ew).
  assert (ws0 = ws) by congruence. subst ws0.
  unfold HieraDet._pos_embed, MultiScaleBlock.shape_1_3. rewrite Hs.
  cbn [skipn firstn MultiScaleBlock.unpack2 bind].
  unfold HieraDet.F_interpolate. rewrite Ep, shape_init.
  destruct (_ && _); [|reflexivity]. cbn [bind fst snd].
  rewrite shape_init, Ew, shape_init.
  change (py_index [1; HieraDet.embed_dim a; h; wd] (-2)) with (Ok (T := nat) h).
  change (py_index [1; HieraDet.embed_dim a; ws; ws] (-2)) with (Ok (T := nat) ws).
  change (py_index [1; HieraDet.embed_dim a; h; wd] (-1)) with (Ok (T := nat) wd).
  change (py_index [1; HieraDet.embed_dim a; ws; ws] (-1)) with (Ok (T := nat) ws).
  cbn [bind]. rewrite !(py_floordiv_ok _ Hpos). cbn [bind].
  unfold HieraDet.tile. rewrite shape_init. cbn [bind fst snd].
  unfold tensor_add at 1. rewrite !shape_init. unfold broadcast_shapes.
  cbn [rev app].
  assert (Hr : broadcast_rev [wd; h; HieraDet.embed_dim a; 1]
                 [ws * (wd / ws); ws * (h / ws); HieraDet.embed_dim a; 1]
               = Raise RuntimeError).
  { destruct (Nat.eq_dec (wd mod ws) 0) as [Ewd|Ewd].
    - destruct Hbad as [[Hlt Hm]|[Hlt Hm]]; [|contradiction].
      pose proof (Nat.div_mod_eq h ws). pose proof (Nat.mod_upper_bound h ws ltac:(lia)).
      assert (0 < h / ws) by (apply Nat.div_str_pos; lia).
      apply broadcast_rev_cons_raise. apply broadcast_rev_mismatch; nia.
    - destruct (Nat.le_gt_cases wd ws) as [Hle|Hlt].
      + destruct Hbad as [[Hlt Hm]|[Hlt Hm]]; [|lia].
        pose proof (Nat.div_mod_eq h ws). pose proof (Nat.mod_upper_bound h ws ltac:(lia)).
        assert (0 < h / ws) by (apply Nat.div_str_pos; lia).
        apply broadcast_rev_cons_raise. apply broadcast_rev_mismatch; nia.
      + pose proof (Nat.div_mod_eq wd ws). pose proof (Nat.mod_upper_bound wd ws ltac:(lia)).
        assert (0 < wd / ws) by (apply Nat.div_str_pos; lia).
        apply broadcast_rev_mismatch; nia. }
  rewrite Hr. reflexivity.
Qed.

End PosEmbed.
Section PosEmbedOk.
Context {A : Type} {SA : Scalar A}.
Variable bicubic : tensor A -> nat * nat -> list nat -> A.

(** On a feature map whose height and width are multiples of the first
    window size, the position embedding is added and the shape kept. *)
Lemma pos_embed_multiple (a : HieraDet.args) (w : HieraDet.params (A := A))
  (m : HieraDet.t) (x : tensor A) (B kh kw ws : nat) :
  HieraDet.__init__ a w = Ok m ->
  nth_error (HieraDet.window_spec a) 0 = Some ws ->
  shape x = [B; kh * ws; kw * ws; HieraDet.embed_dim a] ->
  0 < ws -> 0 < kh -> 0 < kw ->
  0 < fst (HieraDet.global_pos_size a) -> 0 < snd (HieraDet.global_pos_size a) ->
  exists y, HieraDet._pos_embed bicubic m x = Ok y /\ shape y = shape x.
Proof.
  intros Hi Hws Hs Hpos Hkh Hkw Hg0 Hg1.
  destruct (HieraDet_init_pos_embed a w m Hi) as (ws0 & Hws0 & Ep & Ew).
  assert (ws0 = ws) by congruence. subst ws0.
  unfold HieraDet._pos_embed, MultiScaleBlock.shape_1_3. rewrite Hs.
  cbn [skipn firstn MultiScaleBlock.unpack2 bind].
  unfold HieraDet.F_interpolate. rewrite Ep, shape_init. cbn [fst snd].
  rewrite (proj2 (Nat.ltb_lt _ _) Hg0), (proj2 (Nat.ltb_lt _ _) Hg1).
  rewrite (proj2 (Nat.ltb_lt 0 (kh * ws))), (proj2 (Nat.ltb_lt 0 (kw * ws))) by nia.
  cbn [andb bind]. rewrite shape_init, Ew, shape_init.
  change (py_index [1; HieraDet.embed_dim a; kh * ws; kw * ws] (-2)) with (Ok (T := nat) (kh * ws)).
  change (py_index [1; HieraDet.embed_dim a; ws; ws] (-2)) with (Ok (T := nat) ws).
  change (py_index [1; HieraDet.embed_dim a; kh * ws; kw * ws] (-1)) with (Ok (T := nat) (kw * ws)).
  change (py_index [1; HieraDet.embed_dim a; ws; ws] (-1)) with (Ok (T := nat) ws).
  cbn [bind]. rewrite !(py_floordiv_ok _ Hpos). cbn [bind].
  rewrite !Nat.div_mul by lia.
  unfold HieraDet.tile. rewrite shape_init. cbn [bind fst snd].
  match goal with |- context [tensor_add ?p ?t] =>
    destruct (@tensor_add_shape _ _ p t) as (s & Es & Ss);
      [rewrite !shape_init; f_equal; f_equal; f_equal; [lia | f_equal; lia]|]
  end.
  rewrite Es. cbn [bind]. rewrite shape_init in Ss.
  unfold permute at 1. rewrite Ss.
  cbn [length is_permutation Nat.eqb forallb existsb seq andb orb map nth bind].
  unfold tensor_add. rewrite Hs, shape_init. unfold broadcast_shapes.
  cbn [rev app broadcast_rev bind]. rewrite !Nat.eqb_refl. cbn [bind].
  destruct (B =? 1) eqn:EB.
  - eexists. split; [reflexivity|]. rewrite shape_init. cbn [rev app].
    apply Nat.eqb_eq in EB. now subst B.
  - cbn [Nat.eqb]. eexists. split; [reflexivity|]. now rewrite shape_init.
Qed.

End PosEmbedOk.
Section PaddingTransparency.
Context {A : Type} {SA : Scalar A}.
Variable bicubic : tensor A -> nat * nat -> list nat -> A.

Lemma windows_along_4 (n : nat) : windows_along n 4 = (n + 3) / 4.
Proof. rewrite windows_along_ceil by lia. f_equal. lia. Qed.

Lemma windows_along_2 (n : nat) : windows_along n 2 = (n + 1) / 2.
Proof. rewrite windows_along_ceil by lia. f_equal. lia. Qed.

(** C8 (amended).  The patch embeddings of DaViT accept any positive
    height and width.  The stem, of stride 4, applied to an image, and the
    later embeddings, of stride 2, applied to the tokens of an [H x W]
    map, return a map of [ceil(H/stride) x ceil(W/stride)] tokens; the
    stem gives the very result it gives on the image filled with zeros
    below and to the right up to the next multiples of 4, so nothing is
    added above or to the left.  HieraDet has no such padding in front of
    its position embedding: [_pos_embed] raises a [RuntimeError] on a
    feature map whose height or width exceeds the first window size
    without being a multiple of it, and returns a map of the same shape
    when both are multiples. *)
Theorem patch_embedding_pads_bottom_right :
  (forall (in_chans embed_dim : nat) (overlapped : bool)
          (w : davit.PatchEmbed.params (A := A)) (x : tensor A) (B H W : nat)
          (size : nat * nat),
     wf x -> shape x = [B; in_chans; H; W] -> 0 < H -> 0 < W ->
     let pe := davit.PatchEmbed.__init__ (4, 4) in_chans embed_dim overlapped w in
     let Ho := (H + 3) / 4 in
     let Wo := (W + 3) / 4 in
     exists y,
       davit.PatchEmbed.forward pe x size = Ok (y, (Ho, Wo)) /\
       shape y = [B; Ho * Wo; embed_dim] /\
       davit.PatchEmbed.forward pe
         (init [B; in_chans; Ho * 4; Wo * 4] (zero_padded_nchw (get x) H W)) size
         = Ok (y, (Ho, Wo))) /\
  (forall (in_chans embed_dim : nat) (overlapped : bool)
          (w : davit.PatchEmbed.params (A := A)) (x : tensor A) (B H W : nat),
     shape x = [B; H * W; in_chans] -> 0 < H -> 0 < W ->
     let pe := davit.PatchEmbed.__init__ (2, 2) in_chans embed_dim overlapped w in
     let Ho := (H + 1) / 2 in
     let Wo := (W + 1) / 2 in
     exists y,
       davit.PatchEmbed.forward pe x (H, W) = Ok (y, (Ho, Wo)) /\
       shape y = [B; Ho * Wo; embed_dim]) /\
  (forall (a : HieraDet.args) (w : HieraDet.params (A := A)) (m : HieraDet.t)
          (x : tensor A) (B h wd C ws : nat),
     HieraDet.__init__ a w = Ok m ->
     nth_error (HieraDet.window_spec a) 0 = Some ws ->
     shape x = [B; h; wd; C] -> 0 < ws ->
     (ws < h /\ h mod ws <> 0) \/ (ws < wd /\ wd mod ws <> 0) ->
     HieraDet._pos_embed bicubic m x = Raise RuntimeError) /\
  (forall (a : HieraDet.args) (w : HieraDet.params (A := A)) (m : HieraDet.t)
          (x : tensor A) (B kh kw ws : nat),
     HieraDet.__init__ a w = Ok m ->
     nth_error (HieraDet.window_spec a) 0 = Some ws ->
     shape x = [B; kh * ws; kw * ws; HieraDet.embed_dim a] ->
     0 < ws -> 0 < kh -> 0 < kw ->
     0 < fst (HieraDet.global_pos_size a) -> 0 < snd (HieraDet.global_pos_size a) ->
     exists y, HieraDet._pos_embed bicubic m x = Ok y /\ shape y = shape x).
Proof.
  split; [|split; [|split]].
  - intros in_chans embed_dim overlapped w x B H W size Hwf Hs HH HW pe Ho Wo.
    subst Ho Wo. rewrite <- !windows_along_4.
    apply PatchEmbed_forward_image; [|assumption|assumption].
    rewrite <- Hs. now apply tensor_is_get.
  - intros in_chans embed_dim overlapped w x B H W Hs HH HW pe Ho Wo.
    subst Ho Wo. rewrite <- !windows_along_2.
    now apply PatchEmbed_forward_tokens.
  - intros. eapply pos_embed_mismatch; eassumption.
  - intros. eapply pos_embed_multiple; eassumption.
Qed.

End PaddingTransparency.

Lemma patch_embedding_pads_bottom_right_witness :
  (exists y,
     davit.PatchEmbed.forward
       (davit.PatchEmbed.__init__ (4, 4) 1 2 false Examples.patch_params)
       Examples.image_10x9 (10, 9) = Ok (y, (3, 3)) /\
     shape y = [1; 9; 2] /\
     davit.PatchEmbed.forward
       (davit.PatchEmbed.__init__ (4, 4) 1 2 false Examples.patch_params)
       (init [1; 1; 12; 12] (zero_padded_nchw (get Examples.image_10x9) 10 9)) (10, 9)
       = Ok (y, (3, 3))) /\
  match HieraDet.__init__ Examples.small_args Examples.params with
  | Ok m =>
      HieraDet._pos_embed Examples.nearest m (mkTensor [1; 6; 6; 1] (map Z.of_nat (seq 1 36)))
        = Raise RuntimeError
  | Raise _ => False
  end.
Proof.
  pose proof (@patch_embedding_pads_bottom_right Z Z_scalar Examples.nearest)
    as (Hstem & _ & Hbad & _).
  split.
  - apply (Hstem 1 2 false Examples.patch_params Examples.image_10x9 1 10 9 (10, 9));
      [reflexivity | reflexivity | lia | lia].
  - destruct (HieraDet.__init__ Examples.small_args Examples.params) as [m|e] eqn:E;
      [|vm_compute in E; discriminate].
    apply (Hbad Examples.small_args Examples.params m _ 1 6 6 1 4 E);
      [reflexivity | reflexivity | lia | left; split; [lia | cbn; lia]].
Defined.

(** HieraDet fails on an image whose side is no multiple of the first
    window size. *)
Lemma forward_fails_off_window_multiple :
  exists m,
    HieraDet.__init__ Examples.small_args Examples.params = Ok m /\
    HieraDet.forward Examples.nearest m Examples.image_6x6 = Raise RuntimeError /\
    exists y, HieraDet.forward Examples.nearest m Examples.image_8x8 = Ok y.
Proof.
  eexists. split; [vm_compute; reflexivity|].
  split; [vm_compute; reflexivity|].
  eexists. vm_compute. reflexivity.
Qed.

(** ** Channel attention *)

Section ContentSpecs.
Context {A : Type} {SA : Scalar A}.

Lemma sum_over_ext (n : nat) (f g : nat -> A) :
  (forall c, c < n -> f c = g c) -> sum_over n f = sum_over n g.
Proof.
  intros Hfg. unfold sum_over. f_equal. apply map_ext_in.
  intros c Hc. apply in_seq in Hc. apply Hfg. lia.
Qed.

Lemma Linear_forward_spec (l : Linear.t) (x : tensor A) (f : list nat -> A) (B N : nat) :
  tensor_is x [B; N; Linear.in_features l] f ->
  exists y, Linear.forward l x = Ok y /\
    tensor_is y [B; N; Linear.out_features l]
      (fun idx =>
         add (sum_over (Linear.in_features l)
                (fun k => mul (f [nth 0 idx 0; nth 1 idx 0; k])
                              (Linear.weight l (nth 2 idx 0) k)))
             (Linear.bias l (nth 2 idx 0))).
Proof.
  intros (Hs & Hwf & Hg). unfold Linear.forward. rewrite Hs. cbn [rev app].
  rewrite Nat.eqb_refl. eexists. split; [reflexivity|].
  eapply tensor_is_ext; [apply tensor_is_init|].
  intros idx Hb. apply in_bounds3_inv in Hb as (b & n & o & -> & Hb & Hn & Ho).
  cbn. f_equal. apply sum_over_ext. intros c Hc. f_equal. apply Hg. bounds.
Qed.

Lemma select_0_spec (t : tensor A) (n : nat) (sh : list nat) (f : list nat -> A) (i : nat) :
  tensor_is t (n :: sh) f -> i < n ->
  exists y, select t 0 i = Ok y /\ tensor_is y sh (fun idx => f (i :: idx)).
Proof.
  intros (Hs & Hwf & Hg) Hi. unfold select. rewrite Hs. cbn [length nth].
  rewrite (proj2 (Nat.ltb_lt i n) Hi). cbn [Nat.ltb Nat.leb andb].
  eexists. split; [reflexivity|].
  eapply tensor_is_ext; [apply tensor_is_init|].
  intros idx Hb. cbn. apply Hg. constructor; assumption.
Qed.

Lemma tensor_scale_spec (t : tensor A) (sh : list nat) (f : list nat -> A) (s : A) :
  tensor_is t sh f -> tensor_is (tensor_scale t s) sh (fun idx => mul (f idx) s).
Proof.
  intros (Hs & Hwf & Hg). unfold tensor_scale. split; [exact Hs|]. split.
  - unfold wf in *. cbn. now rewrite length_map.
  - intros idx Hb. rewrite <- (Hg idx Hb). unfold get. cbn [shape data].
    rewrite Hs. pose proof (@ravel_lt sh idx Hb) as Hlt.
    rewrite (nth_indep _ zero (mul zero s)).
    + apply (map_nth (fun v => mul v s)).
    + rewrite length_map. unfold wf in Hwf. rewrite Hwf, Hs. exact Hlt.
Qed.

Lemma transpose_last_spec (t : tensor A) (a b c d : nat) (f : list nat -> A) :
  tensor_is t [a; b; c; d] f ->
  exists y, transpose t (-1) (-2) = Ok y /\
    tensor_is y [a; b; d; c]
      (fun idx => f [nth 0 idx 0; nth 1 idx 0; nth 3 idx 0; nth 2 idx 0]).
Proof.
  intros (Hs & Hwf & Hg). unfold transpose, permute. rewrite Hs. cbn.
  eexists. split; [reflexivity|].
  eapply tensor_is_ext; [apply tensor_is_init|].
  intros idx Hb. apply in_bounds4_inv in Hb as (i & j & k & l & -> & Hi & Hj & Hk & Hl).
  cbn. apply Hg. bounds.
Qed.

Lemma transpose_1_2_spec (t : tensor A) (a b c d : nat) (f : list nat -> A) :
  tensor_is t [a; b; c; d] f ->
  exists y, transpose t 1 2 = Ok y /\
    tensor_is y [a; c; b; d]
      (fun idx => f [nth 0 idx 0; nth 2 idx 0; nth 1 idx 0; nth 3 idx 0]).
Proof.
  intros (Hs & Hwf & Hg). unfold transpose, permute. rewrite Hs. cbn.
  eexists. split; [reflexivity|].
  eapply tensor_is_ext; [apply tensor_is_init|].
  intros idx Hb. apply in_bounds4_inv in Hb as (i & j & k & l & -> & Hi & Hj & Hk & Hl).
  cbn. apply Hg. bounds.
Qed.

Lemma matmul_spec (x y : tensor A) (B h m k n : nat) (fx fy : list nat -> A) :
  tensor_is x [B; h; m; k] fx -> tensor_is y [B; h; k; n] fy ->
  exists z, matmul x y = Ok z /\
    tensor_is z [B; h; m; n]
      (fun idx =>
         sum_over k (fun c => mul (fx [nth 0 idx 0; nth 1 idx 0; nth 2 idx 0; c])
                                  (fy [nth 0 idx 0; nth 1 idx 0; c; nth 3 idx 0]))).
Proof.
  intros (Hsx & Hwx & Hgx) (Hsy & Hwy & Hgy). unfold matmul. rewrite Hsx, Hsy.
  cbn [rev app]. rewrite Nat.eqb_refl.
  destruct (list_eq_dec Nat.eq_dec [h; B] [h; B]) as [_|Hne]; [|congruence].
  cbn [andb]. eexists. split; [reflexivity|].
  eapply tensor_is_ext; [apply tensor_is_init|].
  intros idx Hb. apply in_bounds4_inv in Hb as (i & j & r & s & -> & Hi & Hj & Hr & Hs).
  cbn. apply sum_over_ext. intros c Hc. f_equal; [apply Hgx | apply Hgy]; bounds.
Qed.

Lemma softmax_last_spec (t : tensor A) (a b c d : nat) (f : list nat -> A) :
  tensor_is t [a; b; c; d] f ->
  exists y, softmax_last t = Ok y /\
    tensor_is y [a; b; c; d]
      (fun idx =>
         nth (nth 3 idx 0)
             (softmax_list
                (map (fun e => f [nth 0 idx 0; nth 1 idx 0; nth 2 idx 0; e]) (seq 0 d)))
             zero).
Proof.
  intros (Hs & Hwf & Hg). unfold softmax_last. rewrite Hs.
  eexists. split; [reflexivity|].
  eapply tensor_is_ext; [apply tensor_is_init|].
  intros idx Hb. apply in_bounds4_inv in Hb as (i & j & r & s & -> & Hi & Hj & Hr & Hs').
  assert (E : map (fun k => get t ([i; j; r] ++ [k])) (seq 0 d)
              = map (fun e => f [i; j; r; e]) (seq 0 d)).
  { apply map_ext_in. intros e He. apply in_seq in He. apply Hg. bounds. }
  unfold row, lead, last_of. rewrite Hs. cbn [removelast last nth].
  rewrite E. reflexivity.
Qed.

End ContentSpecs.
Section ChannelAttentionSpec.
Context {A : Type} {SA : Scalar A}.

(** [ChannelAttention.attend], entry by entry, in terms of the output
    [lin] of the [qkv] projection. *)
Lemma ChannelAttention_attend_spec (self : davit.ChannelAttention.t (A := A))
  (x : tensor A) (f : list nat -> A) (B N heads hd : nat) :
  tensor_is x [B; N; heads * hd] f ->
  davit.ChannelAttention.num_heads self = heads ->
  Linear.in_features (davit.ChannelAttention.qkv self) = heads * hd ->
  Linear.out_features (davit.ChannelAttention.qkv self) = heads * hd * 3 ->
  0 < B -> 0 < N -> 0 < heads -> 0 < hd ->
  exists lin y,
    Linear.forward (davit.ChannelAttention.qkv self) x = Ok lin /\
    shape lin = [B; N; heads * hd * 3] /\
    davit.ChannelAttention.attend self x = Ok y /\
    let q := fun b h n e => get lin [b; n; h * hd + e] in
    let k := fun b h n e =>
      mul (get lin [b; n; heads * hd + h * hd + e]) (davit.ChannelAttention.scale self) in
    let v := fun b h n e => get lin [b; n; 2 * (heads * hd) + h * hd + e] in
    let attention := fun b h d =>
      softmax_list (map (fun e => sum_over N (fun n => mul (k b h n d) (v b h n e)))
                        (seq 0 hd)) in
    tensor_is y [B; N; heads * hd]
      (fun idx =>
         let b := nth 0 idx 0 in
         let n := nth 1 idx 0 in
         let c := nth 2 idx 0 in
         sum_over hd (fun e => mul (nth e (attention b (c / hd) (c mod hd)) zero)
                                   (q b (c / hd) n e))).
Proof.
  intros Hx Hh Hin Hout HB HN Hheads Hhd.
  rewrite <- Hin in Hx.
  destruct (@Linear_forward_spec _ _ (davit.ChannelAttention.qkv self) x f B N Hx)
    as (lin & El & Hl).
  rewrite Hout in Hl. rewrite Hin in Hx.
  exists lin.
  unfold davit.ChannelAttention.attend. rewrite (proj1 Hx), El. cbn [bind].
  rewrite Hh, py_floordiv_ok by assumption. cbn [bind].
  rewrite (Nat.mul_comm heads hd), Nat.div_mul by lia. rewrite (Nat.mul_comm hd heads).
  pose proof (tensor_is_get (proj1 (proj2 Hl))) as Hl'. rewrite (proj1 Hl) in Hl'.
  destruct (view_known_spec [D B; D N; D 3; D heads; D hd] Hl')
    as (t1 & E1 & H1); [reflexivity | cbn; lia |].
  rewrite E1; cbn [bind]; clear E1. cbn [known_dims flat_map app] in H1.
  destruct (permute_spec [2; 0; 3; 1; 4] H1) as (t2 & E2 & H2);
    [reflexivity | intros idx Hb; cbn in Hb; inv_bounds; cbn; bounds |].
  rewrite E2; cbn [bind]; clear E2. cbn [map nth length seq index_of Nat.eqb] in H2.
  destruct (@select_0_spec _ _ t2 3 [B; heads; N; hd] _ 0 H2) as (q & Eq & Hq); [lia|].
  destruct (@select_0_spec _ _ t2 3 [B; heads; N; hd] _ 1 H2) as (k & Ek & Hk); [lia|].
  destruct (@select_0_spec _ _ t2 3 [B; heads; N; hd] _ 2 H2) as (v & Ev & Hv); [lia|].
  rewrite Eq, Ek, Ev; cbn [bind]; clear Eq Ek Ev.
  pose proof (@tensor_scale_spec _ _ k _ _ (davit.ChannelAttention.scale self) Hk) as Hks.
  destruct (@transpose_last_spec _ _ _ B heads N hd _ Hks) as (kt & Ekt & Hkt).
  rewrite Ekt; cbn [bind]; clear Ekt.
  destruct (@matmul_spec _ _ kt v B heads hd N hd _ _ Hkt Hv) as (a1 & Ea1 & Ha1).
  rewrite Ea1; cbn [bind]; clear Ea1.
  destruct (@softmax_last_spec _ _ a1 B heads hd hd _ Ha1) as (a2 & Ea2 & Ha2).
  rewrite Ea2; cbn [bind]; clear Ea2.
  destruct (@transpose_last_spec _ _ _ B heads N hd _ Hq) as (qt & Eqt & Hqt).
  rewrite Eqt; cbn [bind]; clear Eqt.
  destruct (@matmul_spec _ _ a2 qt B heads hd hd N _ _ Ha2 Hqt) as (x1 & Ex1 & Hx1).
  rewrite Ex1; cbn [bind]; clear Ex1.
  destruct (@transpose_last_spec _ _ _ B heads hd N _ Hx1) as (x2 & Ex2 & Hx2).
  rewrite Ex2; cbn [bind]; clear Ex2.
  destruct (@transpose_1_2_spec _ _ _ B heads N hd _ Hx2) as (x3 & Ex3 & Hx3).
  rewrite Ex3; cbn [bind]; clear Ex3.
  destruct (view_known_spec [D B; D N; D (heads * hd)] Hx3)
    as (y & Ey & Hy); [reflexivity | cbn; lia |].
  rewrite Ey; clear Ey. cbn [known_dims flat_map app] in Hy.
  exists y. split; [reflexivity|]. split; [exact (proj1 Hl)|]. split; [reflexivity|].
  cbv zeta.
  eapply tensor_is_ext; [exact Hy|].
  intros idx Hb. apply in_bounds3_inv in Hb as (b & n & c & -> & Hb & Hn & Hc).
  destruct (@split_index c heads hd Hhd Hc) as (Hc' & Hch & Hcd).
  set (h := c / hd) in *. set (d := c mod hd) in *.
  rewrite (@unravel_as [B; N; heads; hd] _ _ [b; n; h; d]);
    [|bounds|rewrite Hc' at 1; cbn; ring].
  cbn [nth].
  assert (Hlin : forall s h' n' e, s < 3 -> h' < heads -> n' < N -> e < hd ->
            get lin (unravel [B; N; heads * hd * 3]
                       (ravel [B; N; 3; heads; hd] [b; n'; s; h'; e]))
            = get lin [b; n'; s * (heads * hd) + h' * hd + e]).
  { intros s h' n' e Hs Hh' Hn' He.
    rewrite (@unravel_as [B; N; heads * hd * 3] _ _ [b; n'; s * (heads * hd) + h' * hd + e]);
      [reflexivity| |cbn; ring].
    assert (h' * hd + e < heads * hd) by nia.
    bounds. }
  apply sum_over_ext. intros e He. cbn [nth]. f_equal.
  - f_equal. f_equal. apply map_ext_in. intros e' He'. apply in_seq in He'. cbn [nth].
    apply sum_over_ext. intros n' Hn'. cbn [nth]. f_equal.
    + rewrite Hlin by lia.
      replace (1 * (heads * hd) + h * hd + d) with (heads * hd + h * hd + d) by ring.
      reflexivity.
    + rewrite Hlin by lia. reflexivity.
  - rewrite Hlin by lia. reflexivity.
Qed.

End ChannelAttentionSpec.
Section ChannelAttentionForward.
Context {A : Type} {SA : Scalar A}.

Lemma ChannelAttention_init_fields (dim heads hd : nat) (qkv_bias : bool)
  (w : davit.ChannelAttention.params (A := A)) (self : davit.ChannelAttention.t) :
  davit.ChannelAttention.__init__ dim heads qkv_bias w = Ok self ->
  dim = heads * hd -> 0 < hd ->
  0 < heads /\
  davit.ChannelAttention.num_heads self = heads /\
  davit.ChannelAttention.scale self = rsqrt hd /\
  Linear.in_features (davit.ChannelAttention.qkv self) = dim /\
  Linear.out_features (davit.ChannelAttention.qkv self) = dim * 3 /\
  Linear.in_features (davit.ChannelAttention.proj self) = dim /\
  Linear.out_features (davit.ChannelAttention.proj self) = dim.
Proof.
  intros Hi Hd Hhd. unfold davit.ChannelAttention.__init__ in Hi.
  bind_inv Hi. bind_inv Hi. injection Hi as <-. cbn.
  unfold py_floordiv in E. destruct (Nat.eqb_spec heads 0) as [|Hh]; [discriminate|].
  injection E as <-. subst dim.
  rewrite (Nat.mul_comm heads hd), Nat.div_mul by assumption.
  repeat split. lia.
Qed.

(** C3 (amended).  [ChannelAttention.forward] computes, for each head,
    with the keys scaled by [head_dim ** -0.5]: the [head_dim x head_dim]
    matrix [softmax(K^T V)], where the product contracts the token axis
    and the softmax runs along the last axis of the matrix, the channel
    axis of the values, not along the tokens; then [(attn Q^T)^T]; the
    heads are concatenated along the channels and passed through the
    output projection.  The products are exact sums of products. *)
Theorem channel_attention_forward (dim heads hd : nat) (qkv_bias : bool)
  (w : davit.ChannelAttention.params (A := A)) (self : davit.ChannelAttention.t)
  (x : tensor A) (B N : nat) :
  davit.ChannelAttention.__init__ dim heads qkv_bias w = Ok self ->
  dim = heads * hd -> 0 < hd ->
  wf x -> shape x = [B; N; dim] -> 0 < B -> 0 < N ->
  davit.ChannelAttention.scale self = rsqrt hd /\
  exists lin y,
    Linear.forward (davit.ChannelAttention.qkv self) x = Ok lin /\
    shape lin = [B; N; dim * 3] /\
    davit.ChannelAttention.attend self x = Ok y /\
    davit.ChannelAttention.forward self x
      = Linear.forward (davit.ChannelAttention.proj self) y /\
    tensor_is y [B; N; dim]
      (fun idx =>
         let b := nth 0 idx 0 in
         let n := nth 1 idx 0 in
         let c := nth 2 idx 0 in
         let h := c / hd in
         channel_attention N hd
           (fun m e => get lin [b; m; h * hd + e])
           (fun m e => mul (get lin [b; m; dim + h * hd + e])
                           (davit.ChannelAttention.scale self))
           (fun m e => get lin [b; m; 2 * dim + h * hd + e])
           n (c mod hd)).
Proof.
  intros Hi Hd Hhd Hwf Hs HB HN.
  destruct (ChannelAttention_init_fields dim heads hd qkv_bias w self Hi Hd Hhd)
    as (Hheads & Hnh & Hsc & Hin & Hout & _ & _).
  split; [exact Hsc|].
  assert (Hx : tensor_is x [B; N; heads * hd] (get x)).
  { rewrite <- Hd, <- Hs. now apply tensor_is_get. }
  rewrite Hd in Hin, Hout.
  destruct (@ChannelAttention_attend_spec _ _ self x (get x) B N heads hd
              Hx Hnh Hin Hout HB HN Hheads Hhd) as (lin & y & El & Sl & Ey & Hy).
  exists lin, y. rewrite Hd. repeat split; try assumption.
  - unfold davit.ChannelAttention.forward. now rewrite Ey.
  - exact (proj1 Hy).
  - exact (proj1 (proj2 Hy)).
  - exact (proj2 (proj2 Hy)).
Qed.

End ChannelAttentionForward.

Lemma channel_attention_forward_witness :
  match davit.ChannelAttention.__init__ 2 1 true Examples.davit_attn_params with
  | Ok self =>
      exists y,
        davit.ChannelAttention.attend self Examples.tokens_3x2 = Ok y /\
        shape y = [1; 3; 2] /\
        davit.ChannelAttention.forward self Examples.tokens_3x2
          = Linear.forward (davit.ChannelAttention.proj self) y
  | Raise _ => False
  end.
Proof.
  destruct (davit.ChannelAttention.__init__ 2 1 true Examples.davit_attn_params)
    as [self|e] eqn:E; [|vm_compute in E; discriminate].
  destruct (@channel_attention_forward Z Z_scalar 2 1 2 true Examples.davit_attn_params
              self Examples.tokens_3x2 1 3 E)
    as (_ & lin & y & _ & _ & Ey & Ef & Hy); [reflexivity | lia | reflexivity | reflexivity | lia | lia |].
  exists y. split; [exact Ey|]. split; [exact (proj1 Hy) | exact Ef].
Defined.
(** The softmax does not run over the tokens.  Over the reals, with one
    head of one channel, two tokens, queries and keys equal to the input
    and values 0: the softmax of the code normalises the single entry of
    the [1 x 1] matrix [K^T V] to 1, so the output is the query, 1; a
    softmax over the two tokens would weigh the values, all 0, and give
    0. *)
Lemma softmax_is_not_over_tokens :
  exists self lin y,
    davit.ChannelAttention.__init__ 1 1 true Examples.attn_params_R = Ok self /\
    Linear.forward (davit.ChannelAttention.qkv self) Examples.tokens_R = Ok lin /\
    davit.ChannelAttention.attend self Examples.tokens_R = Ok y /\
    get y [0; 0; 0] = 1%R /\
    channel_attention_token_softmax 2 1
      (fun m e => get lin [0; m; e])
      (fun m e => mul (get lin [0; m; 1 + e]) (davit.ChannelAttention.scale self))
      (fun m e => get lin [0; m; 2 + e]) 0 0 = 0%R.
Proof.
  destruct (davit.ChannelAttention.__init__ 1 1 true Examples.attn_params_R)
    as [self|e] eqn:Ei; [|discriminate].
  assert (Hx : tensor_is Examples.tokens_R [1; 2; 1 * 1] (get Examples.tokens_R)).
  { apply (@tensor_is_get R R_scalar Examples.tokens_R). reflexivity. }
  destruct (@ChannelAttention_init_fields R R_scalar 1 1 1 true Examples.attn_params_R self Ei)
    as (_ & Hnh & Hsc & Hin & Hout & _ & _); [reflexivity | lia |].
  destruct (@ChannelAttention_attend_spec R R_scalar self Examples.tokens_R
              (get Examples.tokens_R) 1 2 1 1 Hx Hnh Hin Hout)
    as (lin & y & El & Sl & Ey & Hy); try lia.
  exists self, lin, y. split; [reflexivity|]. split; [exact El|]. split; [exact Ey|].
  assert (Hlin : forall m o, m < 2 -> o < 3 ->
            get lin [0; m; o] = if o <? 2 then 1%R else 0%R).
  { intros m o Hm Ho.
    injection Ei as <-. cbn in El. injection El as <-.
    rewrite get_init by bounds.
    unfold sum_over, sum_list, last_of, lead. cbn.
    destruct m as [|[|m]]; [| |lia]; cbn; destruct (o <? 2); lra. }
  split.
  - rewrite (proj2 (proj2 Hy) [0; 0; 0]) by bounds.
    cbn [nth Nat.div Nat.modulo Nat.divmod fst snd Nat.sub Nat.mul Nat.add].
    unfold softmax_list, sum_over, sum_list.
    cbn [seq map fold_right nth Nat.mul Nat.add].
    rewrite !Hlin by lia. cbn [Nat.ltb Nat.leb].
    cbn [add mul zero fexp fdiv R_scalar].
    match goal with |- context [exp ?s] => generalize (exp_pos s); generalize (exp s) end.
    intros u Hu. field. lra.
  - unfold channel_attention_token_softmax, sum_over, sum_list.
    cbn [seq map fold_right nth Nat.mul Nat.add].
    rewrite !Hlin by lia. cbn [Nat.ltb Nat.leb].
    cbn [add mul zero R_scalar]. ring.
Qed.

(** ** The pyramid of DaViT *)

Section AttentionShapes.
Context {A : Type} {SA : Scalar A}.







End AttentionShapes.

Section BlockShapes.
Context {A : Type} {SA : Scalar A}.




End BlockShapes.

Section WindowShapesDavit.
Context {A : Type} {SA : Scalar A}.




End WindowShapesDavit.

Section DavitBlockShapes.
Context {A : Type} {SA : Scalar A}.





End DavitBlockShapes.

Section DavitStages.
Context {A : Type} {SA : Scalar A}.








End DavitStages.

Section DavitTiny.
Context {A : Type} {SA : Scalar A}.


(** The constructor returns on the arguments of [davit_tiny], whatever
    the weights. *)
Lemma davit_tiny_constructs (w : davit.DaViT.params (A := A)) :
  exists m, davit.DaViT.__init__ davit.DaViT.davit_tiny w = Ok m.
Proof.
  eexists. vm_compute. reflexivity.
Qed.

End DavitTiny.

Section DavitPyramid.
Context {A : Type} {SA : Scalar A}.







End DavitPyramid.

